(** * market-data: the incremental time-series engine and the trading-system
      state machine, embedded in Rocq

    Sources embedded here (Python 2):
    - [package/yahooFinance/timeseries.py]   class [timeSeriesAnalysis]
    - [package/yahooFinance/price.py]        classes [MA], [ATR], [N], [MMAX],
                                             [MMIN], [GRADERR],
                                             [exponentialWeighting]
    - [package/yahooFinance/portfolio/strategy.py]
                                             classes [tradingSystem], [Hold],
                                             [DualMA]
    - [package/yahooFinance/strategy.py]     class [strategyAnalysis]
    - [package/yahooFinance/returns.py]      classes [returnsAnalysis],
                                             [Returns], [Drawdowns]

    Conventions of the embedding.
    - A Python [float] is a rational ([Q]); equality of floats is [Qeq].
      Where a property depends on the rounding of the float operations
      ([Rounded], [Exponential], [TrueRange.N_calculation], [Returns]),
      the definition takes the rounding [fl] of the exact result of one
      operation as a parameter and the statement says what it asks of
      [fl]; the identity is arithmetic without rounding.  The other
      definitions compute without rounding: their statements are
      comparisons, counts and single quotients.  Overflow and NaN are not
      modelled.
    - A Python [int] is a [Z]; [/] on two ints is floor division.
    - A raised exception is the [Raise] branch of [result]; the statements
      of a method are sequenced with [bind].
    - Instance attributes mutated by a method ([self.__sum__], [self.equity],
      ...) are the fields of an explicit state record which every method
      takes and returns. *)

From Stdlib Require Import String.
From Stdlib Require Import ZArith QArith Qabs Qpower List Bool Lia Lqa.
Import ListNotations.

#[local] Set Warnings "-register-all".

Set Implicit Arguments.

(* ################################################################# *)
(** * Python values, exceptions and sequences *)

Module Py.

Inductive exn : Type :=
| TypeError
| IndexError
| ZeroDivisionError
| ValueError.

Inductive result (A : Type) : Type :=
| Ok (a : A)
| Raise (e : exn).

Arguments Ok {A} a.
Arguments Raise {A} e.

Definition bind {A B : Type} (c : result A) (k : A -> result B) : result B :=
  match c with
  | Ok a => k a
  | Raise e => Raise e
  end.

(** The cells a dataset column may hold.  [PyStr ""] is the empty cell. *)
Inductive pyval : Type :=
| PyInt (z : Z)
| PyFloat (q : Q)
| PyStr (s : string)
| PyList (l : list pyval).

Definition not_available : pyval := PyStr "".

(** [l[i]]: a negative index counts from the end of the list. *)
Definition index {A : Type} (l : list A) (i : Z) : result A :=
  let n := Z.of_nat (length l) in
  let j := if (i <? 0)%Z then (i + n)%Z else i in
  if ((0 <=? j) && (j <? n))%Z
  then match nth_error l (Z.to_nat j) with
       | Some x => Ok x
       | None => Raise IndexError
       end
  else Raise IndexError.

(** [xrange(a, b)]. *)
Definition xrange (a b : Z) : list Z :=
  map (fun k => (a + Z.of_nat k)%Z) (seq 0 (Z.to_nat (b - a))).

(** [len(l)]. *)
Definition len {A : Type} (l : list A) : Z := Z.of_nat (length l).

(** [x < y] and [x == y] on floats. *)
Definition Qltb (x y : Q) : bool :=
  (Qnum x * QDen y <? Qnum y * QDen x)%Z.

(** [a / b] on floats. *)
Definition div (a b : Q) : result Q :=
  if Qeq_bool b 0 then Raise ZeroDivisionError else Ok (a / b).

(** [math.sqrt(x)].  A square root is not a rational in general: the value
    is kept as its radicand.  [Sqrt q] is zero exactly when [q] is. *)
Inductive root : Type := Sqrt (radicand : Q).

Definition sqrt (x : Q) : result root :=
  if Qltb x 0 then Raise ValueError else Ok (Sqrt x).

Definition root_is_zero (r : root) : bool :=
  match r with Sqrt q => Qeq_bool q 0 end.

(** A loop [for x in xs: acc = body(acc, x)] whose body may raise. *)
Fixpoint foldM {A B : Type} (body : B -> A -> result B) (xs : list A) (acc : B)
  : result B :=
  match xs with
  | [] => Ok acc
  | x :: xs' => bind (body acc x) (fun acc' => foldM body xs' acc')
  end.

(** [[f(x) for x in xs]] with the first exception propagated. *)
Fixpoint mapM {A B : Type} (f : A -> result B) (xs : list A) : result (list B) :=
  match xs with
  | [] => Ok []
  | x :: xs' =>
      bind (f x) (fun y => bind (mapM f xs') (fun ys => Ok (y :: ys)))
  end.

End Py.

Import Py.

Declare Scope py_scope.
Delimit Scope py_scope with py.
Notation "x <- c ;; k" := (bind c (fun x => k))
  (at level 61, c at next level, right associativity) : py_scope.
Notation "' p <- c ;; k" := (bind c (fun x => match x with p => k end))
  (at level 61, p pattern, c at next level, right associativity) : py_scope.
Open Scope py_scope.

(* ################################################################# *)
(** * [timeSeriesAnalysis]: offsets and the row loop of [run] *)

Module TimeSeries.

(** A column name.  [Col t n] is the string ["%s_%i" % (t, n)]. *)
Inductive header : Type :=
| Named (s : string)
| Col (analysis_type : string) (n : Z).

Definition header_eqb (h1 h2 : header) : bool :=
  match h1, h2 with
  | Named a, Named b => String.eqb a b
  | Col a n, Col b m => String.eqb a b && (n =? m)%Z
  | _, _ => false
  end.

(** A dataset: [{header : [entries]}], kept as an association list. *)
Definition dataset : Type := list (header * list pyval).

Fixpoint dict_set (d : dataset) (h : header) (v : list pyval) : dataset :=
  match d with
  | [] => [(h, v)]
  | (h', v') :: d' =>
      if header_eqb h' h then (h', v) :: d' else (h', v') :: dict_set d' h v
  end.

Fixpoint dict_get (d : dataset) (h : header) : option (list pyval) :=
  match d with
  | [] => None
  | (h', v') :: d' => if header_eqb h' h then Some v' else dict_get d' h
  end.

(** Which definition of [__initialAnalysisPeriod__] the method resolution
    order of a class selects. *)
Inductive offset_rule : Type :=
| base_rule          (* timeSeriesAnalysis.__initialAnalysisPeriod__ *)
| exponential_rule   (* exponentialWeighting: return 5 *)
| zero_rule.         (* Hold, returnsAnalysis: return 0 *)

(** An analysis object, as far as offsets are concerned: its rule, its
    [lookback_days] and its [preliminary_analyses] ([None] or a dict). *)
Inductive analysis : Type :=
| Analysis (rule : offset_rule)
           (lookback_days : list Z)
           (preliminary_analyses : option (list (string * analysis))).

Definition rule_of (a : analysis) : offset_rule :=
  match a with Analysis r _ _ => r end.
Definition lookback_days (a : analysis) : list Z :=
  match a with Analysis _ l _ => l end.
Definition preliminary_analyses (a : analysis) : option (list (string * analysis)) :=
  match a with Analysis _ _ p => p end.

(** The closing loop of [__initialAnalysisPeriod__]:
    [max = 0; for i in lookback: if max<i: max = i]. *)
Definition list_max0 (lookback : list Z) : Z :=
  fold_left (fun mx i => if (mx <? i)%Z then i else mx) lookback 0%Z.

(** [timeSeriesAnalysis.__initialAnalysisPeriod__(self, i)] together with
    its two overriding definitions. *)
Fixpoint initialAnalysisPeriod (a : analysis) (i : Z) {struct a} : result Z :=
  match a with
  | Analysis exponential_rule _ _ => Ok 5%Z
  | Analysis zero_rule _ _ => Ok 0%Z
  | Analysis base_rule lookback None => index lookback i
  | Analysis base_rule _ (Some prelims) =>
      lookback <-
        (fix values (ps : list (string * analysis)) : result (list Z) :=
           match ps with
           | [] => Ok []
           | (_, p) :: ps' =>
               here <- mapM (fun j => initialAnalysisPeriod p j)
                            (xrange 0 (len (lookback_days p))) ;;
               rest <- values ps' ;;
               Ok (here ++ rest)
           end) prelims ;;
      Ok (list_max0 lookback)
  end.

(** The list [lookback] that method builds from the preliminary analyses:
    the offsets of every preliminary analysis at every one of its slots. *)
Definition slot_offsets (p : analysis) : result (list Z) :=
  mapM (fun j => initialAnalysisPeriod p j) (xrange 0 (len (lookback_days p))).

Fixpoint prelim_offsets (ps : list (string * analysis)) : result (list Z) :=
  match ps with
  | [] => Ok []
  | (_, p) :: ps' =>
      here <- slot_offsets p ;;
      rest <- prelim_offsets ps' ;;
      Ok (here ++ rest)
  end.

(** The cells [run] puts in front of the computed rows. *)
Definition markers (off : Z) : list pyval :=
  map (fun _ => not_available) (xrange 0 off).

(** The lookback check of [timeSeriesAnalysis.__init__]:
    [for i in lookback_days: if i<1: print "..."; break].  The lines it
    prints. *)
Definition lookback_message : string :=
  "Number of lookback days must be greater than zero.".

Fixpoint check_lookback (lookback : list Z) : list string :=
  match lookback with
  | [] => []
  | i :: rest => if (i <? 1)%Z then [lookback_message] else check_lookback rest
  end.

Section Run.

(** The recurrence state of the object and the methods [run] calls. *)
Variable St : Type.
Variable initial_period : Z -> result Z.
Variable calculation : Z -> Z -> St -> result (pyval * St).
Variable headers : list header.

(** [for row in xrange(...): results.append(self.__calculation__(input, i, row))] *)
Fixpoint calc_rows (i : Z) (rows : list Z) (st : St) : result (list pyval * St) :=
  match rows with
  | [] => Ok ([], st)
  | row :: rows' =>
      '(v, st1) <- calculation i row st ;;
      '(vs, st2) <- calc_rows i rows' st1 ;;
      Ok (v :: vs, st2)
  end.

(** The column [col] of multi-value results. *)
Definition column (results : list pyval) (col : Z) : result (list pyval) :=
  mapM (fun r => match r with
                 | PyList l => index l col
                 | _ => Raise TypeError
                 end) results.

Fixpoint expand (start results : list pyval) (cols : list Z) (output : dataset)
  : result dataset :=
  match cols with
  | [] => Ok output
  | col :: cols' =>
      this_result <- column results col ;;
      h <- index headers (col + 1) ;;
      expand start results cols' (dict_set output h (start ++ this_result))
  end.

(** One pass of the loop over [i] in [run]. *)
Definition run_iteration (n_rows : Z) (i : Z) (acc : dataset * St)
  : result (dataset * St) :=
  let '(output, st) := acc in
  off <- initial_period i ;;
  let start := map (fun _ => not_available) (xrange 0 off) in
  '(results, st') <- calc_rows i (xrange off n_rows) st ;;
  r0 <- index results 0 ;;
  match r0 with
  | PyList l0 =>
      output' <- expand start results (xrange 0 (len l0)) output ;;
      Ok (output', st')
  | _ =>
      h <- index headers (i + 1) ;;
      Ok (dict_set output h (start ++ results), st')
  end.

Fixpoint run_iterations (n_rows : Z) (slots : list Z) (acc : dataset * St)
  : result (dataset * St) :=
  match slots with
  | [] => Ok acc
  | i :: slots' =>
      acc' <- run_iteration n_rows i acc ;;
      run_iterations n_rows slots' acc'
  end.

(** [run], after the preliminary analyses have been run and the input has
    been pruned: [dates] is the pruned [Date] column. *)
Definition run (dates : list pyval) (iterations : Z) (st : St) : result dataset :=
  h0 <- index headers 0 ;;
  '(output, _) <- run_iterations (len dates) (xrange 0 iterations) ([(h0, dates)], st) ;;
  Ok output.

End Run.

End TimeSeries.

(* ################################################################# *)
(** * [tradingSystem]: the position / equity / debt state machine *)

Module Strategy.

Import TimeSeries.

(** The attributes [__calculation__] mutates: [self.equity], [self.debt],
    [self.__position__] and [self.__stop__]. *)
Record state : Type := State {
  equity : Q;
  debt : Q;
  position : Z;
  stop : Q
}.

(** A trading system: [self.init_equity] and the six methods a variant
    overrides.  Each reads the object (for instance [self.__stop__]) and the
    row; the input data is closed over.  A method may raise. *)
Record tradingSystem : Type := TradingSystem {
  init_equity : Q;
  goLong : state -> Z -> result bool;
  goShort : state -> Z -> result bool;
  setLongStop : state -> Z -> result Q;
  setShortStop : state -> Z -> result Q;
  exitLong : state -> Z -> result bool;
  exitShort : state -> Z -> result bool
}.

(** [tradingSystem.__init__]. *)
Definition init_state (sys : tradingSystem) : state :=
  {| equity := init_equity sys; debt := 0; position := 0; stop := 0 |}.

(** The base class: every test is [False], every stop is [0.0]. *)
Definition base (eq0 : Q) : tradingSystem :=
  {| init_equity := eq0;
     goLong := fun _ _ => Ok false;
     goShort := fun _ _ => Ok false;
     setLongStop := fun _ _ => Ok 0;
     setShortStop := fun _ _ => Ok 0;
     exitLong := fun _ _ => Ok false;
     exitShort := fun _ _ => Ok false |}.

(** [Hold]: [__goLong__] returns [True]; everything else is inherited. *)
Definition Hold (eq0 : Q) : tradingSystem :=
  {| init_equity := eq0;
     goLong := fun _ _ => Ok true;
     goShort := fun _ _ => Ok false;
     setLongStop := fun _ _ => Ok 0;
     setShortStop := fun _ _ => Ok 0;
     exitLong := fun _ _ => Ok false;
     exitShort := fun _ _ => Ok false |}.

(** [Hold.__initialAnalysisPeriod__]. *)
Definition Hold_initial_period (i : Z) : result Z := Ok 0%Z.

Definition headers : list header :=
  [Named "Date"; Named "Position"; Named "Equity"; Named "Debt"].

Section Calculation.

Variable sys : tradingSystem.
(** [data[self.input_data.name]["Close"]] *)
Variable Close : list Q.

(** # update fund value (the float operations without rounding;
    [Rounded.update_fund] below has them rounded) *)
Definition update_fund (row : Z) (s : state) : result state :=
  close <- index Close row ;;
  previous_close <- index Close (row - 1) ;;
  this_return <- div (inject_Z (position s) * (close - previous_close)) previous_close ;;
  Ok {| equity := equity s * (1 + this_return);
        debt := debt s; position := position s; stop := stop s |}.

(** # update debt value *)
Definition update_debt (s : state) : state :=
  if Qltb (equity s) 0
  then {| equity := init_equity sys;
          debt := (debt s + (-1 * equity s)) + init_equity sys;
          position := position s; stop := stop s |}
  else s.

Definition set_position (s : state) (p : Z) : state :=
  {| equity := equity s; debt := debt s; position := p; stop := stop s |}.

Definition set_stop (s : state) (x : Q) : state :=
  {| equity := equity s; debt := debt s; position := position s; stop := x |}.

(** # exit positions *)
Definition exit_positions (row : Z) (s : state) : result state :=
  if (position s =? 1)%Z then
    out <- exitLong sys s row ;;
    Ok (if out : bool then set_position s 0 else s)
  else if (position s =? -1)%Z then
    out <- exitShort sys s row ;;
    Ok (if out : bool then set_position s 0 else s)
  else Ok s.

(** # enter positions *)
Definition enter_positions (row : Z) (s : state) : result state :=
  if (position s =? 0)%Z then
    long <- goLong sys s row ;;
    if long : bool then
      let s1 := set_position s 1 in
      x <- setLongStop sys s1 row ;;
      Ok (set_stop s1 x)
    else
      short <- goShort sys s row ;;
      if short : bool then
        let s1 := set_position s (-1) in
        x <- setShortStop sys s1 row ;;
        Ok (set_stop s1 x)
      else Ok s
  else Ok s.

(** The returned row [[self.__position__, self.equity, self.debt]]. *)
Definition output_row (s : state) : pyval :=
  PyList [PyInt (position s); PyFloat (equity s); PyFloat (debt s)].

(** [tradingSystem.__calculation__(self, data, i, row)]. *)
Definition calculation (i row : Z) (s : state) : result (pyval * state) :=
  s1 <- update_fund row s ;;
  s3 <- exit_positions row (update_debt s1) ;;
  s4 <- enter_positions row s3 ;;
  Ok (output_row s4, s4).

(** The rows [run] collects for this system, starting from a fresh object. *)
Definition results (offset : Z) : result (list pyval * state) :=
  calc_rows calculation 0 (xrange offset (len Close)) (init_state sys).

End Calculation.

(** [Hold(...).run()] on a price history with the given [Date] and [Close]
    columns (the default [lookback_days] has one entry: one iteration). *)
Definition Hold_run (eq0 : Q) (dates : list pyval) (Close : list Q) : result dataset :=
  run Hold_initial_period (calculation (Hold eq0) Close) headers dates 1
      (init_state (Hold eq0)).

(** The three positions: short, flat, long. *)
Definition valid_position (p : Z) : Prop := p = (-1)%Z \/ p = 0%Z \/ p = 1%Z.

(** An output row with a valid position. *)
Definition valid_row (out : pyval) : Prop :=
  exists p e d, out = PyList [PyInt p; PyFloat e; PyFloat d] /\ valid_position p.

(** The [Equity] and [Debt] entries of the collected rows. *)
Definition equity_of (out : pyval) : option Q :=
  match out with
  | PyList [_; PyFloat e; _] => Some e
  | _ => None
  end.

Definition debt_of (out : pyval) : option Q :=
  match out with
  | PyList [_; _; PyFloat d] => Some d
  | _ => None
  end.

(** [debts_from d0 outs]: every row of [outs] carries a debt, and the debts
    never decrease from row to row, starting from [d0]. *)
Fixpoint debts_from (d0 : Q) (outs : list pyval) : Prop :=
  match outs with
  | [] => True
  | out :: outs' =>
      exists d, debt_of out = Some d /\ d0 <= d /\ debts_from d outs'
  end.

(** A column of floats equal, entry by entry, to the expected values. *)
Definition floats_eq (col : list pyval) (expected : list Q) : Prop :=
  Forall2 (fun v q => exists q', v = PyFloat q' /\ q' == q) col expected.

(** Reading a float column back. *)
Definition floats (col : list pyval) : list Q :=
  flat_map (fun v => match v with PyFloat q => [Qred q] | _ => [] end) col.

(** The synthetic series [100, 101, ..., 119]. *)
Definition ramp : list Q := map inject_Z (xrange 100 120).
Definition ramp_dates : list pyval := map PyInt (xrange 0 20).

End Strategy.

(* ################################################################# *)
(** * [tradingSystem.__calculation__] with rounded float operations *)

(** The fund and debt updates once more, with the result of every float
    operation passed through a rounding function [fl] (for binary64: the
    nearest representable number).  With [fl] the identity this is
    [Strategy.calculation]. *)
Module Rounded.

Import TimeSeries Strategy.

Section Calculation.

(** The rounding of the exact result of one float operation. *)
Variable fl : Q -> Q.

Variable sys : tradingSystem.
Variable Close : list Q.

(** # update fund value:
    [this_return = self.__position__*( close - previous_close )/previous_close]
    and [self.equity *= ( 1 + this_return )]. *)
Definition update_fund (row : Z) (s : state) : result state :=
  close <- index Close row ;;
  previous_close <- index Close (row - 1) ;;
  this_return <- div (fl (inject_Z (position s) * fl (close - previous_close)))
                     previous_close ;;
  Ok {| equity := fl (equity s * fl (1 + fl this_return));
        debt := debt s; position := position s; stop := stop s |}.

(** # update debt value:
    [self.debt += (-1.0*self.equity)], [self.debt += self.init_equity],
    [self.equity = self.init_equity]. *)
Definition update_debt (s : state) : state :=
  if Qltb (equity s) 0
  then {| equity := init_equity sys;
          debt := fl (fl (debt s + fl (-1 * equity s)) + init_equity sys);
          position := position s; stop := stop s |}
  else s.

(** [tradingSystem.__calculation__(self, data, i, row)]. *)
Definition calculation (i row : Z) (s : state) : result (pyval * state) :=
  s1 <- update_fund row s ;;
  s3 <- exit_positions sys row (update_debt s1) ;;
  s4 <- enter_positions sys row s3 ;;
  Ok (output_row s4, s4).

(** The rows [run] collects for this system, starting from a fresh object. *)
Definition results (offset : Z) : result (list pyval * state) :=
  calc_rows calculation 0 (xrange offset (len Close)) (init_state sys).

End Calculation.

End Rounded.

(* ################################################################# *)
(** * [MA], [MMAX] and [MMIN] *)

Module Price.

Import TimeSeries.

(** ** [MA]: the N-day moving average of the closing price *)
Module MA.

(** [self.__lookback_values__] and [self.__sum__]. *)
Record state : Type := State {
  lookback_values : list Q;
  sum : Q
}.

(** [MA.__init__]: [self.__lookback_values__ = []; self.__sum__ = -999.0]. *)
Definition init_state : state := {| lookback_values := []; sum := -999 |}.

Section Methods.

Variable Close : list Q.
Variable lookback_days : list Z.

(** [MA] has no preliminary analyses. *)
Definition initial_period (i : Z) : result Z :=
  initialAnalysisPeriod (Analysis base_rule lookback_days None) i.

(** [__variable__(self, data, row, i)].  The parameter [i] has no
    default: a call that leaves it out ([None] here) is a [TypeError]. *)
Definition variable (row : Z) (i : option Z) : result Q :=
  match i with
  | None => Raise TypeError
  | Some _ => index Close row
  end.

(** [__dof__(self, i)]. *)
Definition dof (i : Z) : result Q :=
  p <- initial_period i ;;
  Ok (1 * inject_Z p).

(** The loop of the first step. *)
Fixpoint first_step (rows : list Z) (i : Z) (st : state) : result state :=
  match rows with
  | [] => Ok st
  | r :: rows' =>
      x <- variable r (Some i) ;;
      first_step rows' i {| lookback_values := lookback_values st ++ [x];
                            sum := sum st + x |}
  end.

(** [MA.__calculation__(self, data, i, row)]. *)
Definition calculation (i row : Z) (st : state) : result (pyval * state) :=
  p <- initial_period i ;;
  st' <- (if (row =? p)%Z
          then first_step (xrange 0 row) i st
          else
            x <- variable (row - 1) None ;;
            let sum1 := sum st + x in
            oldest <- index (lookback_values st) 0 ;;
            let sum2 := sum1 - oldest in
            Ok {| lookback_values := tl (lookback_values st) ++ [x];
                  sum := sum2 |}) ;;
  d <- dof i ;;
  q <- div (sum st') d ;;
  Ok (PyFloat q, st').

Definition headers : list header :=
  Named "Date" :: map (Col "MA") lookback_days.

(** [MA(...).run()] on a fresh object. *)
Definition run (dates : list pyval) : result dataset :=
  TimeSeries.run initial_period calculation headers dates
                 (len lookback_days) init_state.

End Methods.

(** What the indicator is meant to return: the mean of the [N] closes
    before [row]. *)
Definition window_mean (Close : list Q) (N row : Z) : Q :=
  fold_left Qplus (firstn (Z.to_nat N) (skipn (Z.to_nat (row - N)) Close)) 0
  / inject_Z N.

End MA.

(** ** [MMAX] / [MMIN]: the N-day moving extreme *)
Module MMAX.

(** [self.__lookback_values__] and [self.__extreme__]. *)
Record state : Type := State {
  lookback_values : list Q;
  extreme : Q
}.

(** [MMAX.__init__]. *)
Definition init_state : state := {| lookback_values := []; extreme := -999 |}.

(** [MMAX.__test__(self, value, extreme)]: [extreme < value]. *)
Definition test_max (value extreme : Q) : bool := Qltb extreme value.

(** [MMIN.__test__(self, value, extreme)]: [extreme > value]. *)
Definition test_min (value extreme : Q) : bool := Qltb value extreme.

Section Methods.

(** [__test__] and the column [__variable__] reads: [High] for [MMAX],
    [Low] for [MMIN]. *)
Variable test : Q -> Q -> bool.
Variable column : list Q.
Variable analysis_type : string.
Variable lookback_days : list Z.

Definition initial_period (i : Z) : result Z :=
  initialAnalysisPeriod (Analysis base_rule lookback_days None) i.

Definition variable (row : Z) (i : Z) : result Q := index column row.

(** [for r in xrange(1, row): ...] of the first step. *)
Fixpoint first_step (rows : list Z) (i : Z) (st : state) : result state :=
  match rows with
  | [] => Ok st
  | r :: rows' =>
      x <- variable r i ;;
      first_step rows' i
        {| lookback_values := lookback_values st ++ [x];
           extreme := if test x (extreme st) then x else extreme st |}
  end.

(** [for i in self.__lookback_values__: if self.__test__(i, extreme): extreme = i] *)
Definition rescan (values : list Q) (e0 : Q) : Q :=
  fold_left (fun e v => if test v e then v else e) values e0.

(** [MMAX.__calculation__(self, data, i, row)]. *)
Definition calculation (i row : Z) (st : state) : result (pyval * state) :=
  p <- initial_period i ;;
  st' <- (if (row =? p)%Z
          then
            x <- variable 0 i ;;
            first_step (xrange 1 row) i
              {| lookback_values := lookback_values st ++ [x]; extreme := x |}
          else
            x <- variable (row - 1) i ;;
            let values := lookback_values st ++ [x] in
            oldest <- index values 0 ;;
            if Qeq_bool oldest (extreme st)
            then
              let values' := tl values in
              e0 <- index values' 0 ;;
              Ok {| lookback_values := values'; extreme := rescan values' e0 |}
            else
              Ok {| lookback_values := tl values;
                    extreme := if test x (extreme st) then x else extreme st |}) ;;
  Ok (PyFloat (extreme st'), st').

Definition headers : list header :=
  Named "Date" :: map (Col analysis_type) lookback_days.

(** [run()] on a fresh object. *)
Definition run (dates : list pyval) : result dataset :=
  TimeSeries.run initial_period calculation headers dates
                 (len lookback_days) init_state.

End Methods.

Definition MMAX_run (High : list Q) := run test_max High "MMAX".
Definition MMIN_run (Low : list Q) := run test_min Low "MMIN".

(** The brute-force scan: the [N] rows before [row]. *)
Definition window (column : list Q) (N row : Z) : list Q :=
  firstn (Z.to_nat N) (skipn (Z.to_nat (row - N)) column).

(** [m] is an extreme element of [w] for the order [le]: it occurs in [w]
    and every element of [w] is below it. *)
Definition is_extreme (le : Q -> Q -> Prop) (m : Q) (w : list Q) : Prop :=
  (exists x, In x w /\ x == m) /\ forall x, In x w -> le x m.

(** [m] is the greatest (least) element of [w]. *)
Definition is_max (m : Q) (w : list Q) : Prop :=
  is_extreme (fun x m => x <= m) m w.
Definition is_min (m : Q) (w : list Q) : Prop :=
  is_extreme (fun x m => m <= x) m w.

End MMAX.

End Price.

(* ################################################################# *)
(** * [strategyAnalysis]: row lookup and the Sortino ratio *)

Module Analysis.

(** ** [__rowAtDate__] *)
Section RowAtDate.

(** [input["Date"]], dates as day ordinals. *)
Variable Date : list Z.

(** One pass through the body of [while True]: either [return middle]
    ([inl]) or the next [(lower, upper)] ([inr]). *)
Definition search_step (test_date lower upper : Z) : result (Z + Z * Z) :=
  let middle := ((lower + upper) / 2)%Z in
  before <- index Date (middle - 1) ;;
  found <- (if (before <? test_date)%Z
            then here <- index Date middle ;; Ok (here >=? test_date)%Z
            else Ok false) ;;
  if found : bool then Ok (inl middle)
  else
    here <- index Date middle ;;
    if (here <? test_date)%Z
    then Ok (inr (middle, upper))
    else Ok (inr (lower, middle)).

(** [while True: ...], cut after [fuel] passes: [None] means that the loop
    has not returned within [fuel] passes. *)
Fixpoint search (fuel : nat) (test_date lower upper : Z) : option (result Z) :=
  match fuel with
  | O => None
  | S fuel' =>
      match search_step test_date lower upper with
      | Raise e => Some (Raise e)
      | Ok (inl middle) => Some (Ok middle)
      | Ok (inr (lower', upper')) => search fuel' test_date lower' upper'
      end
  end.

(** [__rowAtDate__(self, analysis, input, test_date)]; [initial_period] is
    [analysis.__initialAnalysisPeriod__()]. *)
Definition rowAtDate (fuel : nat) (initial_period : Z) (test_date : Z)
  : option (result Z) :=
  let lower := initial_period in
  let upper := (len Date - 1)%Z in
  match index Date lower with
  | Raise e => Some (Raise e)
  | Ok first =>
      if (first >=? test_date)%Z then Some (Ok lower)
      else
        match index Date upper with
        | Raise e => Some (Raise e)
        | Ok last =>
            if (last <=? test_date)%Z then Some (Ok upper)
            else search fuel test_date lower upper
        end
  end.

End RowAtDate.

(** The row the lookup is meant to return between the boundaries: the first
    row at or after [lower] whose date is on or after [test_date]. *)
Fixpoint first_on_or_after (Date : list Z) (test_date : Z) (row : Z) : option Z :=
  match Date with
  | [] => None
  | d :: rest =>
      if (d >=? test_date)%Z then Some row
      else first_on_or_after rest test_date (row + 1)
  end.

(** Strictly ascending dates. *)
Fixpoint ascending (Date : list Z) : Prop :=
  match Date with
  | [] => True
  | d :: rest =>
      match rest with
      | [] => True
      | d' :: _ => (d < d')%Z /\ ascending rest
      end
  end.

(** ** [__meanSdevReturns__], [__downsideSdevReturns__], [__SortinoRatio__] *)

Inductive flavour : Type := Plain | RFR | Benchmark.

(** What a ratio method returns: the string ["NaN"] or [mean/sdev]. *)
Inductive ratio : Type :=
| NaN
| Quotient (mean : Q) (sdev : root).

Section Returns.

(** [__monthly_risk_free_rate__]. *)
Variable monthly_risk_free_rate : Q.
(** [input[key]["Return"]] for each dataset name [key]. *)
Variable input : string -> list Q.

Definition returns_key (log : bool) : string :=
  if log then "log Returns"%string else "Returns"%string.

(** The value [x] both loops of [__meanSdevReturns__] compute for a row. *)
Definition flavoured (key : string) (fl : flavour) (row : Z) : result Q :=
  x <- index (input key) row ;;
  match fl with
  | Benchmark =>
      b <- index (input ("Benchmark " ++ key)) row ;;
      Ok (x - b)
  | RFR => Ok (x - monthly_risk_free_rate)
  | Plain => Ok x
  end.

(** [__meanSdevReturns__(self, input, row_limits, log, flavour)]. *)
Definition meanSdevReturns (row_limits : Z * Z) (log : bool) (fl : flavour)
  : result (Q * root) :=
  let row_range := xrange (fst row_limits) (snd row_limits) in
  let key := returns_key log in
  '(sum_x, n) <- foldM (fun '(sum_x, n) row =>
                          x <- flavoured key fl row ;;
                          Ok (sum_x + x, (n + 1)%Z))
                       row_range (0, 0%Z) ;;
  mean_x <- div sum_x (1 * inject_Z n) ;;
  rsq_x <- foldM (fun rsq_x row =>
                    x <- flavoured key fl row ;;
                    Ok (rsq_x + (x - mean_x) * (x - mean_x)))
                 row_range 0 ;;
  var_x <- div rsq_x (inject_Z n - 1) ;;
  sdev <- sqrt (12 * var_x) ;;
  Ok (12 * mean_x, sdev).

(** [__downsideSdevReturns__(self, input, row_limits, log)]. *)
Definition downsideSdevReturns (row_limits : Z * Z) (log : bool) : result root :=
  let row_range := xrange (fst row_limits) (snd row_limits) in
  let key := returns_key log in
  '(sum_x, n) <- foldM (fun '(sum_x, n) row =>
                          x <- index (input key) row ;;
                          if Qltb x 0 then Ok (sum_x, n)          (* continue *)
                          else
                            let x := x - monthly_risk_free_rate in
                            Ok (sum_x + x, (n + 1)%Z))
                       row_range (0, 0%Z) ;;
  mean_x <- (if (n <? 1)%Z then Ok 0 else div sum_x (1 * inject_Z n)) ;;
  res_xx <- foldM (fun res_xx row =>
                     x <- index (input key) row ;;
                     if negb (Qltb x 0) then Ok res_xx            (* continue *)
                     else
                       let x := x - monthly_risk_free_rate in
                       Ok (res_xx + (x - mean_x) * (x - mean_x)))
                  row_range 0 ;;
  var_x <- (if (n <? 2)%Z then Ok 0 else div res_xx (inject_Z n - 1)) ;;
  sqrt (12 * var_x).

(** [__SortinoRatio__(self, input, bin_limits, log)]. *)
Definition SortinoRatio (bin_limits : Z * Z) (log : bool) : result ratio :=
  '(mean, _) <- meanSdevReturns bin_limits log Plain ;;
  sdev <- downsideSdevReturns bin_limits log ;;
  if root_is_zero sdev then Ok NaN else Ok (Quotient mean sdev).

(** The ratio as the specification words it: the annualised mean of the
    monthly excess returns over the annualised standard deviation of the
    negative monthly returns. *)
Definition bin_returns (bin_limits : Z * Z) : list Q :=
  firstn (Z.to_nat (snd bin_limits - fst bin_limits))
         (skipn (Z.to_nat (fst bin_limits)) (input "Returns")).

Definition mean_of (xs : list Q) : Q :=
  fold_left Qplus xs 0 / inject_Z (len xs).

Definition sample_variance (xs : list Q) : Q :=
  fold_left (fun acc x => acc + (x - mean_of xs) * (x - mean_of xs)) xs 0
  / (inject_Z (len xs) - 1).

Definition downside (xs : list Q) : list Q := filter (fun x => Qltb x 0) xs.

Definition spec_mean_excess (bin_limits : Z * Z) : Q :=
  12 * mean_of (map (fun x => x - monthly_risk_free_rate) (bin_returns bin_limits)).

Definition spec_downside_variance (bin_limits : Z * Z) : Q :=
  12 * sample_variance (downside (bin_returns bin_limits)).

End Returns.

(** An [input] whose dataset ["Returns"] has the given [Return] column. *)
Definition monthly (returns : list Q) (key : string) : list Q :=
  if String.eqb key "Returns" then returns else [].

End Analysis.

(* ################################################################# *)
(** * The class instances the source builds *)

Module Instances.

Import TimeSeries.

(** [__setPreliminaryAnalyses__] of the indicator classes of [price.py]. *)
Definition MA (lookback : list Z) : analysis :=
  Analysis base_rule lookback None.
Definition MADAY (lookback : list Z) : analysis :=
  Analysis base_rule lookback None.
Definition VAR (lookback : list Z) : analysis :=
  Analysis base_rule lookback (Some [("ma"%string, MA lookback)]).
Definition COV (lookback : list Z) : analysis :=
  Analysis base_rule lookback
           (Some [("ma"%string, MA lookback); ("maday"%string, MADAY lookback)]).
Definition GRAD (lookback : list Z) : analysis :=
  Analysis base_rule lookback
           (Some [("var"%string, VAR lookback); ("cov"%string, COV lookback)]).
Definition EWMA (lookback : list Z) : analysis :=
  Analysis exponential_rule lookback None.
Definition EWMADAY (lookback : list Z) : analysis :=
  Analysis exponential_rule lookback None.
Definition EWVAR (lookback : list Z) : analysis :=
  Analysis exponential_rule lookback (Some [("ma"%string, EWMA lookback)]).
Definition EWCOV (lookback : list Z) : analysis :=
  Analysis exponential_rule lookback
           (Some [("ma"%string, EWMA lookback); ("maday"%string, EWMADAY lookback)]).
Definition EWGRAD (lookback : list Z) : analysis :=
  Analysis base_rule lookback
           (Some [("var"%string, EWVAR lookback); ("cov"%string, EWCOV lookback)]).

(** [DualMA]: a trading system keeps the default [lookback_days = [10]]. *)
Definition DualMA (ma_lookback : list Z) : analysis :=
  Analysis base_rule [10%Z] (Some [("ma"%string, EWMA ma_lookback)]).

(** The other classes of [price.py]: [ATR], [N], [MMAX], [MMIN] and
    [EWATR] keep the base class's [__setPreliminaryAnalyses__]. *)
Definition ATR (lookback : list Z) : analysis :=
  Analysis base_rule lookback None.
Definition N (lookback : list Z) : analysis :=
  Analysis base_rule lookback None.
Definition MMAX (lookback : list Z) : analysis :=
  Analysis base_rule lookback None.
Definition MMIN (lookback : list Z) : analysis :=
  Analysis base_rule lookback None.
Definition EWATR (lookback : list Z) : analysis :=
  Analysis exponential_rule lookback None.
Definition GRADERR (lookback : list Z) : analysis :=
  Analysis base_rule lookback
           (Some [("grad"%string, GRAD lookback); ("var"%string, VAR lookback)]).
Definition EWGRADERR (lookback : list Z) : analysis :=
  Analysis base_rule lookback
           (Some [("grad"%string, EWGRAD lookback); ("var"%string, EWVAR lookback)]).

(** The analyses an analysis runs first, directly or through another
    preliminary analysis. *)
Fixpoint transitive_preliminaries (a : analysis) : list analysis :=
  match a with
  | Analysis _ _ None => []
  | Analysis _ _ (Some prelims) =>
      (fix below (ps : list (string * analysis)) : list analysis :=
         match ps with
         | [] => []
         | (_, p) :: ps' => (p :: transitive_preliminaries p) ++ below ps'
         end) prelims
  end.

(** Every class of the tree takes [exponentialWeighting]'s method. *)
Fixpoint exponentially_weighted (a : analysis) : bool :=
  match a with
  | Analysis exponential_rule _ None => true
  | Analysis exponential_rule _ (Some prelims) =>
      (fix all (ps : list (string * analysis)) : bool :=
         match ps with
         | [] => true
         | (_, p) :: ps' => exponentially_weighted p && all ps'
         end) prelims
  | Analysis _ _ _ => false
  end.

(** The shape of the trees the classes of the repository build: every
    analysis has a lookback slot, the preliminary analyses of an
    exponentially weighted class are exponentially weighted, and the
    classes that return 0 ([Hold], [returnsAnalysis]) have none. *)
Fixpoint as_declared (a : analysis) : bool :=
  match a with
  | Analysis rule lookback prelims =>
      (0 <? len lookback)%Z
      && match prelims with
         | None => true
         | Some prelims =>
             match rule with
             | zero_rule => false
             | base_rule | exponential_rule =>
                 (fix all (ps : list (string * analysis)) : bool :=
                    match ps with
                    | [] => true
                    | (_, p) :: ps' =>
                        (match rule with
                         | exponential_rule => exponentially_weighted p
                         | _ => true
                         end)
                        && as_declared p && all ps'
                    end) prelims
             end
         end
  end.

(** The indicator classes of [price.py]. *)
Inductive indicator : Type :=
| class_MA | class_VAR | class_MADAY | class_COV | class_ATR | class_N
| class_MMAX | class_MMIN | class_GRAD | class_GRADERR
| class_EWMA | class_EWVAR | class_EWMADAY | class_EWCOV | class_EWATR
| class_EWGRAD | class_EWGRADERR.

(** The object a class builds over [lookback]. *)
Definition analysis_of (c : indicator) (lookback : list Z) : analysis :=
  match c with
  | class_MA => MA lookback
  | class_VAR => VAR lookback
  | class_MADAY => MADAY lookback
  | class_COV => COV lookback
  | class_ATR => ATR lookback
  | class_N => N lookback
  | class_MMAX => MMAX lookback
  | class_MMIN => MMIN lookback
  | class_GRAD => GRAD lookback
  | class_GRADERR => GRADERR lookback
  | class_EWMA => EWMA lookback
  | class_EWVAR => EWVAR lookback
  | class_EWMADAY => EWMADAY lookback
  | class_EWCOV => EWCOV lookback
  | class_EWATR => EWATR lookback
  | class_EWGRAD => EWGRAD lookback
  | class_EWGRADERR => EWGRADERR lookback
  end.

(** [DualMA] of [portfolio/strategy.py], reading the two [EWMA] columns. *)
Section DualMA.

Variable eq0 : Q.
Variable Close ma_newer ma_older : list Q.

Definition DualMA_goLong (s : Strategy.state) (row : Z) : result bool :=
  newer <- index ma_newer row ;;
  older <- index ma_older row ;;
  close <- index Close row ;;
  Ok (Qltb older newer).

Definition DualMA_goShort (s : Strategy.state) (row : Z) : result bool :=
  newer <- index ma_newer row ;;
  older <- index ma_older row ;;
  close <- index Close row ;;
  Ok (Qltb newer older).

Definition DualMA_system : Strategy.tradingSystem :=
  {| Strategy.init_equity := eq0;
     Strategy.goLong := DualMA_goLong;
     Strategy.goShort := DualMA_goShort;
     Strategy.setLongStop := fun _ _ => Ok 0;
     Strategy.setShortStop := fun _ _ => Ok 0;
     Strategy.exitLong := DualMA_goShort;
     Strategy.exitShort := DualMA_goLong |}.

End DualMA.

End Instances.

(* ################################################################# *)
(** * More of [price.py]: exponential weighting, true range, day variance *)

Module Exponential.

Import TimeSeries.

(** [self.__ewma__], "the iterator". *)
Record state : Type := State { ewma : Q }.

(** [exponentialWeighting.__init__]: [self.__ewma__ = 0.0]. *)
Definition init_state : state := {| ewma := 0 |}.

(** [__calcAlpha__(self, lookback_days)]: [2.0 / (i + 1.0)] for each window. *)
Definition calcAlpha (lookback_days : list Z) : result (list Q) :=
  mapM (fun i => div 2 (inject_Z i + 1)) lookback_days.

(** [exponentialWeighting.__initialAnalysisPeriod__]: [return 5]. *)
Definition initial_period (i : Z) : result Z := Ok 5%Z.

Section Methods.

(** The rounding of the exact result of one float operation. *)
Variable fl : Q -> Q.

(** [EWMA]: [__variable__] and [__dof__] are those of [MA]; [self.alpha]
    is the list [__calcAlpha__] returned. *)
Variable Close : list Q.
Variable alpha : list Q.

(** [1.0*self.__initialAnalysisPeriod__(i)]: the product of 1.0 and a
    small integer, exact in floating point. *)
Definition dof (i : Z) : result Q :=
  p <- initial_period i ;;
  Ok (1 * inject_Z p).

(** [exponentialWeighting.__calculation__(self, data, i, row)]:
    [sum += self.__variable__(data, r, i)] and [sum / self.__dof__(i)] on
    the first row, then
    [self.alpha[i]*x + (1.0-self.alpha[i])*self.__ewma__]. *)
Definition calculation (i row : Z) (st : state) : result (pyval * state) :=
  p <- initial_period i ;;
  e <- (if (row =? p)%Z
        then
          sum <- foldM (fun sum r =>
                          x <- Price.MA.variable Close r (Some i) ;;
                          Ok (fl (sum + x)))
                       (xrange 0 row) 0 ;;
          d <- dof i ;;
          mean <- div sum d ;;
          Ok (fl mean)
        else
          x <- Price.MA.variable Close (row - 1) (Some i) ;;
          a <- index alpha i ;;
          Ok (fl (fl (a * x) + fl (fl (1 - a) * ewma st)))) ;;
  Ok (PyFloat e, {| ewma := e |}).

End Methods.

(** [EWMA(...).run()] on a fresh object; each quotient of
    [__calcAlpha__] is rounded. *)
Definition EWMA_run (fl : Q -> Q) (Close : list Q) (lookback_days : list Z)
           (dates : list pyval)
  : result dataset :=
  alpha <- calcAlpha lookback_days ;;
  run initial_period (calculation fl Close (map fl alpha))
      (Named "Date" :: map (Col "EWMA") lookback_days)
      dates (len lookback_days) init_state.

End Exponential.

Module TrueRange.

Import TimeSeries.

Section Data.

Variable High Low Close : list Q.

(** [ATR.__variable__(self, data, row, i)]: the True Range. *)
Definition variable (row i : Z) : result Q :=
  high <- index High row ;;
  low <- index Low row ;;
  let a := high - low in
  if (row =? 0)%Z then Ok a
  else
    previous <- index Close (row - 1) ;;
    high' <- index High row ;;
    let b := Qabs (previous - high') in
    previous' <- index Close (row - 1) ;;
    low' <- index Low row ;;
    let c := Qabs (previous' - low') in
    let true_range := a in
    let true_range := if Qltb true_range b then b else true_range in
    let true_range := if Qltb true_range c then c else true_range in
    Ok true_range.

End Data.

(** [self.__sum__] (set to [-999.0] by [MA.__init__]) and [self.__N__]. *)
Record N_state : Type := NState { N_sum : Q; N_value : Q }.

Definition N_init_state : N_state := {| N_sum := -999; N_value := 0 |}.

Section N.

(** The rounding of the exact result of one float operation. *)
Variable fl : Q -> Q.

(** [self.__variable__]: the True Range, as the object computes it. *)
Variable true_range : Z -> Z -> result Q.

(** [N.__calculation__(self, data, i, row)]:
    [self.__sum__ += self.__variable__(data, r, i)] and
    [self.__sum__ / self.lookback_days[i]] on the first row, then
    [( self.__N__*(self.lookback_days[i]-1) + self.__variable__(data, row-1, i) )
     / self.lookback_days[i]]. *)
Definition N_calculation (lookback_days : list Z) (i row : Z) (st : N_state)
  : result (pyval * N_state) :=
  p <- Price.MA.initial_period lookback_days i ;;
  if (row =? p)%Z
  then
    sum <- foldM (fun sum r => x <- true_range r i ;; Ok (fl (sum + x)))
                 (xrange 0 row) (N_sum st) ;;
    window <- index lookback_days i ;;
    n <- div sum (inject_Z window) ;;
    Ok (PyFloat (fl n), {| N_sum := sum; N_value := fl n |})
  else
    window <- index lookback_days i ;;
    x <- true_range (row - 1) i ;;
    n <- div (fl (fl (N_value st * (inject_Z window - 1)) + x)) (inject_Z window) ;;
    Ok (PyFloat (fl n), {| N_sum := N_sum st; N_value := fl n |}).

End N.

End TrueRange.

Module DayVariance.

(** [GRADERR.__dayVar__(self)]. *)
Definition dayVar (lookback_days : list Z) : result (list Q) :=
  mapM (fun i =>
          let sum_d := fold_left (fun s d => s + inject_Z d) (xrange 0 i) 0 in
          window <- index lookback_days i ;;
          mean_d <- div sum_d (1 * inject_Z window) ;;
          let sum_ressq_d :=
            fold_left (fun s d => s + (inject_Z d - mean_d) * (inject_Z d - mean_d))
                      (xrange 0 window) 0 in
          div sum_ressq_d (inject_Z window - 1))
       (xrange 0 (len lookback_days)).

(** The sample variance of the day numbers [0 .. N-1]. *)
Definition day_number_variance (N : Z) : Q :=
  inject_Z N * (inject_Z N + 1) / 12.

End DayVariance.

(* ################################################################# *)
(** * The constructors of [timeseries.py] and [price.py] *)

Module Construction.

Import TimeSeries.

(** What a constructor writes to the standard output: the message of the
    lookback check, or the closing line [print self.name, "(%s to %s)"]
    with the name of the analysis. *)
Inductive line : Type :=
| Message (text : string)
| Banner (name : string).

(** A computation that prints: the lines printed, in order, and what it
    returned or raised after them. *)
Definition printing (A : Type) : Type := (list line * result A)%type.

Definition ret {A : Type} (x : A) : printing A := ([], Ok x).

Definition print (lines : list line) : printing unit := (lines, Ok tt).

Definition lift {A : Type} (r : result A) : printing A := ([], r).

Definition and_then {A B : Type} (c : printing A) (k : A -> printing B)
  : printing B :=
  match c with
  | (out, Ok x) => let (out', r) := k x in (out ++ out', r)
  | (out, Raise e) => (out, Raise e)
  end.

Notation "x <~ c ;; k" := (and_then c (fun x => k))
  (at level 61, c at next level, right associativity).

Section Constructors.

(** The [lookback_days] argument, handed unchanged to every preliminary
    analysis. *)
Variable lookback_days : list Z.

(** [timeSeriesAnalysis.__init__]: the lookback check, the preliminary
    analyses of the class, the closing line.  [rule] is the
    [__initialAnalysisPeriod__] the class resolves to.  The analysis
    directory, the csv file, the headers and the analysis period, which
    the constructor sets between the check and the preliminary analyses,
    neither print nor read [lookback_days] beyond formatting its entries;
    they are left out. *)
Definition timeSeriesAnalysis_init
           (analysis_type : string) (rule : offset_rule)
           (setPreliminaryAnalyses : printing (option (list (string * analysis))))
  : printing analysis :=
  _ <~ print (map Message (check_lookback lookback_days)) ;;
  preliminary_analyses <~ setPreliminaryAnalyses ;;
  _ <~ print [Banner analysis_type] ;;
  ret (Analysis rule lookback_days preliminary_analyses).

(** [exponentialWeighting.__init__]:
    [self.alpha = self.__calcAlpha__(lookback_days)]. *)
Definition exponentialWeighting_init : printing (list Q) :=
  lift (Exponential.calcAlpha lookback_days).

(** The base class's [__setPreliminaryAnalyses__]: [return None]. *)
Definition no_preliminary_analyses : printing (option (list (string * analysis))) :=
  ret None.

(** [MA], [MADAY], [ATR], [N], [MMAX], [MMIN]: the base constructor, then
    attributes of the recurrence. *)
Definition MA : printing analysis :=
  timeSeriesAnalysis_init "MA" base_rule no_preliminary_analyses.
Definition MADAY : printing analysis :=
  timeSeriesAnalysis_init "MADAY" base_rule no_preliminary_analyses.
Definition ATR : printing analysis :=
  timeSeriesAnalysis_init "ATR" base_rule no_preliminary_analyses.
Definition N : printing analysis :=
  timeSeriesAnalysis_init "N" base_rule no_preliminary_analyses.
Definition MMAX : printing analysis :=
  timeSeriesAnalysis_init "MMAX" base_rule no_preliminary_analyses.
Definition MMIN : printing analysis :=
  timeSeriesAnalysis_init "MMIN" base_rule no_preliminary_analyses.

(** [VAR]: [{ "ma" : MA(...) }]. *)
Definition VAR : printing analysis :=
  timeSeriesAnalysis_init "VAR" base_rule
    (ma <~ MA ;;
     ret (Some [("ma"%string, ma)])).

(** [COV]: [{ "ma" : MA(...), "maday" : MADAY(...) }]. *)
Definition COV : printing analysis :=
  timeSeriesAnalysis_init "COV" base_rule
    (ma <~ MA ;;
     maday <~ MADAY ;;
     ret (Some [("ma"%string, ma); ("maday"%string, maday)])).

(** [GRAD]: [{ "var" : VAR(...), "cov" : COV(...) }]. *)
Definition GRAD : printing analysis :=
  timeSeriesAnalysis_init "GRAD" base_rule
    (var <~ VAR ;;
     cov <~ COV ;;
     ret (Some [("var"%string, var); ("cov"%string, cov)])).

(** [GRADERR]: [{ "grad" : GRAD(...), "var" : VAR(...) }], then
    [self.__day_var__ = self.__dayVar__()]. *)
Definition GRADERR : printing analysis :=
  self <~ timeSeriesAnalysis_init "GRADERR" base_rule
            (grad <~ GRAD ;;
             var <~ VAR ;;
             ret (Some [("grad"%string, grad); ("var"%string, var)])) ;;
  _ <~ lift (DayVariance.dayVar lookback_days) ;;
  ret self.

(** [EWMA], [EWMADAY], [EWATR]: the constructor of the plain class, then
    [exponentialWeighting.__init__].  [EWMADAY] has
    [analysis_type = "EWMA"]. *)
Definition EWMA : printing analysis :=
  self <~ timeSeriesAnalysis_init "EWMA" exponential_rule no_preliminary_analyses ;;
  _ <~ exponentialWeighting_init ;;
  ret self.
Definition EWMADAY : printing analysis :=
  self <~ timeSeriesAnalysis_init "EWMA" exponential_rule no_preliminary_analyses ;;
  _ <~ exponentialWeighting_init ;;
  ret self.
Definition EWATR : printing analysis :=
  self <~ timeSeriesAnalysis_init "EWATR" exponential_rule no_preliminary_analyses ;;
  _ <~ exponentialWeighting_init ;;
  ret self.

(** [EWVAR]: [{ "ma" : EWMA(...) }]. *)
Definition EWVAR : printing analysis :=
  self <~ timeSeriesAnalysis_init "EWVAR" exponential_rule
            (ma <~ EWMA ;;
             ret (Some [("ma"%string, ma)])) ;;
  _ <~ exponentialWeighting_init ;;
  ret self.

(** [EWCOV]: [{ "ma" : EWMA(...), "maday" : EWMADAY(...) }]. *)
Definition EWCOV : printing analysis :=
  self <~ timeSeriesAnalysis_init "EWCOV" exponential_rule
            (ma <~ EWMA ;;
             maday <~ EWMADAY ;;
             ret (Some [("ma"%string, ma); ("maday"%string, maday)])) ;;
  _ <~ exponentialWeighting_init ;;
  ret self.

(** [EWGRAD]: [GRAD.__init__] with [{ "var" : EWVAR(...), "cov" : EWCOV(...) }]. *)
Definition EWGRAD : printing analysis :=
  timeSeriesAnalysis_init "EWGRAD" base_rule
    (var <~ EWVAR ;;
     cov <~ EWCOV ;;
     ret (Some [("var"%string, var); ("cov"%string, cov)])).

(** [EWGRADERR]: [GRADERR.__init__] with
    [{ "grad" : EWGRAD(...), "var" : EWVAR(...) }]. *)
Definition EWGRADERR : printing analysis :=
  self <~ timeSeriesAnalysis_init "EWGRADERR" base_rule
            (grad <~ EWGRAD ;;
             var <~ EWVAR ;;
             ret (Some [("grad"%string, grad); ("var"%string, var)])) ;;
  _ <~ lift (DayVariance.dayVar lookback_days) ;;
  ret self.

End Constructors.

(** [c(input_data, analysis_period, lookback_days)]. *)
Definition construct (c : Instances.indicator) (lookback_days : list Z)
  : printing analysis :=
  match c with
  | Instances.class_MA => MA lookback_days
  | Instances.class_VAR => VAR lookback_days
  | Instances.class_MADAY => MADAY lookback_days
  | Instances.class_COV => COV lookback_days
  | Instances.class_ATR => ATR lookback_days
  | Instances.class_N => N lookback_days
  | Instances.class_MMAX => MMAX lookback_days
  | Instances.class_MMIN => MMIN lookback_days
  | Instances.class_GRAD => GRAD lookback_days
  | Instances.class_GRADERR => GRADERR lookback_days
  | Instances.class_EWMA => EWMA lookback_days
  | Instances.class_EWVAR => EWVAR lookback_days
  | Instances.class_EWMADAY => EWMADAY lookback_days
  | Instances.class_EWCOV => EWCOV lookback_days
  | Instances.class_EWATR => EWATR lookback_days
  | Instances.class_EWGRAD => EWGRAD lookback_days
  | Instances.class_EWGRADERR => EWGRADERR lookback_days
  end.

(** The classes whose constructor reaches [exponentialWeighting.__init__],
    and with it [__calcAlpha__], itself or while it builds a preliminary
    analysis; and the classes whose constructor calls [__dayVar__]. *)
Definition calls_calcAlpha (c : Instances.indicator) : bool :=
  match c with
  | Instances.class_EWMA | Instances.class_EWVAR | Instances.class_EWMADAY
  | Instances.class_EWCOV | Instances.class_EWATR
  | Instances.class_EWGRAD | Instances.class_EWGRADERR => true
  | _ => false
  end.

Definition calls_dayVar (c : Instances.indicator) : bool :=
  match c with
  | Instances.class_GRADERR | Instances.class_EWGRADERR => true
  | _ => false
  end.

End Construction.

(* ################################################################# *)
(** * [returns.py]: [Returns] and [Drawdowns] *)

Module ReturnsAnalysis.

(** [returnsAnalysis.__initialAnalysisPeriod__]: [return 0]. *)
Definition initial_period (i : Z) : result Z := Ok 0%Z.

Module Returns.

(** [self.__equity__] and [self.__debt__]. *)
Record state : Type := State { equity : Q; debt : Q }.

(** [Returns.__init__]. *)
Definition init_state (init_equity : Q) : state :=
  {| equity := init_equity; debt := 0 |}.

Section Data.

(** The rounding of the exact result of one float operation. *)
Variable fl : Q -> Q.

(** [__thisReturn__(self, this_equity, this_debt)]:
    [( (this_equity-this_debt) / (self.__equity__-self.__debt__) ) - 1.0]. *)
Definition thisReturn (st : state) (this_equity this_debt : Q) : result Q :=
  ratio <- div (fl (this_equity - this_debt)) (fl (equity st - debt st)) ;;
  Ok (fl (fl ratio - 1)).

(** The [Equity] and [Debt] columns of the (pruned) strategy data. *)
Variable Equity Debt : list Q.

(** [Returns.__calculation__(self, data, i, row)]. *)
Definition calculation (i row : Z) (st : state) : result (pyval * state) :=
  this_equity <- index Equity row ;;
  this_debt <- index Debt row ;;
  this_return <- thisReturn st this_equity this_debt ;;
  Ok (PyList [PyFloat this_equity; PyFloat this_debt; PyFloat this_return],
      {| equity := this_equity; debt := this_debt |}).

End Data.

(** The [Return] entry of a collected row. *)
Definition return_of (out : pyval) : option Q :=
  match out with
  | PyList [_; _; PyFloat r] => Some r
  | _ => None
  end.

(** The product of [1 + return] over the collected rows that carry one. *)
Fixpoint compounded (outs : list pyval) : Q :=
  match outs with
  | [] => 1
  | out :: outs' =>
      match return_of out with
      | Some r => (1 + r) * compounded outs'
      | None => compounded outs'
      end
  end.

End Returns.

Module Drawdowns.

(** [self.__peak__]. *)
Record state : Type := State { peak : Q }.

(** [Drawdowns.__init__]: [self.__peak__ = 0.0]. *)
Definition init_state : state := {| peak := 0 |}.

Section Data.

Variable Equity : list Q.

(** [Drawdowns.__calculation__(self, data, i, row)]. *)
Definition calculation (i row : Z) (st : state) : result (pyval * state) :=
  equity <- index Equity row ;;
  let peak' := if Qltb (peak st) equity then equity else peak st in
  equity' <- index Equity row ;;
  drawdown <- div (peak' - equity') peak' ;;
  Ok (PyList [PyFloat equity'; PyFloat peak'; PyFloat drawdown],
      {| peak := peak' |}).

End Data.

(** A collected row [[equity, peak, drawdown]]. *)
Definition row_of (out : pyval) : option (Q * Q * Q) :=
  match out with
  | PyList [PyFloat e; PyFloat p; PyFloat d] => Some (e, p, d)
  | _ => None
  end.

End Drawdowns.

End ReturnsAnalysis.

(* ################################################################# *)
(** * More of [strategyAnalysis]: trades, months, drawdown statistics *)

Module Trades.

(** The lists [__listTrades__] fills; the string ["TBC"] is [None]. *)
Record trade_list : Type := TradeList {
  entry_date : list Z;
  entry_equity : list Q;
  exit_date : list (option Z);
  exit_equity : list (option Q)
}.

Definition no_trades : trade_list :=
  {| entry_date := []; entry_equity := []; exit_date := []; exit_equity := [] |}.

Section Input.

(** [input["Date"]], [input["Position"]] and [input["Equity"]]. *)
Variable Date : list Z.
Variable Position : list Q.
Variable Equity : list Q.

(** The body of the loop of [__listTrades__]. *)
Definition listTrades_row (t : trade_list) (row : Z) : result trade_list :=
  this <- index Position row ;;
  before <- index Position (row - 1) ;;
  if negb (Qeq_bool this before) then
    (* note trade exit *)
    t1 <- (if negb (len (entry_date t) =? 0)%Z
           then
             before' <- index Position (row - 1) ;;
             if negb (Qeq_bool before' 0)
             then
               d <- index Date row ;;
               e <- index Equity row ;;
               Ok {| entry_date := entry_date t;
                     entry_equity := entry_equity t;
                     exit_date := exit_date t ++ [Some d];
                     exit_equity := exit_equity t ++ [Some e] |}
             else Ok t
           else Ok t) ;;
    (* note trade entry *)
    this' <- index Position row ;;
    if negb (Qeq_bool this' 0)
    then
      d <- index Date row ;;
      e <- index Equity row ;;
      Ok {| entry_date := entry_date t1 ++ [d];
            entry_equity := entry_equity t1 ++ [e];
            exit_date := exit_date t1;
            exit_equity := exit_equity t1 |}
    else Ok t1
  else Ok t.

(** [__listTrades__(self, input)]; [initial_period] is
    [self.strategy.__initialAnalysisPeriod__()]. *)
Definition listTrades (initial_period : Z) : result trade_list :=
  t <- foldM listTrades_row (xrange (initial_period + 1) (len Date)) no_trades ;;
  (* check for an ongoing trade *)
  if (len (entry_date t) >? len (exit_date t))%Z
  then Ok {| entry_date := entry_date t;
             entry_equity := entry_equity t;
             exit_date := exit_date t ++ [None];
             exit_equity := exit_equity t ++ [None] |}
  else Ok t.

End Input.

(** The body of the loop of [__countTrades__]. *)
Definition countTrades_row (t : trade_list) (bin_limits : Z * Z)
           (acc : Z * Z) (i : Z) : result (Z * Z) :=
  let '(trades, wins) := acc in
  d <- index (entry_date t) i ;;
  inside <- (if (d >=? fst bin_limits)%Z
             then d' <- index (entry_date t) i ;; Ok (d' <? snd bin_limits)%Z
             else Ok false) ;;
  if inside : bool then
    let trades := (trades + 1)%Z in
    out <- index (exit_equity t) i ;;
    match out with
    | None => Ok (trades, wins)
    | Some exit_eq =>
        exit_eq' <- index (exit_equity t) i ;;
        entry_eq <- index (entry_equity t) i ;;
        match exit_eq' with
        | Some x => if Qltb entry_eq x then Ok (trades, (wins + 1)%Z)
                    else Ok (trades, wins)
        | None => Ok (trades, wins)
        end
    end
  else Ok (trades, wins).

(** [__countTrades__(self, trade_list, bin_limits)]. *)
Definition countTrades (t : trade_list) (bin_limits : Z * Z) : result (Z * Z * Q) :=
  '(trades, wins) <- foldM (countTrades_row t bin_limits)
                           (xrange 0 (len (entry_date t))) (0%Z, 0%Z) ;;
  if (trades =? 0)%Z then Ok (trades, wins, 0)
  else
    win_ratio <- div (1 * inject_Z wins) (1 * inject_Z trades) ;;
    Ok (trades, wins, win_ratio).

End Trades.

Module Statistics.

Section Input.

(** [input["Return"]] of the monthly returns. *)
Variable Return : list Q.

(** [__positiveMonths__(self, input, row_limits)]. *)
Definition positiveMonths (row_limits : Z * Z) : result Q :=
  '(positive, months) <-
    foldM (fun '(positive, months) row =>
             let months := (months + 1)%Z in
             r <- index Return row ;;
             if Qltb 0 r then Ok ((positive + 1)%Z, months)
             else Ok (positive, months))
          (xrange (fst row_limits) (snd row_limits)) (0%Z, 0%Z) ;;
  if (months =? 0)%Z then Ok 0
  else div (1 * inject_Z positive) (1 * inject_Z months).

End Input.

Section Drawdown.

(** The columns of the [Drawdowns] dataset. *)
Variable Date : list Z.
Variable Drawdown Peak Equity : list Q.

(** [max_drawdown], [peak], [period], [max_period] of [__maxDrawdown__]. *)
Record scan : Type := Scan {
  max_drawdown : Q;
  peak_date : Z;
  period : Z;
  max_period : Z
}.

(** The body of the loop of [__maxDrawdown__]. *)
Definition maxDrawdown_row (s : scan) (row : Z) : result scan :=
  d <- index Drawdown row ;;
  s1 <- (if Qltb (max_drawdown s) d
         then d' <- index Drawdown row ;;
              Ok {| max_drawdown := d'; peak_date := peak_date s;
                    period := period s; max_period := max_period s |}
         else Ok s) ;;
  p <- index Peak row ;;
  p_before <- index Peak (row - 1) ;;
  if Qeq_bool p p_before
  then
    p' <- index Peak row ;;
    e <- index Equity row ;;
    if negb (Qeq_bool p' e)
    then
      let period' := (period s1 + 1)%Z in
      Ok {| max_drawdown := max_drawdown s1; peak_date := peak_date s1;
            period := period';
            max_period := if (period' >? max_period s1)%Z then period'
                          else max_period s1 |}
    else Ok s1
  else
    d <- index Date row ;;
    Ok {| max_drawdown := max_drawdown s1; peak_date := d;
          period := period s1; max_period := max_period s1 |}.

(** [__maxDrawdown__(self, input, row_limits)]. *)
Definition maxDrawdown (row_limits : Z * Z) : result (Q * Z) :=
  first <- index Date 0 ;;
  s <- foldM maxDrawdown_row (xrange (fst row_limits) (snd row_limits))
             {| max_drawdown := 0; peak_date := first; period := 0; max_period := 0 |} ;;
  Ok (max_drawdown s, max_period s).

(** A row counted by [period]: the peak is the one of the row before and
    the equity is below it. *)
Definition under_water (row : Z) : bool :=
  match index Peak row, index Peak (row - 1), index Equity row with
  | Ok p, Ok p_before, Ok e => Qeq_bool p p_before && negb (Qeq_bool p e)
  | _, _, _ => false
  end.

End Drawdown.

End Statistics.

(* ################################################################# *)
(** * More of [timeSeriesAnalysis]: the analysis period and pruning *)

Module Period.

(** [__setAnalysisPeriod__(self, analysis_period)]; [stored] is
    [self.input_data.__getStoredPeriod__()].  The list is changed in place
    and returned: the result is the new content of that list. *)
Definition setAnalysisPeriod (stored analysis_period : Z * Z) : Z * Z :=
  let first := if (fst analysis_period <? fst stored)%Z then fst stored
               else fst analysis_period in
  let last := if (snd analysis_period >? snd stored)%Z then snd stored
              else snd analysis_period in
  (first, last).

(** The test of [__pruneData__] on a date. *)
Definition in_period (analysis_period : Z * Z) (d : Z) : bool :=
  negb (d <? fst analysis_period)%Z && negb (d >? snd analysis_period)%Z.

Section Prune.

Variable analysis_period : Z * Z.
(** [input["Date"]]. *)
Variable Date : list Z.

(** The inner loop of [__pruneData__] for one key. *)
Definition prune_column {A : Type} (column : list A) : result (list A) :=
  foldM (fun values row =>
           d <- index Date row ;;
           if in_period analysis_period d
           then x <- index column row ;; Ok (values ++ [x])
           else Ok values)
        (xrange 0 (len Date)) [].

(** [__pruneData__(self, input)]: the [Date] column and the other columns
    of [input], each pruned by the same loop. *)
Definition pruneData (columns : list (string * list pyval))
  : result (list Z * list (string * list pyval)) :=
  dates <- prune_column Date ;;
  others <- mapM (fun kc => values <- prune_column (snd kc) ;; Ok (fst kc, values))
                 columns ;;
  Ok (dates, others).

End Prune.

End Period.

(* ################################################################# *)
(** * [returnsAnalysis.__pruneData__]: daily and monthly granularity *)

Module Granularity.

(** [self.granularity]: ["Daily"], or anything else (["Monthly"]). *)
Inductive granularity : Type := Daily | Monthly.

(** What the method can raise: an exception of the Python layer, or the
    [UnboundLocalError] of reading [the_month_tomorrow] before it is bound. *)
Inductive raised : Type :=
| Exception (e : exn)
| UnboundLocalError.

Section Prune.

(** The date objects and their [month] attribute. *)
Variable D : Type.
Variable month : D -> Z.

(** [input["Date"]] and the other columns of [input]. *)
Variable Date : list D.
Variable columns : list (string * list pyval).

(** [self.input_data.__initialAnalysisPeriod__()]. *)
Variable initial_period : Z.

(** [output]: its ["Date"] column and its other columns. *)
Record pruned : Type := Pruned {
  dates : list D;
  others : list (string * list pyval)
}.

(** [for key in input.keys(): output[key] = [input[key][row]]]. *)
Definition start (row : Z) : result pruned :=
  d <- index Date row ;;
  cols <- mapM (fun kc : string * list pyval =>
                  v <- index (snd kc) row ;; Ok (fst kc, [v]))
               columns ;;
  Ok {| dates := [d]; others := cols |}.

(** [for key in input.keys(): output[key].append(input[key][row])]. *)
Definition append (out : pruned) (row : Z) : result pruned :=
  d <- index Date row ;;
  cols <- mapM (fun io : (string * list pyval) * (string * list pyval) =>
                  v <- index (snd (fst io)) row ;;
                  Ok (fst (snd io), snd (snd io) ++ [v]))
               (combine columns (others out)) ;;
  Ok {| dates := dates out ++ [d]; others := cols |}.

(** The loop of the monthly branch; [tomorrow] is [the_month_tomorrow],
    [None] while the name is unbound. *)
Fixpoint monthly_loop (rows : list Z) (out : pruned) (tomorrow : option Z)
  : pruned + raised :=
  match rows with
  | [] => inl out
  | row :: rows' =>
      (* try: the_month_tomorrow = input["Date"][row+1].month
         except IndexError: append the row *)
      match (match index Date (row + 1) with
             | Ok d => Ok (out, Some (month d))
             | Raise IndexError => out' <- append out row ;; Ok (out', tomorrow)
             | Raise e => Raise e
             end) with
      | Raise e => inr (Exception e)
      | Ok (out1, tomorrow1) =>
          (* if not the_month_tomorrow==input["Date"][row].month: append *)
          match tomorrow1 with
          | None => inr UnboundLocalError
          | Some m =>
              match index Date row with
              | Raise e => inr (Exception e)
              | Ok d =>
                  if negb (m =? month d)%Z
                  then match append out1 row with
                       | Raise e => inr (Exception e)
                       | Ok out2 => monthly_loop rows' out2 tomorrow1
                       end
                  else monthly_loop rows' out1 tomorrow1
              end
          end
      end
  end.

(** [returnsAnalysis.__pruneData__(self, input)]. *)
Definition pruneData (g : granularity) : pruned + raised :=
  match start initial_period with
  | Raise e => inr (Exception e)
  | Ok out =>
      let rows := xrange (initial_period + 1) (len Date) in
      match g with
      | Daily =>
          match foldM append rows out with
          | Raise e => inr (Exception e)
          | Ok out' => inl out'
          end
      | Monthly => monthly_loop rows out None
      end
  end.

(** A row followed by a row of another month, or by no row. *)
Definition month_end (row : Z) : bool :=
  match index Date (row + 1), index Date row with
  | Ok d', Ok d => negb (month d' =? month d)%Z
  | _, _ => true
  end.

End Prune.

(** The values of a column on the given rows. *)
Definition select {A : Type} (column : list A) (rows : list Z) : list A :=
  flat_map (fun row => match index column row with
                       | Ok v => [v]
                       | Raise _ => []
                       end) rows.

End Granularity.

(* ################################################################# *)
(** * Basic facts about the Python layer *)

Import TimeSeries.

Lemma bind_Ok {A B : Type} (c : result A) (k : A -> result B) (b : B) :
  bind c k = Ok b -> exists a, c = Ok a /\ k a = Ok b.
Proof.
  destruct c as [a|e]; simpl; intros H; [exists a; auto | discriminate].
Qed.

Ltac inv_bind H :=
  let a := fresh "v" in
  let Ha := fresh "E" in
  apply bind_Ok in H; destruct H as (a & Ha & H).

Lemma Qltb_lt (x y : Q) : Qltb x y = true <-> x < y.
Proof. unfold Qltb, Qlt. apply Z.ltb_lt. Qed.

Lemma Qltb_ge (x y : Q) : Qltb x y = false <-> y <= x.
Proof. unfold Qltb, Qle. rewrite Z.ltb_ge. reflexivity. Qed.

Lemma header_eqb_eq (h k : header) : header_eqb h k = true <-> h = k.
Proof.
  destruct h as [a|a n], k as [b|b m]; simpl; split; intros H;
    try discriminate; try congruence.
  - apply String.eqb_eq in H. congruence.
  - inversion H. apply String.eqb_refl.
  - apply andb_true_iff in H. destruct H as [H1 H2].
    apply String.eqb_eq in H1. apply Z.eqb_eq in H2. congruence.
  - inversion H. rewrite String.eqb_refl, Z.eqb_refl. reflexivity.
Qed.

Lemma dict_get_set (d : dataset) (h k : header) (v : list pyval) :
  dict_get (dict_set d h v) k = if header_eqb h k then Some v else dict_get d k.
Proof.
  induction d as [|[h' v'] d IH]; simpl.
  - reflexivity.
  - destruct (header_eqb h' h) eqn:E1; simpl.
    + apply header_eqb_eq in E1. subst h'.
      destruct (header_eqb h k); reflexivity.
    + destruct (header_eqb h' k) eqn:E2.
      * apply header_eqb_eq in E2. subst h'.
        destruct (header_eqb h k) eqn:E3; [|reflexivity].
        apply header_eqb_eq in E3. subst h.
        assert (header_eqb k k = true) by (apply header_eqb_eq; reflexivity).
        congruence.
      * exact IH.
Qed.

Lemma xrange_length (a b : Z) : length (xrange a b) = Z.to_nat (b - a).
Proof. unfold xrange. rewrite length_map, length_seq. reflexivity. Qed.

Lemma index_nonneg {A : Type} (l : list A) (i : Z) (x : A) :
  (0 <= i)%Z -> nth_error l (Z.to_nat i) = Some x -> index l i = Ok x.
Proof.
  intros Hi Hn. unfold index.
  assert (Hlt : (Z.to_nat i < length l)%nat)
    by (apply nth_error_Some; congruence).
  destruct (i <? 0)%Z eqn:E; [apply Z.ltb_lt in E; lia|].
  replace ((0 <=? i)%Z && (i <? Z.of_nat (length l))%Z) with true.
  - rewrite Hn. reflexivity.
  - symmetry. apply andb_true_iff. split; [apply Z.leb_le|apply Z.ltb_lt]; lia.
Qed.

(* ################################################################# *)
(** * The trading-system state machine *)

Section TradingSystem.

Import Strategy.

Variable sys : tradingSystem.
Variable Close : list Q.

Lemma update_fund_position row s s1 :
  update_fund Close row s = Ok s1 ->
  position s1 = position s /\ debt s1 = debt s /\ stop s1 = stop s.
Proof.
  unfold update_fund. intros H.
  inv_bind H. inv_bind H. inv_bind H. inversion H; subst; simpl. auto.
Qed.

Lemma update_debt_position s : position (update_debt sys s) = position s.
Proof. unfold update_debt. destruct (Qltb (equity s) 0); reflexivity. Qed.

(** The exit test can only leave the position alone or make it flat, and
    touches neither equity nor debt. *)
Lemma exit_positions_cases row s s2 :
  exit_positions sys row s = Ok s2 ->
  s2 = s \/ (position s <> 0%Z /\ s2 = set_position s 0).
Proof.
  unfold exit_positions. intros H.
  destruct (position s =? 1)%Z eqn:E1.
  - apply Z.eqb_eq in E1. inv_bind H. destruct v; inversion H; subst.
    + right. split; [lia | reflexivity].
    + left. reflexivity.
  - destruct (position s =? -1)%Z eqn:E2.
    + apply Z.eqb_eq in E2. inv_bind H. destruct v; inversion H; subst.
      * right. split; [lia | reflexivity].
      * left. reflexivity.
    + inversion H. left. reflexivity.
Qed.

(** The entry tests are not evaluated unless the position is flat. *)
Lemma enter_positions_not_flat row s :
  position s <> 0%Z -> enter_positions sys row s = Ok s.
Proof.
  intros Hp. unfold enter_positions.
  destruct (position s =? 0)%Z eqn:E; [apply Z.eqb_eq in E; contradiction|].
  reflexivity.
Qed.

Lemma enter_positions_cases row s s' :
  enter_positions sys row s = Ok s' ->
  equity s' = equity s /\ debt s' = debt s /\
  (position s' = position s \/
   (position s = 0%Z /\ (position s' = 1%Z \/ position s' = (-1)%Z))).
Proof.
  unfold enter_positions. intros H.
  destruct (position s =? 0)%Z eqn:E.
  - apply Z.eqb_eq in E. inv_bind H. destruct v.
    + inv_bind H. inversion H; subst; simpl. auto 6.
    + inv_bind H. destruct v.
      * inv_bind H. inversion H; subst; simpl. auto 6.
      * inversion H; subst. auto.
  - inversion H; subst. auto.
Qed.

(** One row, phase by phase. *)
Lemma calculation_phases i row s out s' :
  calculation sys Close i row s = Ok (out, s') ->
  exists s1 s2,
    update_fund Close row s = Ok s1 /\
    exit_positions sys row (update_debt sys s1) = Ok s2 /\
    enter_positions sys row s2 = Ok s' /\
    out = output_row s'.
Proof.
  unfold calculation. intros H.
  inv_bind H. inv_bind H. inv_bind H. inversion H; subst.
  eauto 6.
Qed.

Lemma calculation_position i row s out s' :
  valid_position (position s) ->
  calculation sys Close i row s = Ok (out, s') ->
  valid_position (position s') /\ valid_row out.
Proof.
  intros Hv H. apply calculation_phases in H.
  destruct H as (s1 & s2 & H1 & H2 & H3 & ->).
  apply update_fund_position in H1. destruct H1 as (Hp1 & _).
  apply exit_positions_cases in H2.
  apply enter_positions_cases in H3. destruct H3 as (_ & _ & H3).
  assert (Hv2 : valid_position (position s2)).
  { destruct H2 as [-> | [_ ->]].
    - rewrite update_debt_position, Hp1. exact Hv.
    - simpl. right. left. reflexivity. }
  assert (Hv' : valid_position (position s')).
  { unfold valid_position in *. destruct H3 as [-> | (_ & [-> | ->])]; auto. }
  split; [exact Hv'|].
  unfold valid_row, output_row. eauto.
Qed.

(** An invariant of the state is carried along the row loop, and what it
    gives for one returned row holds of every collected row. *)
Lemma calc_rows_invariant (Inv : state -> Prop) (Post : pyval -> Prop) :
  (forall i row s out s',
      Inv s -> calculation sys Close i row s = Ok (out, s') ->
      Inv s' /\ Post out) ->
  forall i rows s outs s',
    Inv s ->
    calc_rows (calculation sys Close) i rows s = Ok (outs, s') ->
    Inv s' /\ Forall Post outs.
Proof.
  intros Hstep i rows. induction rows as [|row rows IH]; simpl; intros s outs s' Hs H.
  - inversion H; subst. auto.
  - inv_bind H. destruct v as [out s1].
    inv_bind H. destruct v as [outs1 s2]. inversion H; subst.
    destruct (Hstep _ _ _ _ _ Hs E) as [Hs1 Hout].
    destruct (IH _ _ _ Hs1 E0) as [Hs2 Houts].
    auto.
Qed.

End TradingSystem.

Section RoundedTradingSystem.

Import Strategy.

Variable fl : Q -> Q.
Variable sys : tradingSystem.
Variable Close : list Q.

Lemma rounded_fund_keeps row s s1 :
  Rounded.update_fund fl Close row s = Ok s1 ->
  position s1 = position s /\ debt s1 = debt s /\ stop s1 = stop s.
Proof.
  unfold Rounded.update_fund. intros H.
  inv_bind H. inv_bind H. inv_bind H. inversion H; subst; simpl. auto.
Qed.

Lemma rounded_phases i row s out s' :
  Rounded.calculation fl sys Close i row s = Ok (out, s') ->
  exists s1 s2,
    Rounded.update_fund fl Close row s = Ok s1 /\
    exit_positions sys row (Rounded.update_debt fl sys s1) = Ok s2 /\
    enter_positions sys row s2 = Ok s' /\
    out = output_row s'.
Proof.
  unfold Rounded.calculation. intros H.
  inv_bind H. inv_bind H. inv_bind H. inversion H; subst.
  eauto 6.
Qed.

End RoundedTradingSystem.

(** With no rounding the rounded row is the row of [Strategy]. *)
Lemma rounded_exact (sys : Strategy.tradingSystem) (Close : list Q) i row s :
  Rounded.calculation (fun x => x) sys Close i row s
  = Strategy.calculation sys Close i row s.
Proof. reflexivity. Qed.

Section RowLoopForall.

Variable St : Type.
Variable calculation : Z -> Z -> St -> result (pyval * St).

(** An invariant of the state is carried along the row loop, and what it
    gives for one returned row holds of every collected row. *)
Lemma calc_rows_Forall (Inv : St -> Prop) (Post : pyval -> Prop) :
  (forall i row s out s',
      Inv s -> calculation i row s = Ok (out, s') -> Inv s' /\ Post out) ->
  forall i rows s outs s',
    Inv s ->
    calc_rows calculation i rows s = Ok (outs, s') ->
    Inv s' /\ Forall Post outs.
Proof.
  intros Hstep i rows. induction rows as [|row rows IH]; simpl; intros s outs s' Hs H.
  - inversion H; subst. auto.
  - inv_bind H. destruct v as [out s1].
    inv_bind H. destruct v as [outs1 s2]. inversion H; subst.
    destruct (Hstep _ _ _ _ _ Hs E) as [Hs1 Hout].
    destruct (IH _ _ _ Hs1 E0) as [Hs2 Houts].
    auto.
Qed.

End RowLoopForall.

Section TradingSystemClaims.

Import Strategy.

(** C2.  Every collected output row carries a position in {-1, 0, +1}.
    Within one row the exit test runs first and leaves the position as it
    was or makes it flat; the entry tests are not evaluated (the row's
    result does not depend on them) unless the position is then flat; so a
    row that turns long into short, or short into long, has passed through
    flat. *)
Theorem position_exclusivity (sys : tradingSystem) (Close : list Q)
        (offset : Z) (outs : list pyval) (st : state) :
  results sys Close offset = Ok (outs, st) ->
  Forall valid_row outs /\
  forall i row s out s',
    valid_position (position s) ->
    calculation sys Close i row s = Ok (out, s') ->
    exists s1 s2,
      update_fund Close row s = Ok s1 /\
      exit_positions sys row (update_debt sys s1) = Ok s2 /\
      enter_positions sys row s2 = Ok s' /\
      (position s2 = position s \/ position s2 = 0%Z) /\
      (position s2 <> 0%Z -> enter_positions sys row s2 = Ok s2 /\ s' = s2) /\
      valid_position (position s') /\
      ((position s = 1%Z /\ position s' = (-1)%Z) \/
       (position s = (-1)%Z /\ position s' = 1%Z) -> position s2 = 0%Z).
Proof.
  intros Hrun. split.
  - unfold results in Hrun.
    refine (proj2 (@calc_rows_invariant sys Close
                     (fun s => valid_position (position s)) valid_row
                     _ _ _ _ _ _ _ Hrun)).
    + intros i row s out s' Hs H. eapply calculation_position; eauto.
    + unfold valid_position, init_state. simpl. auto.
  - intros i row s out s' Hv H.
    destruct (calculation_position _ _ _ _ _ Hv H) as [Hv' _].
    apply calculation_phases in H. destruct H as (s1 & s2 & H1 & H2 & H3 & _).
    exists s1, s2. repeat split; auto.
    + pose proof (update_fund_position _ _ _ H1) as (Hp & _).
      apply exit_positions_cases in H2. destruct H2 as [-> | [_ ->]].
      * left. rewrite update_debt_position. exact Hp.
      * right. reflexivity.
    + apply enter_positions_not_flat. assumption.
    + rewrite enter_positions_not_flat in H3 by assumption. congruence.
    + intros Hflip.
      pose proof (update_fund_position _ _ _ H1) as (Hp & _).
      apply exit_positions_cases in H2.
      apply enter_positions_cases in H3. destruct H3 as (_ & _ & H3).
      destruct H2 as [-> | [_ ->]]; [|reflexivity].
      rewrite update_debt_position, Hp in *.
      destruct H3 as [H3 | [H3 _]]; [lia | exact H3].
Qed.

(** A [DualMA] run whose second row turns a long position into a short
    one. *)
Lemma position_exclusivity_witness :
  exists outs st,
    results (Instances.DualMA_system 100 [10; 10; 10; 10] [2; 2; 1; 1] [1; 1; 2; 2])
            [10; 10; 10; 10] 1 = Ok (outs, st)
    /\ map (fun out => match out with PyList (p :: _) => p | _ => out end) outs
       = [PyInt 1; PyInt (-1); PyInt (-1)]
    /\ Forall valid_row outs.
Proof.
  eexists. eexists. split; [vm_compute; reflexivity|].
  split; [reflexivity|].
  eapply (position_exclusivity
            (Instances.DualMA_system 100 [10; 10; 10; 10] [2; 2; 1; 1] [1; 1; 2; 2])
            [10; 10; 10; 10] 1).
  vm_compute. reflexivity.
Defined.

(** C3 (amended).  Whatever the rounding of the float operations: on a
    row whose equity is strictly negative after the mark-to-market update,
    the row's equity is [init_equity] exactly and the debt is the old debt
    with the deficit and then [init_equity] added, each addition rounded
    once; when the negation and the two additions of that row are exact,
    the debt has increased by [init_equity] plus the absolute value of
    that negative equity.  When [init_equity] is not negative, no
    collected row has a negative equity. *)
Theorem equity_after_injection (fl : Q -> Q) (sys : tradingSystem) (Close : list Q) :
  (forall i row s s1 out s',
      Rounded.update_fund fl Close row s = Ok s1 ->
      equity s1 < 0 ->
      Rounded.calculation fl sys Close i row s = Ok (out, s') ->
      equity s' = init_equity sys
      /\ equity_of out = Some (init_equity sys)
      /\ debt s' = fl (fl (debt s + fl (-1 * equity s1)) + init_equity sys)
      /\ debt_of out = Some (debt s')
      /\ (fl (-1 * equity s1) == -1 * equity s1 ->
          fl (debt s + fl (-1 * equity s1)) == debt s + fl (-1 * equity s1) ->
          fl (fl (debt s + fl (-1 * equity s1)) + init_equity sys)
          == fl (debt s + fl (-1 * equity s1)) + init_equity sys ->
          debt s' == debt s + (init_equity sys + Qabs (equity s1))))
  /\ (0 <= init_equity sys ->
      forall offset outs st,
        Rounded.results fl sys Close offset = Ok (outs, st) ->
        Forall (fun out => exists e, equity_of out = Some e /\ 0 <= e) outs).
Proof.
  split.
  - intros i row s s1 out s' H1 Hneg H.
    apply rounded_phases in H. destruct H as (s1' & s2 & H1' & H2 & H3 & ->).
    rewrite H1 in H1'. inversion H1'; subst s1'. clear H1'.
    apply rounded_fund_keeps in H1. destruct H1 as (_ & Hd & _).
    apply enter_positions_cases in H3. destruct H3 as (He3 & Hd3 & _).
    assert (E : Qltb (equity s1) 0 = true) by (apply Qltb_lt; exact Hneg).
    assert (He2 : equity s2 = init_equity sys /\
                  debt s2 = fl (fl (debt s1 + fl (-1 * equity s1)) + init_equity sys)).
    { apply exit_positions_cases in H2.
      destruct H2 as [-> | [_ ->]]; unfold Rounded.update_debt; rewrite E; simpl; auto. }
    destruct He2 as [He2 Hd2].
    assert (Hdebt : debt s'
                    = fl (fl (debt s + fl (-1 * equity s1)) + init_equity sys))
      by congruence.
    split; [congruence|]. split; [unfold output_row; simpl; congruence|].
    split; [exact Hdebt|]. split; [reflexivity|].
    intros Hnegation Hdeficit Hinjection.
    rewrite Hdebt, Hinjection, Hdeficit, Hnegation.
    rewrite (Qabs_neg (equity s1)) by (apply Qlt_le_weak; exact Hneg).
    ring.
  - intros Hinit offset outs st Hrun. unfold Rounded.results in Hrun.
    refine (proj2 (@calc_rows_Forall _ (Rounded.calculation fl sys Close)
                     (fun _ => True) _ _ 0%Z _ _ _ _ I Hrun)).
    intros i row s out s' _ H. split; [exact I|].
    apply rounded_phases in H. destruct H as (s1 & s2 & H1 & H2 & H3 & ->).
    apply enter_positions_cases in H3. destruct H3 as (He3 & _ & _).
    exists (equity s'). split; [reflexivity|].
    rewrite He3.
    assert (0 <= equity (Rounded.update_debt fl sys s1)).
    { unfold Rounded.update_debt. destruct (Qltb (equity s1) 0) eqn:E; simpl.
      - exact Hinit.
      - apply Qltb_ge. exact E. }
    apply exit_positions_cases in H2.
    destruct H2 as [-> | [_ ->]]; simpl; assumption.
Qed.

(** A short [DualMA] position while the price rises from 100 to 250, with
    no rounding: the equity drops to -50 and is reset to 100, the debt
    becomes 150. *)
Lemma equity_after_injection_witness :
  exists outs st,
    Rounded.results (fun x => x)
                    (Instances.DualMA_system 100 [100; 100; 250] [1; 1; 1] [2; 2; 2])
                    [100; 100; 250] 1 = Ok (outs, st)
    /\ map (fun out => option_map Qred (equity_of out)) outs = [Some 100; Some 100]
    /\ map (fun out => option_map Qred (debt_of out)) outs = [Some 0; Some 150]
    /\ Forall (fun out => exists e, equity_of out = Some e /\ 0 <= e) outs.
Proof.
  eexists. eexists. split; [vm_compute; reflexivity|].
  split; [reflexivity|]. split; [reflexivity|].
  refine (proj2 (equity_after_injection
                   (fun x => x)
                   (Instances.DualMA_system 100 [100; 100; 250] [1; 1; 1] [2; 2; 2])
                   [100; 100; 250]) _ 1%Z _ _ _).
  - vm_compute. discriminate.
  - vm_compute. reflexivity.
Defined.

(** C3, as stated, fails: with a negative initial equity every row is an
    injection row, and the equity written out is the negative
    [init_equity]. *)
Lemma negative_initial_equity_counterexample :
  exists outs st,
    results (Hold (-5)) [100; 101] 0 = Ok (outs, st)
    /\ map equity_of outs = [Some (-5); Some (-5)]
    /\ Forall (fun out => exists e, equity_of out = Some e /\ e < 0) outs.
Proof.
  eexists. eexists. split; [vm_compute; reflexivity|].
  split; [reflexivity|].
  repeat constructor; eexists; (split; [reflexivity | reflexivity]).
Qed.

End TradingSystemClaims.

Section DebtAndHold.

Import Strategy.

(** One row never lowers the debt when [init_equity] is not negative. *)
Lemma calculation_debt (sys : tradingSystem) (Close : list Q) i row s out s' :
  0 <= init_equity sys ->
  calculation sys Close i row s = Ok (out, s') ->
  debt s <= debt s' /\ debt_of out = Some (debt s').
Proof.
  intros Hinit H.
  apply calculation_phases in H. destruct H as (s1 & s2 & H1 & H2 & H3 & ->).
  apply update_fund_position in H1. destruct H1 as (_ & Hd & _).
  apply enter_positions_cases in H3. destruct H3 as (_ & Hd3 & _).
  split; [|reflexivity].
  rewrite Hd3, <- Hd.
  assert (Hd2 : debt s2 = debt (update_debt sys s1))
    by (apply exit_positions_cases in H2; destruct H2 as [-> | [_ ->]]; reflexivity).
  rewrite Hd2. unfold update_debt.
  destruct (Qltb (equity s1) 0) eqn:E; simpl.
  - apply Qltb_lt in E. lra.
  - apply Qle_refl.
Qed.

Lemma calc_rows_debts (sys : tradingSystem) (Close : list Q) i rows :
  0 <= init_equity sys ->
  forall s outs s',
    calc_rows (calculation sys Close) i rows s = Ok (outs, s') ->
    debts_from (debt s) outs.
Proof.
  intros Hinit. induction rows as [|row rows IH]; simpl; intros s outs s' H.
  - inversion H; subst. exact I.
  - inv_bind H. destruct v as [out s1].
    inv_bind H. destruct v as [outs1 s2]. inversion H; subst.
    destruct (calculation_debt _ _ _ _ _ Hinit E) as [Hle Hout].
    simpl. exists (debt s1). repeat split; auto.
    eapply IH; eauto.
Qed.

(** C10 (amended).  When [init_equity] is not negative, the debt written
    out never decreases from one row to the next, and the first row's
    debt is at least the 0 the object starts with. *)
Theorem debt_nondecreasing (sys : tradingSystem) (Close : list Q)
        (offset : Z) (outs : list pyval) (st : state) :
  0 <= init_equity sys ->
  results sys Close offset = Ok (outs, st) ->
  debt (init_state sys) = 0 /\ debts_from 0 outs.
Proof.
  intros Hinit Hrun. split; [reflexivity|].
  unfold results in Hrun.
  exact (@calc_rows_debts sys Close 0 _ Hinit _ _ _ Hrun).
Qed.

Lemma debt_nondecreasing_witness :
  exists outs st,
    results (Instances.DualMA_system 100 [100; 100; 250; 750] [1; 1; 1; 1] [2; 2; 2; 2])
            [100; 100; 250; 750] 1 = Ok (outs, st)
    /\ map (fun out => option_map Qred (debt_of out)) outs
       = [Some 0; Some 150; Some 350]
    /\ debts_from 0 outs.
Proof.
  eexists. eexists. split; [vm_compute; reflexivity|].
  split; [reflexivity|].
  eapply (debt_nondecreasing
            (Instances.DualMA_system 100 [100; 100; 250; 750] [1; 1; 1; 1] [2; 2; 2; 2])
            [100; 100; 250; 750] 1).
  - vm_compute. discriminate.
  - vm_compute. reflexivity.
Defined.

(** C10, as stated, fails: with [init_equity = -5] a long position on a
    falling price takes the debt from 0 to -1/20. *)
Lemma debt_decreases_counterexample :
  exists outs st,
    results (Hold (-5)) [100; 99] 0 = Ok (outs, st)
    /\ map (fun out => option_map Qred (debt_of out)) outs
       = [Some 0; Some (-1 # 20)]
    /\ ~ debts_from 0 outs.
Proof.
  eexists. eexists. split; [vm_compute; reflexivity|].
  split; [reflexivity|].
  simpl. intros (d0 & E0 & H0 & d1 & E1 & H1 & _).
  inversion E0; subst d0. inversion E1; subst d1.
  revert H1. vm_compute. intros H1. apply H1. reflexivity.
Qed.

(** C9.  [Hold] on the series 100, 101, ..., 119 with 100 of equity:
    long on every row (the entry row is row 0), no debt on any row, an
    equity column that grows strictly, and 119 = 100 * (119/100) on the
    last row. *)
Theorem Hold_on_ramp :
  exists output equities debts,
    Hold_run 100 ramp_dates ramp = Ok output
    /\ dict_get output (Named "Position") = Some (map (fun _ => PyInt 1) ramp)
    /\ dict_get output (Named "Equity") = Some equities
    /\ dict_get output (Named "Debt") = Some debts
    /\ floats_eq equities ramp
    /\ floats_eq debts (map (fun _ => 0) ramp)
    /\ (forall k x y, nth_error equities k = Some (PyFloat x) ->
                      nth_error equities (S k) = Some (PyFloat y) -> x < y)
    /\ (exists final, nth_error equities 19 = Some (PyFloat final)
                      /\ final == 100 * (119 / 100) /\ final == 119).
Proof.
  eexists. eexists. eexists.
  split; [vm_compute; reflexivity|].
  split; [reflexivity|].
  split; [reflexivity|].
  split; [reflexivity|].
  split; [repeat constructor; eexists; (split; [reflexivity|reflexivity])|].
  split; [repeat constructor; eexists; (split; [reflexivity|reflexivity])|].
  split.
  - intros k x y Hx Hy.
    do 19 (destruct k as [|k];
           [simpl in Hx, Hy; inversion Hx; inversion Hy; subst; reflexivity|]).
    destruct k; simpl in Hy; discriminate.
  - eexists. split; [reflexivity|]. split; reflexivity.
Qed.

End DebtAndHold.

(* ################################################################# *)
(** * [MA] *)

Section MovingAverage.

Import Price.

(** Every call of [MA.__calculation__] after the first step raises: the
    iteration branch calls [__variable__] without its third argument. *)
Lemma MA_iteration_raises (Close : list Q) (lookback : list Z) i row p st :
  MA.initial_period lookback i = Ok p ->
  row <> p ->
  MA.calculation Close lookback i row st = Raise TypeError.
Proof.
  intros Hp Hrow. unfold MA.calculation. rewrite Hp. simpl.
  destruct (row =? p)%Z eqn:E; [apply Z.eqb_eq in E; contradiction|].
  reflexivity.
Qed.

(** The first step adds the closes to the initial [-999.0]. *)
Lemma MA_first_step_sum (Close : list Q) i rows : forall st st',
  MA.first_step Close rows i st = Ok st' ->
  exists xs, mapM (fun r => index Close r) rows = Ok xs
             /\ MA.sum st' == MA.sum st + fold_left Qplus xs 0
             /\ MA.lookback_values st' = MA.lookback_values st ++ xs.
Proof.
  induction rows as [|r rows IH]; simpl; intros st st' H.
  - inversion H; subst. exists []. simpl. repeat split.
    + ring.
    + rewrite app_nil_r. reflexivity.
  - inv_bind H. unfold MA.variable in E. rewrite E. simpl.
    apply IH in H. destruct H as (xs & Hxs & Hsum & Hval).
    rewrite Hxs. simpl. exists (v :: xs). repeat split.
    + rewrite Hsum. simpl.
      assert (G : forall l a, fold_left Qplus l a == a + fold_left Qplus l 0).
      { clear. induction l as [|y l IHl]; simpl; intros a.
        - ring.
        - rewrite IHl, (IHl (0 + y)). ring. }
      rewrite (G xs (0 + v)). ring.
    + rewrite Hval. simpl. rewrite <- app_assoc. reflexivity.
Qed.

(** C1 on the code.  On the closes 100, ..., 119 with a 5-day window, the
    first valid row (row 5) returns (-999 + 510)/5 = -489/5 and not
    510/5 = 102; the call for row 6 raises [TypeError], and so does the
    whole run: no row 10 is ever written. *)
Theorem MA_on_ramp :
  (exists q st,
      MA.calculation Strategy.ramp [5%Z] 0 5 MA.init_state = Ok (PyFloat q, st)
      /\ q == -489 # 5
      /\ MA.window_mean Strategy.ramp 5 5 == 102
      /\ ~ q == MA.window_mean Strategy.ramp 5 5
      /\ MA.calculation Strategy.ramp [5%Z] 0 6 st = Raise TypeError)
  /\ MA.window_mean Strategy.ramp 5 10 == 107
  /\ MA.run Strategy.ramp [5%Z] Strategy.ramp_dates = Raise TypeError.
Proof.
  split; [|split].
  - eexists. eexists. split; [vm_compute; reflexivity|].
    split; [reflexivity|]. split; [reflexivity|].
    split; [intros H; vm_compute in H; discriminate|].
    reflexivity.
  - reflexivity.
  - vm_compute. reflexivity.
Qed.

End MovingAverage.

(* ################################################################# *)
(** * [MMAX] and [MMIN] *)

Section MovingExtreme.

Import Price.

(** C4 on the code.  With two lookback slots the buffer of the first slot
    is still in [self.__lookback_values__] when the second slot starts: on
    the highs 5, 1, 1, 1 with windows 1 and 2, the column [MMAX_2] holds 5
    at row 3, where the two rows before it hold 1 and 1.  [MMIN] inherits
    the method and fails alike on the lows 1, 5, 5, 5. *)
Theorem MMAX_second_slot :
  (exists output,
      MMAX.MMAX_run [5; 1; 1; 1] [1; 2]%Z (map PyInt [0; 1; 2; 3]%Z) = Ok output
      /\ dict_get output (Col "MMAX" 2)
         = Some [not_available; not_available; PyFloat 5; PyFloat 5]
      /\ MMAX.window [5; 1; 1; 1] 2 3 = [1; 1]
      /\ ~ MMAX.is_max 5 (MMAX.window [5; 1; 1; 1] 2 3))
  /\ (exists output,
      MMAX.MMIN_run [1; 5; 5; 5] [1; 2]%Z (map PyInt [0; 1; 2; 3]%Z) = Ok output
      /\ dict_get output (Col "MMIN" 2)
         = Some [not_available; not_available; PyFloat 1; PyFloat 1]
      /\ MMAX.window [1; 5; 5; 5] 2 3 = [5; 5]
      /\ ~ MMAX.is_min 1 (MMAX.window [1; 5; 5; 5] 2 3)).
Proof.
  split.
  - eexists. split; [vm_compute; reflexivity|].
    split; [reflexivity|]. split; [reflexivity|].
    intros [(x & Hin & Hx) _]. simpl in Hin.
    destruct Hin as [<- | [<- | []]]; vm_compute in Hx; discriminate.
  - eexists. split; [vm_compute; reflexivity|].
    split; [reflexivity|]. split; [reflexivity|].
    intros [(x & Hin & Hx) _]. simpl in Hin.
    destruct Hin as [<- | [<- | []]]; vm_compute in Hx; discriminate.
Qed.

End MovingExtreme.

(* ################################################################# *)
(** * [__rowAtDate__] *)

Section RowLookup.

Import Analysis.

(** Once [upper = lower + 1] with the date at [lower] before the target,
    a pass of the loop changes nothing: [middle] is [lower] again. *)
Lemma search_step_stuck (Date : list Z) (test_date lower before here : Z) :
  index Date (lower - 1) = Ok before ->
  index Date lower = Ok here ->
  (here < test_date)%Z ->
  search_step Date test_date lower (lower + 1) = Ok (inr (lower, (lower + 1)%Z)).
Proof.
  intros Hb Hh Hlt. unfold search_step.
  replace ((lower + (lower + 1)) / 2)%Z with lower
    by (apply Z.div_unique with (r := 1%Z); lia).
  assert (E1 : (here >=? test_date)%Z = false)
    by (rewrite Z.geb_leb; apply Z.leb_gt; lia).
  assert (E2 : (here <? test_date)%Z = true) by (apply Z.ltb_lt; lia).
  rewrite Hb, Hh. simpl.
  destruct (before <? test_date)%Z; simpl; rewrite ?E1; simpl; rewrite E2;
    reflexivity.
Qed.

Lemma search_stuck (Date : list Z) (test_date lower before here : Z) :
  index Date (lower - 1) = Ok before ->
  index Date lower = Ok here ->
  (here < test_date)%Z ->
  forall fuel, search Date fuel test_date lower (lower + 1) = None.
Proof.
  intros Hb Hh Hlt fuel. induction fuel as [|fuel IH]; simpl.
  - reflexivity.
  - rewrite (search_step_stuck _ _ Hb Hh Hlt). exact IH.
Qed.

(** C6 on the code.  On the strictly ascending dates 1, 2, 3, 5 the lookup
    of date 4 (strictly between the last two rows; the row to return is
    row 3) never returns: after two passes the loop is at
    [lower = 2, upper = 3] and stays there. *)
Theorem rowAtDate_never_returns :
  ascending [1; 2; 3; 5]%Z
  /\ first_on_or_after [1; 2; 3; 5]%Z 4 0 = Some 3%Z
  /\ search_step [1; 2; 3; 5]%Z 4 2 3 = Ok (inr (2, 3)%Z)
  /\ forall fuel, rowAtDate [1; 2; 3; 5]%Z fuel 0 4 = None.
Proof.
  split; [simpl; lia|]. split; [reflexivity|]. split; [reflexivity|].
  intros fuel. unfold rowAtDate. simpl.
  destruct fuel as [|fuel]; [reflexivity|].
  destruct fuel as [|fuel]; [reflexivity|].
  change (search [1; 2; 3; 5]%Z (S (S fuel)) 4 0 3)
    with (search [1; 2; 3; 5]%Z fuel 4 2 (2 + 1)).
  apply search_stuck with (before := 2%Z) (here := 3%Z);
    [reflexivity | reflexivity | lia].
Qed.

End RowLookup.

(* ################################################################# *)
(** * The lookback check of the constructor *)

Section LookbackCheck.

Import Price.

Lemma check_lookback_cases (lookback : list Z) :
  (check_lookback lookback = [lookback_message]
   /\ exists i, In i lookback /\ (i < 1)%Z)
  \/ (check_lookback lookback = [] /\ Forall (fun i => (1 <= i)%Z) lookback).
Proof.
  induction lookback as [|i rest IH]; simpl.
  - right. split; [reflexivity | constructor].
  - destruct (i <? 1)%Z eqn:E.
    + apply Z.ltb_lt in E. left. split; [reflexivity|]. exists i. auto.
    + apply Z.ltb_ge in E. destruct IH as [(Hm & j & Hj & Hlt) | (Hm & Hall)].
      * left. split; [exact Hm|]. exists j. auto.
      * right. split; [exact Hm|]. constructor; assumption.
Qed.


End LookbackCheck.

(* ################################################################# *)
(** * The Sortino ratio *)

Section Sortino.

Import Analysis.

(** C8 on the code.
    - Two losing months: the first loop of [__downsideSdevReturns__]
      skips the negative returns it should count, [n] stays 0, the
      variance is set to 0 and the ratio is ["NaN"], although the two
      negative returns differ and their standard deviation is not zero.
    - Four months: the numerator is twelve times the mean return, with no
      risk-free rate subtracted, and the radicand is not the variance of
      the negative returns.
    - One month: [__meanSdevReturns__] divides by [n - 1 = 0]. *)
Theorem SortinoRatio_on_code :
  (forall rfr,
      SortinoRatio rfr (monthly [-1 # 100; -3 # 100]) (0, 2)%Z false = Ok NaN
      /\ ~ spec_downside_variance (monthly [-1 # 100; -3 # 100]) (0, 2)%Z == 0)
  /\ (exists mean radicand,
         SortinoRatio (4074 # 1000000)
                      (monthly [2 # 100; -1 # 100; 4 # 100; -3 # 100]) (0, 4)%Z false
         = Ok (Quotient mean (Sqrt radicand))
         /\ mean == 6 # 100
         /\ spec_mean_excess (4074 # 1000000)
              (monthly [2 # 100; -1 # 100; 4 # 100; -3 # 100]) (0, 4)%Z
            == (6 # 100) - 12 * (4074 # 1000000)
         /\ radicand == 12 * (52 # 10000)
         /\ spec_downside_variance
              (monthly [2 # 100; -1 # 100; 4 # 100; -3 # 100]) (0, 4)%Z
            == 12 * (2 # 10000))
  /\ (forall rfr,
         SortinoRatio rfr (monthly [-2 # 100]) (0, 1)%Z false
         = Raise ZeroDivisionError).
Proof.
  split; [|split].
  - intros rfr. split.
    + unfold SortinoRatio, meanSdevReturns, downsideSdevReturns. reflexivity.
    + intros H. vm_compute in H. discriminate.
  - eexists. eexists. split; [vm_compute; reflexivity|].
    repeat split; reflexivity.
  - intros rfr. reflexivity.
Qed.

End Sortino.

(* ################################################################# *)
(** * Initial offsets and the cells before them *)

Section Offsets.

Lemma analysis_induction (P : analysis -> Prop) :
  (forall r l, P (Analysis r l None)) ->
  (forall r l ps, Forall (fun np => P (snd np)) ps -> P (Analysis r l (Some ps))) ->
  forall a, P a.
Proof.
  intros Hleaf Hnode. fix IH 1. intros [r l [ps|]].
  - apply Hnode. induction ps as [|np ps IHps]; constructor.
    + apply IH.
    + exact IHps.
  - apply Hleaf.
Qed.

Lemma xrange_In (a b j : Z) : In j (xrange a b) <-> (a <= j < b)%Z.
Proof.
  unfold xrange. rewrite in_map_iff. split.
  - intros (k & <- & Hk). apply in_seq in Hk. lia.
  - intros Hj. exists (Z.to_nat (j - a)). split; [lia|].
    apply in_seq. lia.
Qed.

Lemma mapM_total {A B : Type} (f : A -> result B) (xs : list A) :
  (forall x, In x xs -> exists y, f x = Ok y) ->
  exists ys, mapM f xs = Ok ys
             /\ forall y, In y ys <-> exists x, In x xs /\ f x = Ok y.
Proof.
  induction xs as [|x xs IH]; simpl; intros H.
  - exists []. split; [reflexivity|]. intros y. simpl. split; [tauto|].
    intros (x & [] & _).
  - destruct (H x) as (y & Hy); [auto|].
    destruct IH as (ys & Hys & Hin); [intros x' Hx'; apply H; auto|].
    rewrite Hy, Hys. simpl. exists (y :: ys). split; [reflexivity|].
    intros y'. simpl. rewrite Hin. split.
    + intros [<- | (x' & Hx' & Hf)]; [exists x; auto | exists x'; auto].
    + intros (x' & [<- | Hx'] & Hf); [left; congruence | right; exists x'; auto].
Qed.

Lemma index_in_range {A : Type} (l : list A) (j : Z) :
  (0 <= j < len l)%Z -> exists x, index l j = Ok x /\ In x l.
Proof.
  intros Hj. unfold len in Hj.
  destruct (nth_error l (Z.to_nat j)) as [x|] eqn:E.
  - exists x. split; [apply index_nonneg; [lia | exact E]|].
    eapply nth_error_In; eauto.
  - apply nth_error_None in E. lia.
Qed.

(** The method resolves to the loop over the preliminary analyses. *)
Lemma initialAnalysisPeriod_prelims lookback ps i :
  initialAnalysisPeriod (Analysis base_rule lookback (Some ps)) i
  = (offsets <- prelim_offsets ps ;; Ok (list_max0 offsets)).
Proof.
  reflexivity.
Qed.

(** Every analysis has an offset at each of its own slots. *)
Lemma initialAnalysisPeriod_total (a : analysis) :
  forall j, (0 <= j < len (lookback_days a))%Z ->
            exists o, initialAnalysisPeriod a j = Ok o.
Proof.
  induction a as [r l | r l ps IH] using analysis_induction; intros j Hj.
  - destruct r; simpl; eauto.
    destruct (@index_in_range _ l j Hj) as (x & Hx & _). eauto.
  - destruct r; [|simpl; eauto|simpl; eauto].
    rewrite initialAnalysisPeriod_prelims.
    assert (T : exists offsets, prelim_offsets ps = Ok offsets).
    { clear Hj. induction ps as [|[name p] ps IHps]; simpl; [eauto|].
      inversion IH as [|? ? Hp Hps]; subst. simpl in Hp.
      destruct (mapM_total (fun j => initialAnalysisPeriod p j)
                  (xrange 0 (len (lookback_days p)))) as (here & Hhere & _).
      { intros x Hx. apply xrange_In in Hx. apply Hp. exact Hx. }
      destruct (IHps Hps) as (rest & Hrest).
      unfold slot_offsets. rewrite Hhere, Hrest. simpl. eauto. }
    destruct T as (offsets & ->). simpl. eauto.
Qed.

Lemma prelim_offsets_spec (ps : list (string * analysis)) :
  exists offsets,
    prelim_offsets ps = Ok offsets
    /\ forall o, In o offsets <->
                 exists name p j, In (name, p) ps
                                  /\ (0 <= j < len (lookback_days p))%Z
                                  /\ initialAnalysisPeriod p j = Ok o.
Proof.
  induction ps as [|[name p] ps (rest & Hrest & Hin)]; simpl.
  - exists []. split; [reflexivity|]. intros o. simpl. split; [tauto|].
    intros (? & ? & ? & [] & _).
  - destruct (mapM_total (fun j => initialAnalysisPeriod p j)
                (xrange 0 (len (lookback_days p)))) as (here & Hhere & Hh).
    { intros x Hx. apply xrange_In in Hx. apply initialAnalysisPeriod_total. exact Hx. }
    unfold slot_offsets. rewrite Hhere, Hrest. simpl.
    exists (here ++ rest). split; [reflexivity|].
    intros o. rewrite in_app_iff, Hh, Hin. split.
    + intros [(j & Hj & Ho) | (n' & p' & j & Hp' & Hj & Ho)].
      * apply xrange_In in Hj. exists name, p, j. auto.
      * exists n', p', j. auto.
    + intros (n' & p' & j & [Heq | Hp'] & Hj & Ho).
      * inversion Heq; subst. left. exists j. split; [apply xrange_In|]; auto.
      * right. exists n', p', j. auto.
Qed.

Lemma list_max0_spec (l : list Z) :
  (forall x, In x l -> (x <= list_max0 l)%Z)
  /\ (list_max0 l = 0%Z \/ In (list_max0 l) l).
Proof.
  unfold list_max0.
  assert (G : forall l acc,
             let m := fold_left (fun mx i => if (mx <? i)%Z then i else mx) l acc in
             (acc <= m)%Z /\ (forall x, In x l -> (x <= m)%Z) /\ (m = acc \/ In m l)).
  { clear. induction l as [|y l IH]; simpl; intros acc.
    - repeat split; [lia | tauto | auto].
    - specialize (IH (if (acc <? y)%Z then y else acc)).
      simpl in IH. destruct IH as (H1 & H2 & H3).
      destruct (acc <? y)%Z eqn:E;
        [apply Z.ltb_lt in E | apply Z.ltb_ge in E].
      + repeat split; [lia | | ].
        * intros x [<- | Hx]; [lia | auto].
        * destruct H3 as [-> | H3]; auto.
      + repeat split; [lia | | ].
        * intros x [<- | Hx]; [lia | auto].
        * destruct H3 as [-> | H3]; auto. }
  destruct (G l 0%Z) as (_ & H2 & H3). split; assumption.
Qed.

Lemma index_markers (off r : Z) (rest : list pyval) :
  (0 <= r < off)%Z -> index (markers off ++ rest) r = Ok not_available.
Proof.
  intros Hr. apply index_nonneg; [lia|].
  unfold markers. rewrite nth_error_app1.
  - rewrite nth_error_map.
    destruct (nth_error (xrange 0 off) (Z.to_nat r)) eqn:E; [reflexivity|].
    apply nth_error_None in E. rewrite xrange_length in E. lia.
  - rewrite length_map, xrange_length. lia.
Qed.

End Offsets.

Section RunMarkers.

Variable St : Type.
Variable initial_period : Z -> result Z.
Variable calculation : Z -> Z -> St -> result (pyval * St).
Variable headers : list header.
Variable dates : list pyval.

(** A column is the [Date] column or starts with the markers of some
    iteration's offset. *)
Let marked (col : list pyval) : Prop :=
  col = dates \/
  exists i off rest, initial_period i = Ok off /\ col = markers off ++ rest.

Let all_marked (d : dataset) : Prop :=
  forall h col, dict_get d h = Some col -> marked col.

Lemma dict_set_marked d h col :
  all_marked d -> marked col -> all_marked (dict_set d h col).
Proof.
  intros Hd Hcol k c. rewrite dict_get_set.
  destruct (header_eqb h k); [intros E; inversion E; subst; exact Hcol | apply Hd].
Qed.

Lemma expand_marked i off results cols : forall output output',
  initial_period i = Ok off ->
  all_marked output ->
  expand headers (markers off) results cols output = Ok output' ->
  all_marked output'.
Proof.
  induction cols as [|col cols IH]; simpl; intros output output' Hoff Hd H.
  - inversion H; subst. exact Hd.
  - inv_bind H. inv_bind H. eapply IH; [exact Hoff | | exact H].
    apply dict_set_marked; [exact Hd|].
    right. exists i, off, v. auto.
Qed.

Lemma run_iteration_marked n_rows i output st output' st' :
  all_marked output ->
  run_iteration initial_period calculation headers n_rows i (output, st)
  = Ok (output', st') ->
  all_marked output'.
Proof.
  intros Hd H. unfold run_iteration in H.
  inv_bind H. rename v into off. inv_bind H. destruct v as [results st1].
  inv_bind H.
  assert (Hscalar :
            (h <- index headers (i + 1) ;;
             Ok (dict_set output h
                   (map (fun _ => not_available) (xrange 0 off) ++ results), st1))
            = Ok (output', st') -> all_marked output').
  { intros G. inv_bind G. inversion G; subst.
    apply dict_set_marked; [exact Hd|]. right. exists i, off, results. auto. }
  destruct v; try (apply Hscalar; exact H).
  inv_bind H. inversion H; subst.
  eapply expand_marked; [exact E | exact Hd | exact E2].
Qed.

Lemma run_iterations_marked n_rows slots : forall output st output' st',
  all_marked output ->
  run_iterations initial_period calculation headers n_rows slots (output, st)
  = Ok (output', st') ->
  all_marked output'.
Proof.
  induction slots as [|i slots IH]; simpl; intros output st output' st' Hd H.
  - inversion H; subst. exact Hd.
  - inv_bind H. destruct v as [output1 st1].
    eapply IH; [|exact H]. eapply run_iteration_marked; eauto.
Qed.

(** Every column [run] returns, other than the [Date] column, starts with
    as many empty cells as the offset of the iteration that wrote it. *)
Lemma run_marked iterations st output h col :
  run initial_period calculation headers dates iterations st = Ok output ->
  dict_get output h = Some col ->
  col = dates \/
  exists i off rest, initial_period i = Ok off /\ col = markers off ++ rest.
Proof.
  intros H Hget. unfold run in H. inv_bind H. inv_bind H.
  destruct v0 as [output1 st1]. inversion H; subst.
  eapply (@run_iterations_marked _ _ [(v, dates)] st output st1); [|exact E0|exact Hget].
  intros k c. simpl. destruct (header_eqb v k); [|discriminate].
  intros G. left. congruence.
Qed.

End RunMarkers.

Section OffsetTrees.

Import Instances.

Lemma transitive_preliminaries_In q r l ps :
  In q (transitive_preliminaries (Analysis r l (Some ps))) <->
  exists name p, In (name, p) ps /\ (q = p \/ In q (transitive_preliminaries p)).
Proof.
  simpl. induction ps as [|[n p] ps IH].
  - split; [intros [] | intros (? & ? & [] & _)].
  - simpl. rewrite in_app_iff, IH. split.
    + intros [<- | [H | (n' & p' & Hp & H)]].
      * exists n, p. auto.
      * exists n, p. auto.
      * exists n', p'. auto.
    + intros (n' & p' & [E | Hp] & H).
      * inversion E; subst. destruct H as [-> | H]; auto.
      * right. right. exists n', p'. auto.
Qed.

Lemma exponentially_weighted_node r l ps :
  exponentially_weighted (Analysis r l (Some ps)) = true <->
  r = exponential_rule /\
  forall name p, In (name, p) ps -> exponentially_weighted p = true.
Proof.
  destruct r; simpl; try (split; [discriminate | intros [? _]; discriminate]).
  induction ps as [|[n p] ps IH].
  - split; [intros _; split; [reflexivity | intros ? ? []] | reflexivity].
  - rewrite andb_true_iff, IH. split.
    + intros (Hp & _ & H). split; [reflexivity|].
      intros n' p' [E | Hin]; [inversion E; subst; exact Hp | eauto].
    + intros (_ & H). split; [eapply H; left; reflexivity|].
      split; [reflexivity|]. intros n' p' Hin. eapply H. right. exact Hin.
Qed.

Lemma exponentially_weighted_offset a j :
  exponentially_weighted a = true -> initialAnalysisPeriod a j = Ok 5%Z.
Proof.
  destruct a as [[] l [ps|]]; simpl; intros H; try discriminate; reflexivity.
Qed.

Lemma as_declared_slot a :
  as_declared a = true -> (0 < len (lookback_days a))%Z.
Proof.
  destruct a as [r l ps]. simpl. rewrite andb_true_iff. intros [H _].
  apply Z.ltb_lt. exact H.
Qed.

Lemma as_declared_node r l ps :
  as_declared (Analysis r l (Some ps)) = true ->
  r <> zero_rule /\
  forall name p, In (name, p) ps ->
                 as_declared p = true /\
                 (r = exponential_rule -> exponentially_weighted p = true).
Proof.
  simpl. rewrite andb_true_iff. intros [_ H].
  destruct r; [| |discriminate]; (split; [discriminate|]).
  - induction ps as [|[n p] ps IH]; [intros ? ? []|].
    apply andb_true_iff in H. destruct H as [H1 H2].
    intros n' p' [E | Hin]; [inversion E; subst | eauto].
    split; [exact H1 | discriminate].
  - induction ps as [|[n p] ps IH]; [intros ? ? []|].
    apply andb_true_iff in H. destruct H as [H1 H2].
    apply andb_true_iff in H1. destruct H1 as [H0 H1].
    intros n' p' [E | Hin]; [inversion E; subst | eauto].
    split; [exact H1 | intros _; exact H0].
Qed.

Lemma exponentially_weighted_below a :
  exponentially_weighted a = true ->
  forall q, In q (transitive_preliminaries a) -> exponentially_weighted q = true.
Proof.
  induction a as [r l | r l ps IH] using analysis_induction; intros H q Hq.
  - destruct Hq.
  - apply transitive_preliminaries_In in Hq. destruct Hq as (n & p & Hp & Hq).
    apply exponentially_weighted_node in H. destruct H as [_ H].
    rewrite Forall_forall in IH. specialize (IH _ Hp). simpl in IH.
    destruct Hq as [-> | Hq]; [eapply H; exact Hp|].
    apply IH; [eapply H; exact Hp | exact Hq].
Qed.

(** The offset of an analysis with preliminary analyses does not depend
    on the slot. *)
Lemma offset_with_preliminaries r l ps :
  r <> zero_rule ->
  exists m, forall i, initialAnalysisPeriod (Analysis r l (Some ps)) i = Ok m.
Proof.
  intros Hr. destruct r; [| |contradiction].
  - destruct (prelim_offsets_spec ps) as (offsets & Hoff & _).
    exists (list_max0 offsets). intros i.
    rewrite initialAnalysisPeriod_prelims, Hoff. reflexivity.
  - exists 5%Z. reflexivity.
Qed.

(** The offset bounds the offsets of the preliminary analyses. *)
Lemma offset_bounds_preliminaries r l ps i m :
  as_declared (Analysis r l (Some ps)) = true ->
  initialAnalysisPeriod (Analysis r l (Some ps)) i = Ok m ->
  forall name p j o,
    In (name, p) ps -> (0 <= j < len (lookback_days p))%Z ->
    initialAnalysisPeriod p j = Ok o -> (o <= m)%Z.
Proof.
  intros Hd Hm name p j o Hp Hj Ho.
  destruct (as_declared_node _ _ _ Hd) as [Hr Hps].
  destruct r; [| |contradiction].
  - destruct (prelim_offsets_spec ps) as (offsets & Hoff & Hin).
    rewrite initialAnalysisPeriod_prelims, Hoff in Hm. inversion Hm; subst.
    apply (proj1 (list_max0_spec offsets)). apply Hin. exists name, p, j. auto.
  - simpl in Hm. inversion Hm; subst.
    destruct (Hps _ _ Hp) as [_ He].
    rewrite (exponentially_weighted_offset p j (He eq_refl)) in Ho.
    inversion Ho. lia.
Qed.

Lemma offset_bounds_below a :
  as_declared a = true ->
  forall q, In q (transitive_preliminaries a) ->
  forall i m j o,
    initialAnalysisPeriod a i = Ok m ->
    (0 <= j < len (lookback_days q))%Z ->
    initialAnalysisPeriod q j = Ok o -> (o <= m)%Z.
Proof.
  induction a as [r l | r l ps IH] using analysis_induction;
    intros Hd q Hq i m j o Hm Hj Ho.
  - destruct Hq.
  - apply transitive_preliminaries_In in Hq. destruct Hq as (n & p & Hp & Hq).
    destruct (as_declared_node _ _ _ Hd) as [Hr Hps].
    destruct (Hps _ _ Hp) as [Hdp Hep].
    destruct Hq as [-> | Hq].
    + eapply offset_bounds_preliminaries; eauto.
    + rewrite Forall_forall in IH. specialize (IH _ Hp). simpl in IH.
      pose proof (as_declared_slot _ Hdp) as Hslot.
      destruct (@initialAnalysisPeriod_total p 0%Z) as (m' & Hm'); [lia|].
      apply Z.le_trans with m'.
      * eapply (IH Hdp q Hq 0%Z m' j o); eauto.
      * eapply (@offset_bounds_preliminaries r l ps i m Hd Hm n p 0%Z m'); eauto. lia.
Qed.

(** The offset is one of the offsets of the preliminary analyses, unless
    it is 0 and all of these are negative. *)
Lemma offset_attained r l ps i m :
  as_declared (Analysis r l (Some ps)) = true ->
  ps <> [] ->
  initialAnalysisPeriod (Analysis r l (Some ps)) i = Ok m ->
  (exists name p j, In (name, p) ps /\ (0 <= j < len (lookback_days p))%Z
                    /\ initialAnalysisPeriod p j = Ok m)
  \/ (m = 0%Z /\
      forall name p j o, In (name, p) ps -> (0 <= j < len (lookback_days p))%Z ->
                         initialAnalysisPeriod p j = Ok o -> (o < 0)%Z).
Proof.
  intros Hd Hne Hm.
  destruct (as_declared_node _ _ _ Hd) as [Hr Hps].
  destruct r; [| |contradiction].
  - destruct (prelim_offsets_spec ps) as (offsets & Hoff & Hin).
    rewrite initialAnalysisPeriod_prelims, Hoff in Hm. inversion Hm; subst.
    destruct (list_max0_spec offsets) as (Hle & [H0 | Hmax]).
    + destruct (in_dec Z.eq_dec 0%Z offsets) as [Hz | Hz].
      * left. rewrite H0. apply Hin. exact Hz.
      * right. split; [exact H0|].
        intros name p j o Hp Hj Ho.
        assert (Ho' : In o offsets) by (apply Hin; exists name, p, j; auto).
        pose proof (Hle _ Ho').
        assert (o <> 0%Z) by (intros ->; contradiction).
        lia.
    + left. apply Hin. exact Hmax.
  - left. simpl in Hm. inversion Hm; subst.
    destruct ps as [|[n p] ps]; [contradiction|].
    destruct (Hps n p (or_introl eq_refl)) as [Hdp He].
    pose proof (as_declared_slot _ Hdp).
    exists n, p, 0%Z. split; [left; reflexivity|]. split; [lia|].
    apply exponentially_weighted_offset. apply He. reflexivity.
Qed.

(** Every class of [price.py] builds a tree of the declared shape. *)
Lemma analysis_of_as_declared (c : indicator) (lookback : list Z) :
  lookback <> [] -> as_declared (analysis_of c lookback) = true.
Proof.
  intros Hne.
  assert (H : (0 <? len lookback)%Z = true).
  { apply Z.ltb_lt. unfold len. destruct lookback; [contradiction|]. simpl. lia. }
  destruct c; simpl; rewrite ?H; reflexivity.
Qed.

(** So does a class with the base method, such as a trading system, over
    preliminary analyses of that shape. *)
Lemma base_rule_as_declared (lookback : list Z) (ps : list (string * analysis)) :
  lookback <> [] ->
  (forall name p, In (name, p) ps -> as_declared p = true) ->
  as_declared (Analysis base_rule lookback (Some ps)) = true.
Proof.
  intros Hne Hps. simpl.
  assert (H : (0 <? len lookback)%Z = true).
  { apply Z.ltb_lt. unfold len. destruct lookback; [contradiction|]. simpl. lia. }
  rewrite H. simpl.
  induction ps as [|[n p] ps IH]; [reflexivity|].
  rewrite (Hps n p (or_introl eq_refl)). simpl.
  apply IH. intros n' p' Hin. eapply Hps. right. exact Hin.
Qed.

End OffsetTrees.

Section OffsetClaim.

Import Instances.



End OffsetClaim.

(* ################################################################# *)
(** * The row loop over a range, and windows of a column *)

Section RowLoop.

Lemma xrange_nil (a b : Z) : (b <= a)%Z -> xrange a b = [].
Proof.
  intros H. unfold xrange. replace (Z.to_nat (b - a)) with 0%nat by lia. reflexivity.
Qed.

Lemma xrange_cons (a b : Z) : (a < b)%Z -> xrange a b = a :: xrange (a + 1) b.
Proof.
  intros H. unfold xrange.
  replace (Z.to_nat (b - a)) with (S (Z.to_nat (b - (a + 1)))) by lia.
  simpl. f_equal; [lia|].
  rewrite <- seq_shift, map_map. apply map_ext. intros k. lia.
Qed.

Lemma index_nth {A : Type} (l : list A) (j : Z) (x : A) :
  (0 <= j)%Z -> index l j = Ok x -> nth_error l (Z.to_nat j) = Some x.
Proof.
  intros Hj. unfold index.
  destruct (j <? 0)%Z eqn:E; [apply Z.ltb_lt in E; lia|].
  destruct ((0 <=? j)%Z && (j <? Z.of_nat (length l))%Z); [|discriminate].
  destruct (nth_error l (Z.to_nat j)); [|discriminate].
  intros H. inversion H. reflexivity.
Qed.

Variable St : Type.
Variable calculation : Z -> Z -> St -> result (pyval * St).

(** If every row of the range returns, keeping an invariant indexed by the
    row, the loop returns, and each collected value is the one of its row. *)
Lemma calc_rows_xrange (Inv : Z -> St -> Prop) (Post : Z -> pyval -> Prop) (i b : Z) :
  (forall row st, (row < b)%Z -> Inv row st ->
                  exists v st', calculation i row st = Ok (v, st')
                                /\ Inv (row + 1)%Z st' /\ Post row v) ->
  forall (n : nat) (a : Z) (st : St),
    Z.to_nat (b - a) = n ->
    Inv a st ->
    exists outs st',
      calc_rows calculation i (xrange a b) st = Ok (outs, st')
      /\ forall row, (a <= row < b)%Z ->
                     exists v, nth_error outs (Z.to_nat (row - a)) = Some v
                               /\ Post row v.
Proof.
  intros Hstep n. induction n as [|n IH]; intros a st Hn Ha.
  - rewrite xrange_nil by lia. simpl. exists [], st. split; [reflexivity|].
    intros row Hrow. lia.
  - rewrite xrange_cons by lia. simpl.
    destruct (Hstep a st) as (v & st1 & Hc & Hinv & Hpost); [lia | exact Ha |].
    rewrite Hc. simpl.
    destruct (IH (a + 1)%Z st1) as (outs & st' & Hrows & Houts); [lia | exact Hinv |].
    rewrite Hrows. simpl. exists (v :: outs), st'. split; [reflexivity|].
    intros row Hrow.
    destruct (Z.eq_dec row a) as [-> | Hne].
    + replace (Z.to_nat (a - a)) with 0%nat by lia. simpl. eauto.
    + destruct (Houts row) as (w & Hw & Hp); [lia|].
      replace (Z.to_nat (row - a)) with (S (Z.to_nat (row - (a + 1)))) by lia.
      simpl. eauto.
Qed.

End RowLoop.

Section Windows.

Variable A : Type.

Lemma firstn_succ_nth (c : list A) (k : nat) (x : A) :
  nth_error c k = Some x -> firstn (S k) c = firstn k c ++ [x].
Proof.
  revert c. induction k as [|k IH]; intros [|a c] H; simpl in H; try discriminate.
  - inversion H. reflexivity.
  - simpl. f_equal. apply IH. exact H.
Qed.

(** Dropping the oldest value of a window and appending the next value of
    the column gives the next window. *)
Lemma window_shift (c : list A) (k n : nat) (x : A) :
  (1 <= n)%nat ->
  nth_error c (k + n) = Some x ->
  tl (firstn n (skipn k c) ++ [x]) = firstn n (skipn (S k) c).
Proof.
  intros Hn. revert c. induction k as [|k IH]; intros [|a c] H;
    try (destruct n; simpl in H; discriminate).
  - destruct n as [|n]; [lia|]. simpl in H. simpl skipn.
    rewrite (firstn_succ_nth _ _ H). reflexivity.
  - simpl in H. change (skipn (S k) (a :: c)) with (skipn k c).
    change (skipn (S (S k)) (a :: c)) with (skipn (S k) c).
    apply IH. exact H.
Qed.

Lemma window_length (c : list A) (k n : nat) :
  (k + n <= length c)%nat -> length (firstn n (skipn k c)) = n.
Proof.
  intros H. rewrite length_firstn, length_skipn. lia.
Qed.

End Windows.

(* ################################################################# *)
(** * [MMAX] / [MMIN] on a fresh object: the first lookback slot *)

Section ExtremeOrder.

Import Price.

(** The order [__test__] decides: [test v e = true] when [v] is strictly
    beyond [e]. *)
Variable le : Q -> Q -> Prop.
Variable test : Q -> Q -> bool.
Hypothesis test_true : forall v e, test v e = true -> le e v.
Hypothesis test_false : forall v e, test v e = false -> le v e.
Hypothesis le_eq : forall x y, x == y -> le x y.
Hypothesis le_trans : forall x y z, le x y -> le y z -> le x z.

Lemma is_extreme_single (x : Q) : MMAX.is_extreme le x [x].
Proof.
  split.
  - exists x. split; [left; reflexivity | reflexivity].
  - intros y [<- | []]. apply le_eq. reflexivity.
Qed.

Lemma is_extreme_step (e x : Q) (w : list Q) :
  MMAX.is_extreme le e w ->
  MMAX.is_extreme le (if test x e then x else e) (w ++ [x]).
Proof.
  intros [(y & Hy & Hye) Hall]. destruct (test x e) eqn:E.
  - apply test_true in E. split.
    + exists x. split; [apply in_or_app; right; left; reflexivity | reflexivity].
    + intros z Hz. apply in_app_or in Hz. destruct Hz as [Hz | [<- | []]].
      * eapply le_trans; [apply Hall; exact Hz | exact E].
      * apply le_eq. reflexivity.
  - apply test_false in E. split.
    + exists y. split; [apply in_or_app; left; exact Hy | exact Hye].
    + intros z Hz. apply in_app_or in Hz. destruct Hz as [Hz | [<- | []]].
      * apply Hall. exact Hz.
      * exact E.
Qed.

Lemma is_extreme_same_elements (m : Q) (w w' : list Q) :
  (forall x, In x w <-> In x w') ->
  MMAX.is_extreme le m w -> MMAX.is_extreme le m w'.
Proof.
  intros Heq [(y & Hy & Hye) Hall]. split.
  - exists y. split; [apply Heq; exact Hy | exact Hye].
  - intros z Hz. apply Hall, Heq. exact Hz.
Qed.

Lemma is_extreme_drop (e o : Q) (w : list Q) :
  MMAX.is_extreme le e (o :: w) -> ~ o == e -> MMAX.is_extreme le e w.
Proof.
  intros [(y & [<- | Hy] & Hye) Hall] Hne.
  - contradiction.
  - split; [exists y; auto|]. intros z Hz. apply Hall. right. exact Hz.
Qed.

Lemma rescan_extreme (l : list Q) : forall (e : Q) (w : list Q),
  MMAX.is_extreme le e w ->
  MMAX.is_extreme le (MMAX.rescan test l e) (w ++ l).
Proof.
  unfold MMAX.rescan. induction l as [|x l IH]; simpl; intros e w H.
  - rewrite app_nil_r. exact H.
  - replace (w ++ x :: l) with ((w ++ [x]) ++ l)
      by (rewrite <- app_assoc; reflexivity).
    apply IH. apply is_extreme_step. exact H.
Qed.

(** The rescan of the buffer, started from its first value. *)
Lemma rescan_buffer (e0 : Q) (rest : list Q) :
  MMAX.is_extreme le (MMAX.rescan test (e0 :: rest) e0) (e0 :: rest).
Proof.
  apply is_extreme_same_elements with (w := [e0] ++ e0 :: rest).
  - intros x. simpl. tauto.
  - apply rescan_extreme. apply is_extreme_single.
Qed.

Section SingleSlot.

Variable column : list Q.
Variable N : Z.
Hypothesis N_range : (1 <= N < len column)%Z.

Lemma column_nth (r : Z) :
  (0 <= r < len column)%Z ->
  exists x, index column r = Ok x /\ nth_error column (Z.to_nat r) = Some x.
Proof.
  intros Hr. destruct (index_in_range column Hr) as (x & Hx & _).
  exists x. split; [exact Hx | apply index_nth; [lia | exact Hx]].
Qed.

(** The loop of the first step fills the buffer with the first [N] values
    and leaves their extreme in [self.__extreme__]. *)
Lemma first_step_fills (n : nat) : forall (k : nat) (st : MMAX.state),
  (Z.to_nat N - k)%nat = n ->
  (1 <= k <= Z.to_nat N)%nat ->
  MMAX.lookback_values st = firstn k column ->
  MMAX.is_extreme le (MMAX.extreme st) (firstn k column) ->
  exists st',
    MMAX.first_step test column (xrange (Z.of_nat k) N) 0 st = Ok st'
    /\ MMAX.lookback_values st' = firstn (Z.to_nat N) column
    /\ MMAX.is_extreme le (MMAX.extreme st') (firstn (Z.to_nat N) column).
Proof.
  induction n as [|n IH]; intros k st Hn Hk Hval Hext.
  - rewrite xrange_nil by lia. simpl. exists st.
    replace (Z.to_nat N) with k by lia. auto.
  - rewrite xrange_cons by lia. simpl. unfold MMAX.variable.
    destruct (@column_nth (Z.of_nat k)) as (x & Hx & Hnth); [unfold len in *; lia|].
    rewrite Hx. simpl. rewrite Nat2Z.id in Hnth.
    replace (Z.of_nat k + 1)%Z with (Z.of_nat (S k)) by lia.
    apply IH; try lia.
    + simpl MMAX.lookback_values. rewrite Hval. symmetry.
      apply firstn_succ_nth. exact Hnth.
    + simpl MMAX.extreme. rewrite (firstn_succ_nth _ _ Hnth).
      apply is_extreme_step. exact Hext.
Qed.

(** The state between two rows of the loop of [run]. *)
Let between (row : Z) (st : MMAX.state) : Prop :=
  (row = N /\ MMAX.lookback_values st = [])
  \/ ((N < row)%Z
      /\ MMAX.lookback_values st = MMAX.window column N (row - 1)
      /\ MMAX.is_extreme le (MMAX.extreme st) (MMAX.lookback_values st)).

Let returned (row : Z) (v : pyval) : Prop :=
  exists q, v = PyFloat q /\ MMAX.is_extreme le q (MMAX.window column N row).

Lemma calculation_first_row (st : MMAX.state) :
  MMAX.lookback_values st = [] ->
  exists v st',
    MMAX.calculation test column [N] 0 N st = Ok (v, st')
    /\ between (N + 1) st' /\ returned N v.
Proof.
  intros Hempty. unfold MMAX.calculation.
  change (MMAX.initial_period [N] 0) with (Ok (A := Z) N). simpl.
  rewrite Z.eqb_refl. unfold MMAX.variable at 1.
  destruct (@column_nth 0%Z) as (x0 & Hx0 & Hnth0); [lia|].
  rewrite Hx0. simpl. rewrite Hempty. simpl.
  destruct (@first_step_fills (Z.to_nat N - 1) 1
              {| MMAX.lookback_values := [x0]; MMAX.extreme := x0 |})
    as (st' & Hst' & Hval & Hext); simpl; try lia.
  - simpl in Hnth0. destruct column; [discriminate|]. simpl in *. congruence.
  - simpl in Hnth0. destruct column; [discriminate|]. simpl in *.
    inversion Hnth0; subst. apply is_extreme_single.
  - change (Z.of_nat 1) with 1%Z in Hst'. rewrite Hst'. simpl.
    exists (PyFloat (MMAX.extreme st')), st'. split; [reflexivity|].
    assert (W : MMAX.window column N N = firstn (Z.to_nat N) column).
    { unfold MMAX.window. replace (Z.to_nat (N - N)) with 0%nat by lia. reflexivity. }
    split.
    + right. replace (N + 1 - 1)%Z with N by lia.
      split; [lia|]. split; [congruence | rewrite Hval; exact Hext].
    + exists (MMAX.extreme st'). rewrite W. auto.
Qed.

Lemma calculation_next_row (row : Z) (st : MMAX.state) :
  (N < row < len column)%Z ->
  MMAX.lookback_values st = MMAX.window column N (row - 1) ->
  MMAX.is_extreme le (MMAX.extreme st) (MMAX.lookback_values st) ->
  exists v st',
    MMAX.calculation test column [N] 0 row st = Ok (v, st')
    /\ between (row + 1) st' /\ returned row v.
Proof.
  intros Hrow Hval Hext. unfold MMAX.calculation.
  change (MMAX.initial_period [N] 0) with (Ok (A := Z) N). simpl.
  destruct (row =? N)%Z eqn:E; [apply Z.eqb_eq in E; lia|]. clear E.
  unfold MMAX.variable.
  destruct (@column_nth (row - 1)%Z) as (x & Hx & Hnth); [lia|].
  rewrite Hx. simpl.
  set (n := Z.to_nat N). set (k := Z.to_nat (row - 1 - N)).
  assert (Hn : (1 <= n)%nat) by (unfold n; lia).
  assert (Hshift : tl (MMAX.lookback_values st ++ [x]) = MMAX.window column N row).
  { rewrite Hval. unfold MMAX.window. fold n. fold k.
    replace (Z.to_nat (row - N)) with (S k) by (unfold k; lia).
    apply window_shift; [exact Hn|].
    replace (k + n)%nat with (Z.to_nat (row - 1)) by (unfold k, n; lia). exact Hnth. }
  assert (Hlen : length (MMAX.lookback_values st) = n).
  { rewrite Hval. unfold MMAX.window. fold n. apply window_length.
    unfold len in *. unfold n. lia. }
  destruct (MMAX.lookback_values st) as [|o w] eqn:Hbuf; [simpl in Hlen; lia|].
  rewrite (index_nonneg ((o :: w) ++ [x]) (i := 0) (x := o)); [|lia|reflexivity].
  simpl. simpl in Hshift.
  destruct (Qeq_bool o (MMAX.extreme st)) eqn:Eq.
  - destruct (w ++ [x]) as [|e0 rest] eqn:Hw; [destruct w; discriminate|].
    rewrite (index_nonneg (e0 :: rest) (i := 0) (x := e0)); [|lia|reflexivity].
    cbv beta iota delta [bind].
    eexists. eexists. split; [reflexivity|].
    pose proof (rescan_buffer e0 rest) as Hres.
    split.
    + right. cbn [MMAX.lookback_values MMAX.extreme].
      replace (row + 1 - 1)%Z with row by lia.
      rewrite <- Hshift. split; [lia | split; [reflexivity | exact Hres]].
    + eexists. split; [reflexivity|]. cbn [MMAX.lookback_values MMAX.extreme].
      rewrite <- Hshift. exact Hres.
  - assert (Hne : ~ o == MMAX.extreme st).
    { intros Ho. apply Qeq_bool_iff in Ho. congruence. }
    pose proof (is_extreme_step x (is_extreme_drop Hext Hne)) as Hres.
    cbv beta iota delta [bind].
    eexists. eexists. split; [reflexivity|].
    split.
    + right. cbn [MMAX.lookback_values MMAX.extreme].
      replace (row + 1 - 1)%Z with row by lia.
      rewrite <- Hshift. split; [lia | split; [reflexivity | exact Hres]].
    + eexists. split; [reflexivity|]. cbn [MMAX.lookback_values MMAX.extreme].
      rewrite <- Hshift. exact Hres.
Qed.

(** On a fresh object with one lookback window [N], the row loop of [run]
    returns, and the value of every row from [N] on is the extreme of the
    [N] rows before it. *)
Lemma single_slot_correct :
  exists outs st',
    calc_rows (MMAX.calculation test column [N]) 0 (xrange N (len column))
              MMAX.init_state = Ok (outs, st')
    /\ forall row, (N <= row < len column)%Z ->
                   exists q, nth_error outs (Z.to_nat (row - N)) = Some (PyFloat q)
                             /\ MMAX.is_extreme le q (MMAX.window column N row).
Proof.
  destruct (@calc_rows_xrange _ (MMAX.calculation test column [N])
              between returned 0 (len column))
    with (n := Z.to_nat (len column - N)) (a := N) (st := MMAX.init_state)
    as (outs & st' & Hrun & Hout).
  - intros row st Hrow [[-> Hempty] | (Hlt & Hval & Hext)].
    + apply calculation_first_row. exact Hempty.
    + apply calculation_next_row; [lia | exact Hval | exact Hext].
  - reflexivity.
  - left. split; reflexivity.
  - exists outs, st'. split; [exact Hrun|].
    intros row Hrow. destruct (Hout row Hrow) as (v & Hv & q & -> & Hq). eauto.
Qed.

End SingleSlot.

End ExtremeOrder.

Section FirstSlot.

Import Price.

(** [run] with one lookback window, from the rows its loop collects. *)
Lemma MMAX_run_single_slot (test : Q -> Q -> bool) (column : list Q)
      (analysis_type : string) (N : Z) (dates outs : list pyval)
      (st' : MMAX.state) (q : Q) :
  len dates = len column ->
  calc_rows (MMAX.calculation test column [N]) 0 (xrange N (len column))
            MMAX.init_state = Ok (outs, st') ->
  nth_error outs 0 = Some (PyFloat q) ->
  MMAX.run test column analysis_type [N] dates
  = Ok [(Named "Date", dates); (Col analysis_type N, markers N ++ outs)].
Proof.
  intros Hlen Hrows Hfirst.
  unfold MMAX.run, run, MMAX.headers.
  rewrite (index_nonneg _ (i := 0) (x := Named "Date")); [|lia|reflexivity].
  cbv beta iota delta [bind].
  change (xrange 0 (len [N])) with [0%Z].
  cbn [run_iterations]. unfold run_iteration.
  change (MMAX.initial_period [N] 0) with (Ok (A := Z) N).
  cbv beta iota delta [bind].
  rewrite Hlen, Hrows.
  rewrite (index_nonneg outs (i := 0) (x := PyFloat q)); [|lia|exact Hfirst].
  reflexivity.
Qed.

(** X1.  [MMAX] on a fresh object with one window [N]: the run returns, the
    rows before [N] are empty and every row from [N] on holds the greatest
    of the [N] highs before it. *)
Lemma MMAX_single_slot (High : list Q) (N : Z) (dates : list pyval) :
  (1 <= N < len High)%Z ->
  len dates = len High ->
  exists outs,
    MMAX.MMAX_run High [N] dates
    = Ok [(Named "Date", dates); (Col "MMAX" N, markers N ++ outs)]
    /\ forall row, (N <= row < len High)%Z ->
                   exists q, nth_error outs (Z.to_nat (row - N)) = Some (PyFloat q)
                             /\ MMAX.is_max q (MMAX.window High N row).
Proof.
  intros HN Hlen.
  destruct (@single_slot_correct (fun x m => x <= m) MMAX.test_max) with
    (column := High) (N := N) as (outs & st' & Hrows & Hout).
  - intros v e H. apply Qltb_lt in H. apply Qlt_le_weak. exact H.
  - intros v e H. apply Qltb_ge in H. exact H.
  - intros x y H. rewrite H. apply Qle_refl.
  - intros x y z. apply Qle_trans.
  - exact HN.
  - exists outs. split; [|exact Hout].
    destruct (Hout N) as (q & Hq & _); [lia|].
    replace (Z.to_nat (N - N)) with 0%nat in Hq by lia.
    unfold MMAX.MMAX_run.
    exact (@MMAX_run_single_slot MMAX.test_max High "MMAX" N dates outs st' q
             Hlen Hrows Hq).
Qed.

(** X2.  [MMIN] on a fresh object with one window [N]: the run returns, the
    rows before [N] are empty and every row from [N] on holds the least of
    the [N] lows before it. *)
Lemma MMIN_single_slot (Low : list Q) (N : Z) (dates : list pyval) :
  (1 <= N < len Low)%Z ->
  len dates = len Low ->
  exists outs,
    MMAX.MMIN_run Low [N] dates
    = Ok [(Named "Date", dates); (Col "MMIN" N, markers N ++ outs)]
    /\ forall row, (N <= row < len Low)%Z ->
                   exists q, nth_error outs (Z.to_nat (row - N)) = Some (PyFloat q)
                             /\ MMAX.is_min q (MMAX.window Low N row).
Proof.
  intros HN Hlen.
  destruct (@single_slot_correct (fun x m => m <= x) MMAX.test_min) with
    (column := Low) (N := N) as (outs & st' & Hrows & Hout).
  - intros v e H. apply Qltb_lt in H. apply Qlt_le_weak. exact H.
  - intros v e H. apply Qltb_ge in H. exact H.
  - intros x y H. rewrite H. apply Qle_refl.
  - intros x y z H1 H2. eapply Qle_trans; eauto.
  - exact HN.
  - exists outs. split; [|exact Hout].
    destruct (Hout N) as (q & Hq & _); [lia|].
    replace (Z.to_nat (N - N)) with 0%nat in Hq by lia.
    unfold MMAX.MMIN_run.
    exact (@MMAX_run_single_slot MMAX.test_min Low "MMIN" N dates outs st' q
             Hlen Hrows Hq).
Qed.

End FirstSlot.

(* ################################################################# *)
(** * [__rowAtDate__]: when the loop returns and when it does not *)

Section RowLookupGeneral.

Import Analysis.

Lemma index_wraps {A : Type} (l : list A) (i : Z) :
  (- len l <= i < len l)%Z -> exists x, index l i = Ok x.
Proof.
  intros Hi. unfold index, len in *.
  destruct (i <? 0)%Z eqn:E; [apply Z.ltb_lt in E | apply Z.ltb_ge in E].
  - replace ((0 <=? i + Z.of_nat (length l))%Z
             && (i + Z.of_nat (length l) <? Z.of_nat (length l))%Z) with true
      by (symmetry; apply andb_true_iff; split; [apply Z.leb_le | apply Z.ltb_lt]; lia).
    destruct (nth_error l (Z.to_nat (i + Z.of_nat (length l)))) eqn:En; [eauto|].
    apply nth_error_None in En. lia.
  - replace ((0 <=? i)%Z && (i <? Z.of_nat (length l))%Z) with true
      by (symmetry; apply andb_true_iff; split; [apply Z.leb_le | apply Z.ltb_lt]; lia).
    destruct (nth_error l (Z.to_nat i)) eqn:En; [eauto|].
    apply nth_error_None in En. lia.
Qed.

Lemma ascending_head (d : Z) (rest : list Z) :
  ascending (d :: rest) ->
  forall j b, nth_error rest j = Some b -> (d < b)%Z.
Proof.
  revert d. induction rest as [|d' rest IH]; intros d Hasc j b Hj.
  - destruct j; discriminate.
  - simpl in Hasc. destruct Hasc as [Hlt Hrest]. destruct j as [|j]; simpl in Hj.
    + inversion Hj; subst. exact Hlt.
    + pose proof (IH d' Hrest j b Hj). lia.
Qed.

Lemma ascending_tail (d : Z) (rest : list Z) :
  ascending (d :: rest) -> ascending rest.
Proof. destruct rest; simpl; [auto | intros [_ H]; exact H]. Qed.

Lemma ascending_nth (Date : list Z) :
  ascending Date ->
  forall i j a b, (i < j)%nat ->
                  nth_error Date i = Some a -> nth_error Date j = Some b ->
                  (a < b)%Z.
Proof.
  induction Date as [|d rest IH]; intros Hasc i j a b Hij Hi Hj.
  - destruct i; discriminate.
  - destruct j as [|j]; [lia|]. simpl in Hj. destruct i as [|i]; simpl in Hi.
    + inversion Hi; subst. eapply ascending_head; eauto.
    + eapply (IH (ascending_tail _ _ Hasc) i j); eauto. lia.
Qed.

Variable Date : list Z.
Hypothesis Date_ascending : ascending Date.

Lemma index_ascending (i j a b : Z) :
  (0 <= i < j)%Z -> index Date i = Ok a -> index Date j = Ok b -> (a < b)%Z.
Proof.
  intros Hij Hi Hj.
  apply index_nth in Hi; [|lia]. apply index_nth in Hj; [|lia].
  apply (@ascending_nth Date Date_ascending (Z.to_nat i) (Z.to_nat j) a b);
    [lia | exact Hi | exact Hj].
Qed.

Lemma index_ascending_le (i j a b : Z) :
  (0 <= i <= j)%Z -> index Date i = Ok a -> index Date j = Ok b -> (a <= b)%Z.
Proof.
  intros Hij Hi Hj. destruct (Z.eq_dec i j) as [-> | Hne].
  - rewrite Hi in Hj. inversion Hj. lia.
  - assert (a < b)%Z by (apply (@index_ascending i j); auto; lia). lia.
Qed.

Variable test_date : Z.

(** A pass of the loop with every date up to [upper - 1] before the target
    moves [lower] to [middle] and leaves [upper] alone. *)
Lemma search_step_below (lower upper last_but_one : Z) :
  (0 <= lower < upper)%Z -> (upper < len Date)%Z ->
  index Date (upper - 1) = Ok last_but_one ->
  (last_but_one < test_date)%Z ->
  exists middle,
    (lower <= middle < upper)%Z
    /\ search_step Date test_date lower upper = Ok (inr (middle, upper)).
Proof.
  intros Hl Hu Hd1 Hlt. unfold search_step.
  set (middle := ((lower + upper) / 2)%Z).
  assert (Hm : (lower <= middle < upper)%Z).
  { unfold middle. split.
    - apply Z.div_le_lower_bound; lia.
    - apply Z.div_lt_upper_bound; lia. }
  exists middle. split; [exact Hm|].
  destruct (@index_wraps _ Date (middle - 1)) as (before & Hb); [lia|].
  destruct (@index_wraps _ Date middle) as (here & Hh); [lia|].
  assert (Hhere : (here <= last_but_one)%Z)
    by (apply (@index_ascending_le middle (upper - 1)); auto; lia).
  rewrite Hb, Hh. cbv beta iota delta [bind].
  assert (E1 : (here >=? test_date)%Z = false)
    by (rewrite Z.geb_leb; apply Z.leb_gt; lia).
  assert (E2 : (here <? test_date)%Z = true) by (apply Z.ltb_lt; lia).
  destruct (before <? test_date)%Z; rewrite ?E1, E2; reflexivity.
Qed.

Lemma search_below_never_returns (upper last_but_one : Z) :
  (upper < len Date)%Z ->
  index Date (upper - 1) = Ok last_but_one ->
  (last_but_one < test_date)%Z ->
  forall fuel lower, (0 <= lower < upper)%Z ->
                     search Date fuel test_date lower upper = None.
Proof.
  intros Hu Hd1 Hlt fuel. induction fuel as [|fuel IH]; intros lower Hl; simpl.
  - reflexivity.
  - destruct (search_step_below Hl Hu Hd1 Hlt) as (middle & Hm & ->).
    apply IH. lia.
Qed.

(** X4.  The lookup does not return when the target date lies strictly between
    the dates of the last two rows. *)
Lemma rowAtDate_between_last_rows (initial_period last_but_one last : Z) :
  (0 <= initial_period < len Date - 1)%Z ->
  index Date (len Date - 2) = Ok last_but_one ->
  index Date (len Date - 1) = Ok last ->
  (last_but_one < test_date < last)%Z ->
  forall fuel, rowAtDate Date fuel initial_period test_date = None.
Proof.
  intros Hp Hd1 Hd2 Ht fuel. unfold rowAtDate.
  destruct (@index_wraps _ Date initial_period) as (first & Hf); [lia|].
  assert (Hfirst : (first <= last_but_one)%Z)
    by (apply (@index_ascending_le initial_period (len Date - 2)); auto; lia).
  rewrite Hf, Hd2.
  replace (first >=? test_date)%Z with false
    by (symmetry; rewrite Z.geb_leb; apply Z.leb_gt; lia).
  replace (last <=? test_date)%Z with false by (symmetry; apply Z.leb_gt; lia).
  apply search_below_never_returns with (last_but_one := last_but_one); try lia.
  replace (len Date - 1 - 1)%Z with (len Date - 2)%Z by lia. exact Hd1.
Qed.

(** With the date at [lower] before the target and the date at [upper - 1]
    on or after it, the loop returns within [upper - lower] passes, and
    returns the first row whose date is on or after the target. *)
Lemma search_returns (fuel : nat) : forall lower upper low high,
  (Z.to_nat (upper - lower) <= fuel)%nat ->
  (0 <= lower < upper)%Z -> (upper < len Date)%Z ->
  index Date lower = Ok low -> (low < test_date)%Z ->
  index Date (upper - 1) = Ok high -> (test_date <= high)%Z ->
  exists row before here,
    search Date fuel test_date lower upper = Some (Ok row)
    /\ (lower < row < upper)%Z
    /\ index Date (row - 1) = Ok before /\ (before < test_date)%Z
    /\ index Date row = Ok here /\ (test_date <= here)%Z.
Proof.
  induction fuel as [|fuel IH]; intros lower upper low high Hfuel Hl Hu Hlow Hlt Hhigh Hge.
  - lia.
  - assert (Hgap : (lower < upper - 1)%Z).
    { destruct (Z_lt_le_dec lower (upper - 1)) as [|Hle]; [assumption|].
      assert (high <= low)%Z
        by (apply (@index_ascending_le (upper - 1) lower); auto; lia).
      lia. }
    simpl. unfold search_step.
    set (middle := ((lower + upper) / 2)%Z).
    assert (Hm : (lower < middle < upper)%Z)
      by (unfold middle; Z.div_mod_to_equations; lia).
    destruct (@index_wraps _ Date (middle - 1)) as (before & Hb); [lia|].
    destruct (@index_wraps _ Date middle) as (here & Hh); [lia|].
    rewrite Hb, Hh. cbv beta iota delta [bind].
    destruct (before <? test_date)%Z eqn:Eb;
      [apply Z.ltb_lt in Eb | apply Z.ltb_ge in Eb].
    + destruct (here >=? test_date)%Z eqn:Eh.
      * rewrite Z.geb_leb in Eh. apply Z.leb_le in Eh.
        exists middle, before, here. repeat split; auto; lia.
      * rewrite Z.geb_leb in Eh. apply Z.leb_gt in Eh.
        replace (here <? test_date)%Z with true by (symmetry; apply Z.ltb_lt; lia).
        destruct (IH middle upper here high) as (row & b & h & Hs & Hr & Hrest);
          auto; try lia.
        exists row, b, h. split; [exact Hs|]. split; [lia | exact Hrest].
    + assert (Hhere : (before < here)%Z)
        by (apply (@index_ascending (middle - 1) middle); auto; lia).
      replace (here <? test_date)%Z with false by (symmetry; apply Z.ltb_ge; lia).
      destruct (IH lower middle low before) as (row & b & h & Hs & Hr & Hrest);
        auto; try lia.
      exists row, b, h. split; [exact Hs|]. split; [lia | exact Hrest].
Qed.

(** X3.  On strictly ascending dates the lookup returns the first row on or
    after the target date: the starting row when the target is not after
    its date, the last row when the target is not before the last date (a
    target after every date is clamped to the last row), and otherwise, when
    the target is not after the last date but one, the one row whose date
    is on or after the target while the date of the row before is not. *)
Lemma rowAtDate_returns (initial_period first last : Z) :
  (0 <= initial_period <= len Date - 1)%Z ->
  index Date initial_period = Ok first ->
  index Date (len Date - 1) = Ok last ->
  ((test_date <= first)%Z ->
   forall fuel, rowAtDate Date fuel initial_period test_date = Some (Ok initial_period))
  /\ ((first < test_date)%Z -> (last <= test_date)%Z ->
      forall fuel, rowAtDate Date fuel initial_period test_date
                   = Some (Ok (len Date - 1)%Z))
  /\ (forall last_but_one,
         (first < test_date < last)%Z ->
         index Date (len Date - 2) = Ok last_but_one ->
         (test_date <= last_but_one)%Z ->
         exists fuel row before here,
           rowAtDate Date fuel initial_period test_date = Some (Ok row)
           /\ (initial_period < row < len Date - 1)%Z
           /\ index Date (row - 1) = Ok before /\ (before < test_date)%Z
           /\ index Date row = Ok here /\ (test_date <= here)%Z).
Proof.
  intros Hp Hf Hl. unfold rowAtDate. rewrite Hf, Hl. split; [|split].
  - intros H fuel.
    replace (first >=? test_date)%Z with true
      by (symmetry; rewrite Z.geb_leb; apply Z.leb_le; lia).
    reflexivity.
  - intros H1 H2 fuel.
    replace (first >=? test_date)%Z with false
      by (symmetry; rewrite Z.geb_leb; apply Z.leb_gt; lia).
    replace (last <=? test_date)%Z with true by (symmetry; apply Z.leb_le; lia).
    reflexivity.
  - intros last_but_one Ht Hd1 Hge.
    replace (first >=? test_date)%Z with false
      by (symmetry; rewrite Z.geb_leb; apply Z.leb_gt; lia).
    replace (last <=? test_date)%Z with false by (symmetry; apply Z.leb_gt; lia).
    assert (initial_period <> len Date - 1)%Z
      by (intros ->; rewrite Hf in Hl; inversion Hl; lia).
    exists (Z.to_nat (len Date - 1 - initial_period)).
    apply search_returns with (low := first) (high := last_but_one);
      auto; try lia.
    replace (len Date - 1 - 1)%Z with (len Date - 2)%Z by lia. exact Hd1.
Qed.

End RowLookupGeneral.

Section SingleSlotWitnesses.

Import Price Analysis.

Lemma MMAX_single_slot_witness :
  exists outs,
    MMAX.MMAX_run [5; 1; 1; 1] [2%Z] (map PyInt [0; 1; 2; 3]%Z)
    = Ok [(Named "Date", map PyInt [0; 1; 2; 3]%Z); (Col "MMAX" 2, markers 2 ++ outs)]
    /\ forall row, (2 <= row < len [5; 1; 1; 1])%Z ->
                   exists q, nth_error outs (Z.to_nat (row - 2)) = Some (PyFloat q)
                             /\ MMAX.is_max q (MMAX.window [5; 1; 1; 1] 2 row).
Proof.
  apply (@MMAX_single_slot [5; 1; 1; 1] 2%Z (map PyInt [0; 1; 2; 3]%Z)).
  - unfold len. simpl. lia.
  - reflexivity.
Defined.

Lemma MMIN_single_slot_witness :
  exists outs,
    MMAX.MMIN_run [1; 5; 5; 5] [2%Z] (map PyInt [0; 1; 2; 3]%Z)
    = Ok [(Named "Date", map PyInt [0; 1; 2; 3]%Z); (Col "MMIN" 2, markers 2 ++ outs)]
    /\ forall row, (2 <= row < len [1; 5; 5; 5])%Z ->
                   exists q, nth_error outs (Z.to_nat (row - 2)) = Some (PyFloat q)
                             /\ MMAX.is_min q (MMAX.window [1; 5; 5; 5] 2 row).
Proof.
  apply (@MMIN_single_slot [1; 5; 5; 5] 2%Z (map PyInt [0; 1; 2; 3]%Z)).
  - unfold len. simpl. lia.
  - reflexivity.
Defined.

Lemma rowAtDate_between_last_rows_witness :
  rowAtDate [1; 2; 3; 5; 8; 10]%Z 100 1 9 = None.
Proof.
  generalize 100%nat.
  apply (@rowAtDate_between_last_rows [1; 2; 3; 5; 8; 10]%Z) with
    (last_but_one := 8%Z) (last := 10%Z).
  - simpl. lia.
  - unfold len. simpl. lia.
  - reflexivity.
  - reflexivity.
  - lia.
Defined.

Lemma rowAtDate_returns_witness :
  exists fuel row before here,
    rowAtDate [1; 2; 3; 5; 8; 10]%Z fuel 0 4 = Some (Ok row)
    /\ (0 < row < len [1; 2; 3; 5; 8; 10]%Z - 1)%Z
    /\ index [1; 2; 3; 5; 8; 10]%Z (row - 1) = Ok before /\ (before < 4)%Z
    /\ index [1; 2; 3; 5; 8; 10]%Z row = Ok here /\ (4 <= here)%Z.
Proof.
  refine (proj2 (proj2 (@rowAtDate_returns [1; 2; 3; 5; 8; 10]%Z _ 4 0 1 10 _ _ _))
                8%Z _ _ _).
  - simpl. lia.
  - unfold len. simpl. lia.
  - reflexivity.
  - reflexivity.
  - lia.
  - reflexivity.
  - lia.
Defined.

End SingleSlotWitnesses.

(* ################################################################# *)
(** * [run]: too short a series, and the length of the columns *)

Section RunEdges.

Variable St : Type.
Variable initial_period : Z -> result Z.
Variable calculation : Z -> Z -> St -> result (pyval * St).
Variable headers : list header.
Variable dates : list pyval.

(** X5.  With no row at or after the offset of the first iteration, [run] fails
    on [results[0]]: nothing is written, not even a column of empty cells. *)
Theorem run_without_rows (iterations off : Z) (st : St) (h0 : header) :
  index headers 0 = Ok h0 ->
  (1 <= iterations)%Z ->
  initial_period 0 = Ok off ->
  (len dates <= off)%Z ->
  run initial_period calculation headers dates iterations st = Raise IndexError.
Proof.
  intros Hh Hit Hoff Hlen. unfold run. rewrite Hh. cbv beta iota delta [bind].
  rewrite xrange_cons by lia. cbn [run_iterations]. unfold run_iteration.
  rewrite Hoff. cbv beta iota delta [bind].
  rewrite (xrange_nil (a := off) (b := len dates)) by lia.
  reflexivity.
Qed.

Lemma calc_rows_length (i : Z) (rows : list Z) : forall st outs st',
  calc_rows calculation i rows st = Ok (outs, st') -> length outs = length rows.
Proof.
  induction rows as [|row rows IH]; simpl; intros st outs st' H.
  - inversion H. reflexivity.
  - inv_bind H. destruct v as [v st1]. inv_bind H. destruct v0 as [vs st2].
    inversion H; subst. simpl. f_equal. eapply IH; eauto.
Qed.

Lemma mapM_length {A B : Type} (f : A -> result B) (xs : list A) : forall ys,
  mapM f xs = Ok ys -> length ys = length xs.
Proof.
  induction xs as [|x xs IH]; simpl; intros ys H.
  - inversion H. reflexivity.
  - inv_bind H. inv_bind H. inversion H; subst. simpl. f_equal. apply IH. exact E0.
Qed.

Let aligned (d : dataset) : Prop :=
  forall h col, dict_get d h = Some col -> length col = length dates.

Lemma dict_set_aligned d h col :
  aligned d -> length col = length dates -> aligned (dict_set d h col).
Proof.
  intros Hd Hcol k c. rewrite dict_get_set.
  destruct (header_eqb h k); [intros E; inversion E; subst; exact Hcol | apply Hd].
Qed.

Lemma expand_aligned (start results : list pyval) (cols : list Z) :
  (length start + length results = length dates)%nat ->
  forall output output',
    aligned output ->
    expand headers start results cols output = Ok output' ->
    aligned output'.
Proof.
  intros Hlen. induction cols as [|col cols IH]; simpl; intros output output' Hd H.
  - inversion H; subst. exact Hd.
  - inv_bind H. inv_bind H. eapply IH; [|exact H].
    apply dict_set_aligned; [exact Hd|].
    rewrite length_app. unfold column in E. apply mapM_length in E. lia.
Qed.

Lemma run_iteration_aligned (i off : Z) output st output' st' :
  initial_period i = Ok off ->
  (0 <= off <= len dates)%Z ->
  aligned output ->
  run_iteration initial_period calculation headers (len dates) i (output, st)
  = Ok (output', st') ->
  aligned output'.
Proof.
  intros Hoff Hrange Hd H. unfold run_iteration in H.
  rewrite Hoff in H. cbv beta iota delta [bind] in H.
  destruct (calc_rows calculation i (xrange off (len dates)) st)
    as [[results st1]|e] eqn:Hrows; [|discriminate].
  pose proof (calc_rows_length _ _ _ Hrows) as Hres.
  rewrite xrange_length in Hres.
  assert (Hlen : (length (map (fun _ : Z => not_available) (xrange 0 off))
                  + length results = length dates)%nat).
  { rewrite length_map, xrange_length, Hres. unfold len in *. lia. }
  inv_bind H.
  assert (Hscalar :
            (h <- index headers (i + 1) ;;
             Ok (dict_set output h
                   (map (fun _ => not_available) (xrange 0 off) ++ results), st1))
            = Ok (output', st') -> aligned output').
  { intros G. inv_bind G. inversion G; subst.
    apply dict_set_aligned; [exact Hd|]. rewrite length_app. exact Hlen. }
  destruct v; try (apply Hscalar; exact H).
  inv_bind H. inversion H; subst.
  eapply expand_aligned; [exact Hlen | exact Hd | exact E0].
Qed.

(** X6.  When every iteration's offset lies within the series, every column of
    the dataset [run] returns has exactly as many entries as [Date]. *)
Theorem run_columns_aligned (iterations : Z) (st : St) (output : dataset) :
  (forall i, (0 <= i < iterations)%Z ->
             exists off, initial_period i = Ok off /\ (0 <= off <= len dates)%Z) ->
  run initial_period calculation headers dates iterations st = Ok output ->
  forall h col, dict_get output h = Some col -> length col = length dates.
Proof.
  intros Hoffs H. unfold run in H. inv_bind H. inv_bind H.
  destruct v0 as [output1 st1]. inversion H; subst. clear H.
  assert (G : forall slots out0 st0 out1 st1',
             (forall i, In i slots -> (0 <= i < iterations)%Z) ->
             aligned out0 ->
             run_iterations initial_period calculation headers (len dates) slots
                            (out0, st0) = Ok (out1, st1') ->
             aligned out1).
  { induction slots as [|i slots IH]; simpl; intros out0 st0 out1 st1' Hin Hd H.
    - inversion H; subst. exact Hd.
    - inv_bind H. destruct v0 as [out2 st2].
      destruct (Hoffs i) as (off & Hoff & Hrange); [apply Hin; left; reflexivity|].
      eapply IH; [intros j Hj; apply Hin; right; exact Hj | | exact H].
      eapply run_iteration_aligned; eauto. }
  eapply G; [| |exact E0].
  - intros i Hi. apply xrange_In in Hi. lia.
  - intros k c. simpl. destruct (header_eqb v k); [|discriminate].
    intros Hc. inversion Hc. reflexivity.
Qed.

End RunEdges.

Section RunEdgesWitnesses.

Import Price.

(** [MMAX] with a 4-day window on a 3-row series. *)
Lemma run_without_rows_witness :
  MMAX.MMAX_run [5; 1; 1] [4%Z] (map PyInt [0; 1; 2]%Z) = Raise IndexError.
Proof.
  apply (@run_without_rows _ (MMAX.initial_period [4%Z])
           (MMAX.calculation MMAX.test_max [5; 1; 1] [4%Z])
           (MMAX.headers "MMAX" [4%Z]) (map PyInt [0; 1; 2]%Z)
           (len [4%Z]) 4%Z MMAX.init_state (Named "Date")).
  - reflexivity.
  - unfold len. simpl. lia.
  - reflexivity.
  - unfold len. simpl. lia.
Defined.

Lemma run_columns_aligned_witness :
  exists output,
    Strategy.Hold_run 100 (map PyInt [0; 1; 2]%Z) [10; 11; 12] = Ok output
    /\ forall h col, dict_get output h = Some col -> length col = 3%nat.
Proof.
  eexists. split; [vm_compute; reflexivity|].
  apply (@run_columns_aligned _ Strategy.Hold_initial_period
           (Strategy.calculation (Strategy.Hold 100) [10; 11; 12])
           Strategy.headers (map PyInt [0; 1; 2]%Z) 1
           (Strategy.init_state (Strategy.Hold 100))).
  - intros i Hi. exists 0%Z. split; [reflexivity | unfold len; simpl; lia].
  - vm_compute. reflexivity.
Defined.

End RunEdgesWitnesses.

(* ################################################################# *)
(** * [Hold] and [DualMA] on any series *)

Section HoldGeneral.

Import Strategy.

Lemma div_nonzero (a b : Q) : ~ b == 0 -> div a b = Ok (a / b).
Proof.
  intros Hb. unfold div. destruct (Qeq_bool b 0) eqn:E; [|reflexivity].
  apply Qeq_bool_iff in E. contradiction.
Qed.

(** The rounding: monotone, and exact on 0, 1 and -1. *)
Variable fl : Q -> Q.
Hypothesis fl_monotone : forall x y, x <= y -> fl x <= fl y.
Hypothesis fl_0 : fl 0 == 0.
Hypothesis fl_1 : fl 1 == 1.
Hypothesis fl_minus_1 : fl (-1) == -1.

Lemma fl_proper (x y : Q) : x == y -> fl x == fl y.
Proof.
  intros H. apply Qle_antisym; apply fl_monotone; rewrite H; apply Qle_refl.
Qed.

Lemma fl_nonneg (x : Q) : 0 <= x -> 0 <= fl x.
Proof.
  intros H. apply Qle_trans with (fl 0); [rewrite fl_0; apply Qle_refl|].
  apply fl_monotone. exact H.
Qed.

(** What one row multiplies the equity by. *)
Let factor (position : Z) (c p : Q) : Q :=
  fl (1 + fl (fl (inject_Z position * fl (c - p)) / p)).

Lemma factor_flat (c p : Q) : factor 0 c p == 1.
Proof.
  unfold factor.
  assert (E1 : fl (inject_Z 0 * fl (c - p)) == 0).
  { apply Qeq_trans with (fl 0); [|exact fl_0].
    apply fl_proper. change (inject_Z 0) with 0. ring. }
  assert (E2 : fl (fl (inject_Z 0 * fl (c - p)) / p) == 0).
  { apply Qeq_trans with (fl 0); [|exact fl_0].
    apply fl_proper. rewrite E1. unfold Qdiv. ring. }
  apply Qeq_trans with (fl 1); [|exact fl_1].
  apply fl_proper. rewrite E2. ring.
Qed.

Lemma factor_long (c p : Q) :
  0 < c -> 0 < p -> fl (- p) == - p -> 0 <= factor 1 c p.
Proof.
  intros Hc Hp Hkept. unfold factor.
  assert (H1 : - p <= fl (c - p)).
  { apply Qle_trans with (fl (- p)); [rewrite Hkept; apply Qle_refl|].
    apply fl_monotone. lra. }
  assert (H2 : - p <= fl (inject_Z 1 * fl (c - p))).
  { apply Qle_trans with (fl (- p)); [rewrite Hkept; apply Qle_refl|].
    apply fl_monotone. change (inject_Z 1) with 1. lra. }
  assert (H3 : -1 <= fl (inject_Z 1 * fl (c - p)) / p).
  { apply Qle_shift_div_l; [exact Hp | lra]. }
  assert (H4 : -1 <= fl (fl (inject_Z 1 * fl (c - p)) / p)).
  { apply Qle_trans with (fl (-1)); [rewrite fl_minus_1; apply Qle_refl|].
    apply fl_monotone. exact H3. }
  apply fl_nonneg. lra.
Qed.

Lemma factor_exact (position : Z) (c p : Q) :
  (forall x, fl x == x) ->
  factor position c p == 1 + inject_Z position * (c - p) / p.
Proof.
  intros Hfl. unfold factor. rewrite Hfl. rewrite Hfl.
  rewrite Hfl. rewrite (Hfl (c - p)). reflexivity.
Qed.

Variable Close : list Q.
Variable init : Q.

(** One row of [Hold] that needs no injection: the position is long
    afterwards, the debt is untouched and the equity has been multiplied
    by the factor of the row. *)
Lemma Hold_row (i row : Z) (s : state) (c p : Q) :
  index Close row = Ok c ->
  index Close (row - 1) = Ok p ->
  0 < p ->
  0 <= fl (equity s * factor (position s) c p) ->
  position s = 0%Z \/ position s = 1%Z ->
  exists s',
    Rounded.calculation fl (Hold init) Close i row s = Ok (output_row s', s')
    /\ position s' = 1%Z
    /\ debt s' = debt s
    /\ equity s' = fl (equity s * factor (position s) c p).
Proof.
  intros Hc Hp Hpos Heq Hposn.
  unfold Rounded.calculation, Rounded.update_fund. rewrite Hc, Hp.
  cbv beta iota delta [bind].
  rewrite div_nonzero by lra. cbv beta iota delta [bind].
  unfold Rounded.update_debt. cbn [equity debt position stop].
  fold (factor (position s) c p).
  replace (Qltb (fl (equity s * factor (position s) c p)) 0) with false
    by (symmetry; apply Qltb_ge; exact Heq).
  unfold exit_positions, enter_positions. cbn [equity debt position stop].
  destruct Hposn as [H0 | H1].
  - rewrite H0. cbn. eexists. split; [reflexivity|]. cbn. auto.
  - rewrite H1. cbn. eexists. split; [reflexivity|]. cbn. auto.
Qed.

Hypothesis init_nonneg : 0 <= init.
Hypothesis init_kept : fl init == init.
Hypothesis closes_positive : forall c, In c Close -> 0 < c.
Hypothesis closes_kept : forall c, In c Close -> fl (- c) == - c.

Variable first : Q.
Hypothesis first_close : index Close 0 = Ok first.

Let before_row (row : Z) (s : state) : Prop :=
  (row = 0%Z /\ s = init_state (Hold init))
  \/ ((0 < row)%Z /\ position s = 1%Z /\ debt s = 0 /\ 0 <= equity s
      /\ ((forall x, fl x == x) ->
          exists p, index Close (row - 1) = Ok p /\ equity s == init * p / first)).

Let written (row : Z) (v : pyval) : Prop :=
  exists e c,
    v = PyList [PyInt 1; PyFloat e; PyFloat 0]
    /\ index Close row = Ok c
    /\ 0 <= e
    /\ (row = 0%Z -> e == init)
    /\ ((forall x, fl x == x) -> e == init * c / first).

Lemma index_member (row : Z) (c : Q) : index Close row = Ok c -> In c Close.
Proof.
  intros H. unfold index in H.
  destruct ((0 <=? (if (row <? 0)%Z then (row + Z.of_nat (length Close))%Z else row))%Z
            && ((if (row <? 0)%Z then (row + Z.of_nat (length Close))%Z else row)
                <? Z.of_nat (length Close))%Z); [|discriminate].
  destruct (nth_error Close _) eqn:E; [|discriminate].
  inversion H; subst. eapply nth_error_In; eauto.
Qed.

Lemma index_positive (row : Z) (c : Q) : index Close row = Ok c -> 0 < c.
Proof.
  intros H. apply closes_positive. eapply index_member; eauto.
Qed.

Lemma Hold_invariant (row : Z) (s : state) :
  (row < len Close)%Z ->
  before_row row s ->
  exists v s', Rounded.calculation fl (Hold init) Close 0 row s = Ok (v, s')
               /\ before_row (row + 1) s' /\ written row v.
Proof.
  intros Hrow [[-> ->] | (Hr & Hpos & Hdebt & Hnonneg & Hexact)].
  - assert (Hfirst : 0 < first) by (apply (index_positive 0 first_close)).
    destruct (@index_wraps _ Close (0 - 1)) as (last & Hlast); [lia|].
    assert (Hl : 0 < last) by (apply (index_positive _ Hlast)).
    assert (Hval : fl (init * factor 0 first last) == init).
    { apply Qeq_trans with (fl init); [|exact init_kept].
      apply fl_proper. rewrite factor_flat. ring. }
    destruct (@Hold_row 0 0 (init_state (Hold init)) first last)
      as (s' & Hcalc & Hp' & Hd' & He'); auto.
    + cbn [equity position init_state Hold init_equity].
      rewrite Hval. exact init_nonneg.
    + cbn [equity position debt init_state Hold init_equity] in He', Hd'.
      exists (output_row s'), s'. split; [exact Hcalc|]. split.
      * right. split; [lia|]. split; [exact Hp'|]. split; [exact Hd'|].
        split; [rewrite He', Hval; exact init_nonneg|].
        intros _. exists first. replace (0 + 1 - 1)%Z with 0%Z by lia.
        split; [exact first_close|]. rewrite He', Hval. field. lra.
      * exists (equity s'), first. unfold output_row. rewrite Hp', Hd'.
        split; [reflexivity|]. split; [exact first_close|].
        split; [rewrite He', Hval; exact init_nonneg|].
        split; [intros _; rewrite He'; exact Hval|].
        intros _. rewrite He', Hval. field. lra.
  - assert (Hfirst : 0 < first) by (apply (index_positive 0 first_close)).
    destruct (@index_wraps _ Close row) as (c & Hc); [lia|].
    destruct (@index_wraps _ Close (row - 1)) as (p & Hp); [lia|].
    assert (Hcpos : 0 < c) by (apply (index_positive _ Hc)).
    assert (Hppos : 0 < p) by (apply (index_positive _ Hp)).
    assert (Hfac : 0 <= factor 1 c p).
    { apply factor_long; [exact Hcpos | exact Hppos |].
      apply closes_kept. eapply index_member; eauto. }
    assert (Hval : 0 <= fl (equity s * factor (position s) c p)).
    { apply fl_nonneg. rewrite Hpos. apply Qmult_le_0_compat; assumption. }
    destruct (@Hold_row 0 row s c p) as (s' & Hcalc & Hp' & Hd' & He'); auto.
    assert (Hformula : (forall x, fl x == x) -> equity s' == init * c / first).
    { intros Hfl. destruct (Hexact Hfl) as (p' & Hp'' & Heq).
      rewrite Hp in Hp''. inversion Hp''; subst p'.
      rewrite He', Hfl, (factor_exact _ _ _ Hfl), Hpos, Heq.
      change (inject_Z 1) with 1. field. split; lra. }
    exists (output_row s'), s'. split; [exact Hcalc|]. split.
    + right. split; [lia|]. split; [exact Hp'|].
      split; [rewrite Hd'; exact Hdebt|].
      split; [rewrite He'; exact Hval|].
      intros Hfl. exists c. replace (row + 1 - 1)%Z with row by lia.
      split; [exact Hc | exact (Hformula Hfl)].
    + exists (equity s'), c. unfold output_row. rewrite Hp', Hd', Hdebt.
      split; [reflexivity|]. split; [exact Hc|].
      split; [rewrite He'; exact Hval|].
      split; [intros ->; lia | exact Hformula].
Qed.

(** X7.  [Hold] with a non-negative initial equity on positive closes, the
    float operations rounded by any monotone rounding that is exact on 0,
    1, -1, the initial equity and the negated closes: the run returns;
    every row is long with debt 0 and an equity that is not negative; the
    equity of row 0 is the initial equity; and in exact arithmetic (the
    rounding being the identity) the equity of a row is the initial equity
    times the close of the row over the first close. *)
Theorem Hold_equity_follows_price :
  exists outs st,
    Rounded.results fl (Hold init) Close 0 = Ok (outs, st)
    /\ forall row, (0 <= row < len Close)%Z ->
                   exists e c,
                     nth_error outs (Z.to_nat row)
                     = Some (PyList [PyInt 1; PyFloat e; PyFloat 0])
                     /\ index Close row = Ok c
                     /\ 0 <= e
                     /\ (row = 0%Z -> e == init)
                     /\ ((forall x, fl x == x) -> e == init * c / first).
Proof.
  unfold Rounded.results.
  destruct (@calc_rows_xrange _ (Rounded.calculation fl (Hold init) Close)
              before_row written 0 (len Close))
    with (n := Z.to_nat (len Close - 0)) (a := 0%Z) (st := init_state (Hold init))
    as (outs & st' & Hrun & Hout).
  - intros row s Hrow Hinv. apply Hold_invariant; assumption.
  - reflexivity.
  - left. split; reflexivity.
  - exists outs, st'. split; [exact Hrun|].
    intros row Hrow. destruct (Hout row Hrow) as (v & Hv & e & c & -> & Hrest).
    replace (row - 0)%Z with row in Hv by lia.
    exists e, c. split; [exact Hv | exact Hrest].
Qed.

End HoldGeneral.

Lemma Hold_equity_follows_price_witness :
  exists outs st,
    Rounded.results (fun x => x) (Strategy.Hold 100) [10; 11; 12] 0 = Ok (outs, st)
    /\ forall row, (0 <= row < len [10; 11; 12])%Z ->
                   exists e c,
                     nth_error outs (Z.to_nat row)
                     = Some (PyList [PyInt 1; PyFloat e; PyFloat 0])
                     /\ index [10; 11; 12] row = Ok c
                     /\ 0 <= e
                     /\ (row = 0%Z -> e == 100)
                     /\ ((forall x : Q, x == x) -> e == 100 * c / 10).
Proof.
  apply (@Hold_equity_follows_price (fun x => x)).
  - intros x y H. exact H.
  - reflexivity.
  - reflexivity.
  - reflexivity.
  - discriminate.
  - reflexivity.
  - intros c [<- | [<- | [<- | []]]]; reflexivity.
  - intros c _. reflexivity.
  - reflexivity.
Defined.

Section DualMACrossover.

Import Strategy Instances.

Variable eq0 : Q.
Variable Close ma_newer ma_older : list Q.

(** X8.  After any row of [DualMA] the position is on the side of the faster
    average: long when it is above the slower one, short when it is below,
    and unchanged when the two are equal. *)
Theorem DualMA_follows_crossover (i row : Z) (s s' : state) (out : pyval)
        (newer older : Q) :
  valid_position (position s) ->
  index ma_newer row = Ok newer ->
  index ma_older row = Ok older ->
  calculation (DualMA_system eq0 Close ma_newer ma_older) Close i row s
  = Ok (out, s') ->
  (older < newer -> position s' = 1%Z)
  /\ (newer < older -> position s' = (-1)%Z)
  /\ (newer == older -> position s' = position s).
Proof.
  intros Hv Hn Ho H.
  apply calculation_phases in H. destruct H as (s1 & s2 & H1 & H2 & H3 & _).
  pose proof (update_fund_position _ _ _ H1) as (Hp1 & _).
  unfold update_fund in H1. inv_bind H1. clear H1. rename v into close.
  pose proof (update_debt_position (DualMA_system eq0 Close ma_newer ma_older) s1)
    as Hp2. rewrite Hp1 in Hp2.
  assert (Hlong : forall st, DualMA_goLong Close ma_newer ma_older st row
                             = Ok (Qltb older newer)).
  { intros st. unfold DualMA_goLong. rewrite Hn, Ho, E. reflexivity. }
  assert (Hshort : forall st, DualMA_goShort Close ma_newer ma_older st row
                              = Ok (Qltb newer older)).
  { intros st. unfold DualMA_goShort. rewrite Hn, Ho, E. reflexivity. }
  unfold exit_positions in H2. unfold enter_positions in H3.
  cbn [DualMA_system exitLong exitShort goLong goShort
                                setLongStop setShortStop] in H2, H3.
  rewrite Hp2 in H2. rewrite ?Hlong, ?Hshort in H2.
  rewrite ?Hlong, ?Hshort in H3. cbv beta iota delta [bind] in H2, H3.
  destruct (Qltb older newer) eqn:El; destruct (Qltb newer older) eqn:Es;
    try (apply Qltb_lt in El); try (apply Qltb_lt in Es);
    try (apply Qltb_ge in El); try (apply Qltb_ge in Es);
    destruct Hv as [Hv | [Hv | Hv]]; rewrite Hv in *;
    cbn in H2; inversion H2; subst s2; clear H2;
    cbn in H3; rewrite ?Hp2, ?Hv in H3; cbn in H3;
    inversion H3; subst s'; cbn; rewrite ?Hp2, ?Hv;
    repeat split; intros; try reflexivity; try lra.
Qed.

End DualMACrossover.

Lemma DualMA_follows_crossover_witness :
  exists out s',
    Strategy.calculation
      (Instances.DualMA_system 100 [10; 10; 10] [2; 2; 1] [1; 1; 2]) [10; 10; 10]
      0 2 {| Strategy.equity := 100; Strategy.debt := 0;
             Strategy.position := 1; Strategy.stop := 0 |} = Ok (out, s')
    /\ Strategy.position s' = (-1)%Z.
Proof.
  eexists. eexists. split; [vm_compute; reflexivity|].
  refine (proj1 (proj2 (@DualMA_follows_crossover 100 [10; 10; 10] [2; 2; 1] [1; 1; 2]
                          0 2 {| Strategy.equity := 100; Strategy.debt := 0;
                                 Strategy.position := 1; Strategy.stop := 0 |}
                          _ _ 1 2 _ _ _ _)) _).
  - right. right. reflexivity.
  - reflexivity.
  - reflexivity.
  - vm_compute. reflexivity.
  - reflexivity.
Defined.

(* ################################################################# *)
(** * [exponentialWeighting]: the rows of a slot *)

Section ExponentialAverage.

Import Exponential.

Lemma mapM_nth {A B : Type} (f : A -> result B) (xs : list A) : forall ys k x,
  mapM f xs = Ok ys -> nth_error xs k = Some x ->
  exists y, nth_error ys k = Some y /\ f x = Ok y.
Proof.
  induction xs as [|x0 xs IH]; simpl; intros ys k x H Hk.
  - destruct k; discriminate.
  - inv_bind H. inv_bind H. inversion H; subst.
    destruct k as [|k]; simpl in *.
    + inversion Hk; subst. eauto.
    + eapply IH; eauto.
Qed.

(** The smoothing factor of a window of at least one day lies in (0, 1]. *)
Lemma calcAlpha_range (lookback_days : list Z) (alpha : list Q) (i N : Z) :
  calcAlpha lookback_days = Ok alpha ->
  (0 <= i)%Z -> index lookback_days i = Ok N -> (1 <= N)%Z ->
  exists a, index alpha i = Ok a /\ 0 < a /\ a <= 1.
Proof.
  intros Halpha Hi HN Hpos. unfold calcAlpha in Halpha.
  apply index_nth in HN; [|exact Hi].
  destruct (mapM_nth _ _ _ Halpha HN) as (a & Ha & Hdiv).
  exists a. split; [apply index_nonneg; assumption|].
  assert (HQ : 1 <= inject_Z N) by (rewrite Zle_Qle in Hpos; exact Hpos).
  rewrite div_nonzero in Hdiv by lra. inversion Hdiv; subst a. split.
  - apply Qlt_shift_div_l; lra.
  - apply Qle_shift_div_r; lra.
Qed.

Variable fl : Q -> Q.
Variable Close : list Q.
Variable alpha : list Q.
Variable i : Z.
Variable a : Q.
Hypothesis alpha_i : index alpha i = Ok a.

(** The sum of the first step over rows that exist. *)
Lemma seed_sum_returns (rows : list Z) : forall acc,
  (forall r, In r rows -> (0 <= r < len Close)%Z) ->
  exists sum,
    foldM (fun sum r => x <- Price.MA.variable Close r (Some i) ;; Ok (fl (sum + x)))
          rows acc = Ok sum.
Proof.
  induction rows as [|r rows IH]; intros acc Hrows.
  - exists acc. reflexivity.
  - destruct (@index_in_range _ Close r) as (x & Hx & _); [apply Hrows; left; reflexivity|].
    destruct (IH (fl (acc + x))) as (sum & Hsum);
      [intros r' Hr'; apply Hrows; right; exact Hr'|].
    exists sum. cbn [foldM]. unfold Price.MA.variable at 1. rewrite Hx.
    cbv beta iota delta [bind]. exact Hsum.
Qed.

Lemma five_nonzero : ~ 1 * inject_Z 5 == 0.
Proof.
  intros H. vm_compute in H. discriminate.
Qed.

(** Every row from the fifth on returns a float, the new state. *)
Lemma calculation_returns (row : Z) (st : state) :
  (5 <= row < len Close)%Z ->
  exists q, calculation fl Close alpha i row st = Ok (PyFloat q, {| ewma := q |}).
Proof.
  intros Hrow. unfold calculation.
  change (initial_period i) with (Ok (A := Z) 5%Z). cbv beta iota delta [bind].
  destruct (row =? 5)%Z eqn:E.
  - apply Z.eqb_eq in E. subst row.
    destruct (seed_sum_returns (xrange 0 5) 0) as (sum & Hsum).
    { intros r Hr. apply xrange_In in Hr. lia. }
    cbv beta iota delta [bind] in Hsum. rewrite Hsum.
    unfold dof. change (initial_period i) with (Ok (A := Z) 5%Z).
    cbv beta iota delta [bind].
    rewrite div_nonzero by exact five_nonzero.
    cbv beta iota delta [bind]. eexists. reflexivity.
  - destruct (@index_in_range _ Close (row - 1)) as (x & Hx & _); [lia|].
    unfold Price.MA.variable. rewrite Hx, alpha_i. cbv beta iota delta [bind].
    eexists. reflexivity.
Qed.

(** The first step does not read the state. *)
Lemma first_step_forgets (st st0 : state) :
  calculation fl Close alpha i 5 st = calculation fl Close alpha i 5 st0.
Proof.
  reflexivity.
Qed.

Section NoRounding.

Variables lo hi : Q.
Hypothesis closes_in_range : forall x, In x Close -> lo <= x <= hi.
Hypothesis a_range : 0 < a /\ a <= 1.
Hypothesis no_rounding : forall x, fl x == x.

Lemma index_in_bounds (row : Z) (x : Q) : index Close row = Ok x -> lo <= x <= hi.
Proof.
  intros H. apply closes_in_range. unfold index in H.
  destruct ((0 <=? (if (row <? 0)%Z then (row + Z.of_nat (length Close))%Z else row))%Z
            && ((if (row <? 0)%Z then (row + Z.of_nat (length Close))%Z else row)
                <? Z.of_nat (length Close))%Z); [|discriminate].
  destruct (nth_error Close _) eqn:E; [|discriminate].
  inversion H; subst. eapply nth_error_In; eauto.
Qed.

(** The seed sum over rows that exist: between [k * lo] and [k * hi]. *)
Lemma seed_sum_bounds (rows : list Z) : forall acc,
  (forall r, In r rows -> (0 <= r < len Close)%Z) ->
  exists sum,
    foldM (fun sum r => x <- Price.MA.variable Close r (Some i) ;; Ok (fl (sum + x)))
          rows acc = Ok sum
    /\ acc + inject_Z (Z.of_nat (length rows)) * lo <= sum
    /\ sum <= acc + inject_Z (Z.of_nat (length rows)) * hi.
Proof.
  induction rows as [|r rows IH]; intros acc Hrows.
  - exists acc. split; [reflexivity|].
    change (inject_Z (Z.of_nat (length (@nil Z)))) with 0. split; lra.
  - destruct (@index_in_range _ Close r) as (x & Hx & _); [apply Hrows; left; reflexivity|].
    pose proof (index_in_bounds _ Hx) as Hb.
    destruct (IH (fl (acc + x))) as (sum & Hsum & Hlo & Hhi);
      [intros r' Hr'; apply Hrows; right; exact Hr'|].
    rewrite no_rounding in Hlo, Hhi.
    exists sum. split.
    + cbn [foldM]. unfold Price.MA.variable at 1. rewrite Hx.
      cbv beta iota delta [bind]. exact Hsum.
    + replace (Z.of_nat (length (r :: rows))) with (Z.of_nat (length rows) + 1)%Z
        by (simpl length; lia).
      rewrite inject_Z_plus. change (inject_Z 1) with 1. split; lra.
Qed.

Let within (row : Z) (st : state) : Prop :=
  row = 5%Z \/ lo <= ewma st <= hi.

Let written (row : Z) (v : pyval) : Prop :=
  exists q, v = PyFloat q /\ lo <= q <= hi.

Lemma calculation_within (row : Z) (st : state) :
  (row < len Close)%Z -> (5 <= row)%Z -> within row st ->
  exists v st', calculation fl Close alpha i row st = Ok (v, st')
                /\ within (row + 1) st' /\ written row v.
Proof.
  intros Hrow H5 Hst. unfold calculation.
  change (initial_period i) with (Ok (A := Z) 5%Z). cbv beta iota delta [bind].
  destruct (row =? 5)%Z eqn:E.
  - apply Z.eqb_eq in E. subst row.
    destruct (seed_sum_bounds (xrange 0 5) 0) as (sum & Hsum & Hlo & Hhi).
    { intros r Hr. apply xrange_In in Hr. lia. }
    cbv beta iota delta [bind] in Hsum. rewrite Hsum.
    unfold dof. change (initial_period i) with (Ok (A := Z) 5%Z).
    cbv beta iota delta [bind].
    rewrite div_nonzero by exact five_nonzero.
    cbv beta iota delta [bind].
    change (inject_Z (Z.of_nat (length (xrange 0 5)))) with 5 in Hlo, Hhi.
    assert (Hq : lo <= fl (sum / (1 * inject_Z 5)) <= hi).
    { rewrite no_rounding. change (1 * inject_Z 5) with (1 * 5). split.
      - apply Qle_shift_div_l; lra.
      - apply Qle_shift_div_r; lra. }
    eexists. eexists. split; [reflexivity|]. split.
    + right. exact Hq.
    + eexists. split; [reflexivity | exact Hq].
  - apply Z.eqb_neq in E.
    destruct Hst as [-> | He]; [contradiction|].
    destruct (@index_in_range _ Close (row - 1)) as (x & Hx & _); [lia|].
    pose proof (index_in_bounds _ Hx) as Hb.
    unfold Price.MA.variable. rewrite Hx, alpha_i. cbv beta iota delta [bind].
    assert (Hq : lo <= fl (fl (a * x) + fl (fl (1 - a) * ewma st)) <= hi).
    { rewrite no_rounding, (no_rounding (a * x)), (no_rounding (fl (1 - a) * ewma st)),
        (no_rounding (1 - a)).
      destruct a_range as [Ha0 Ha1]. destruct Hb as [Hb1 Hb2]. destruct He as [He1 He2].
      split; nra. }
    eexists. eexists. split; [reflexivity|]. split.
    + right. exact Hq.
    + eexists. split; [reflexivity | exact Hq].
Qed.

Lemma rows_within (st : state) :
  exists outs st',
    calc_rows (calculation fl Close alpha) i (xrange 5 (len Close)) st = Ok (outs, st')
    /\ forall row, (5 <= row < len Close)%Z ->
                   exists q, nth_error outs (Z.to_nat (row - 5)) = Some (PyFloat q)
                             /\ lo <= q <= hi.
Proof.
  destruct (@calc_rows_xrange _ (calculation fl Close alpha)
              (fun row s => (5 <= row)%Z /\ within row s) written i (len Close))
    with (n := Z.to_nat (len Close - 5)) (a := 5%Z) (st := st)
    as (outs & st' & Hrun & Hout).
  - intros row s Hrow [H5 Hs].
    destruct (calculation_within Hrow H5 Hs) as (v & s' & Hc & Hw & Hv).
    exists v, s'. split; [exact Hc|]. split; [split; [lia | exact Hw] | exact Hv].
  - reflexivity.
  - split; [lia | left; reflexivity].
  - exists outs, st'. split; [exact Hrun|].
    intros row Hrow. destruct (Hout row Hrow) as (v & Hv & q & -> & Hq). eauto.
Qed.

End NoRounding.

(** X9.  The rows of a slot of an exponentially weighted average, from the
    fifth to the last, return one float each, whatever the rounding of
    the float operations, and they are the same from whatever state an
    earlier slot left behind.  In exact arithmetic (the rounding being the
    identity), with a smoothing factor in (0, 1], every value lies between
    the least and the greatest close. *)
Theorem EWMA_rows (st : state) :
  exists outs st',
    calc_rows (calculation fl Close alpha) i (xrange 5 (len Close)) st = Ok (outs, st')
    /\ (forall row, (5 <= row < len Close)%Z ->
                    exists q, nth_error outs (Z.to_nat (row - 5)) = Some (PyFloat q))
    /\ (forall st0, exists st0',
           calc_rows (calculation fl Close alpha) i (xrange 5 (len Close)) st0
           = Ok (outs, st0'))
    /\ (forall lo hi,
           (forall x, fl x == x) ->
           0 < a /\ a <= 1 ->
           (forall x, In x Close -> lo <= x <= hi) ->
           forall row, (5 <= row < len Close)%Z ->
                       exists q, nth_error outs (Z.to_nat (row - 5)) = Some (PyFloat q)
                                 /\ lo <= q <= hi).
Proof.
  destruct (@calc_rows_xrange _ (calculation fl Close alpha)
              (fun row s => (5 <= row)%Z) (fun _ v => exists q, v = PyFloat q)
              i (len Close))
    with (n := Z.to_nat (len Close - 5)) (a := 5%Z) (st := st)
    as (outs & st' & Hrun & Hout).
  - intros row s Hrow H5.
    destruct (@calculation_returns row s) as (q & Hq); [lia|].
    eexists. eexists. split; [exact Hq|]. split; [lia | eexists; reflexivity].
  - reflexivity.
  - lia.
  - exists outs, st'. split; [exact Hrun|]. split; [|split].
    + intros row Hrow. destruct (Hout row Hrow) as (v & Hv & q & ->). eauto.
    + intros st0. destruct (Z_lt_le_dec 5 (len Close)) as [Hsome | Hnone].
      * exists st'. rewrite <- Hrun. rewrite xrange_cons by exact Hsome.
        cbn [calc_rows]. rewrite (first_step_forgets st0 st). reflexivity.
      * rewrite xrange_nil in Hrun |- * by exact Hnone.
        cbn [calc_rows] in Hrun |- *. inversion Hrun; subst. eauto.
    + intros lo hi Hfl Ha Hclose row Hrow.
      destruct (@rows_within lo hi Hclose Ha Hfl st) as (outs1 & st1 & Hrun1 & Hout1).
      rewrite Hrun in Hrun1. inversion Hrun1; subst outs1 st1.
      exact (Hout1 row Hrow).
Qed.

End ExponentialAverage.

Lemma EWMA_rows_witness :
  exists outs st',
    calc_rows (Exponential.calculation (fun x => x) [3; 4; 5; 3; 4; 5; 3] [2 # 3]) 0
              (xrange 5 (len [3; 4; 5; 3; 4; 5; 3]))
              Exponential.init_state = Ok (outs, st')
    /\ (forall row, (5 <= row < len [3; 4; 5; 3; 4; 5; 3])%Z ->
                    exists q, nth_error outs (Z.to_nat (row - 5)) = Some (PyFloat q))
    /\ (forall st0, exists st0',
           calc_rows (Exponential.calculation (fun x => x) [3; 4; 5; 3; 4; 5; 3] [2 # 3]) 0
                     (xrange 5 (len [3; 4; 5; 3; 4; 5; 3])) st0
           = Ok (outs, st0'))
    /\ (forall lo hi,
           (forall x : Q, x == x) ->
           0 < (2 # 3) /\ (2 # 3) <= 1 ->
           (forall x, In x [3; 4; 5; 3; 4; 5; 3] -> lo <= x <= hi) ->
           forall row, (5 <= row < len [3; 4; 5; 3; 4; 5; 3])%Z ->
                       exists q, nth_error outs (Z.to_nat (row - 5)) = Some (PyFloat q)
                                 /\ lo <= q <= hi).
Proof.
  apply (@EWMA_rows (fun x => x) [3; 4; 5; 3; 4; 5; 3] [2 # 3] 0 (2 # 3)).
  reflexivity.
Defined.

(* ################################################################# *)
(** * [Drawdowns] and [Returns] *)

Section DrawdownSeries.

Import ReturnsAnalysis.

Variable Equity : list Q.
Variable first : Q.
Hypothesis first_equity : index Equity 0 = Ok first.
Hypothesis first_positive : 0 < first.
Hypothesis equity_nonneg : forall e, In e Equity -> 0 <= e.

Lemma equity_at (row : Z) (e : Q) : index Equity row = Ok e -> 0 <= e.
Proof.
  intros H. apply equity_nonneg. unfold index in H.
  destruct ((0 <=? (if (row <? 0)%Z then (row + Z.of_nat (length Equity))%Z else row))%Z
            && ((if (row <? 0)%Z then (row + Z.of_nat (length Equity))%Z else row)
                <? Z.of_nat (length Equity))%Z); [|discriminate].
  destruct (nth_error Equity _) eqn:E; [|discriminate].
  inversion H; subst. eapply nth_error_In; eauto.
Qed.

(** Before [row]: a fresh object, or a positive peak above every equity
    seen so far. *)
Let before_row (row : Z) (st : Drawdowns.state) : Prop :=
  (row = 0%Z /\ st = Drawdowns.init_state)
  \/ ((0 < row)%Z /\ 0 < Drawdowns.peak st
      /\ forall k e, (0 <= k < row)%Z -> index Equity k = Ok e ->
                     e <= Drawdowns.peak st).

Let written (row : Z) (v : pyval) : Prop :=
  exists e p d,
    v = PyList [PyFloat e; PyFloat p; PyFloat d]
    /\ index Equity row = Ok e
    /\ (forall k e', (0 <= k <= row)%Z -> index Equity k = Ok e' -> e' <= p)
    /\ 0 <= d <= 1
    /\ (e == p -> d == 0).

Lemma drawdown_row (row : Z) (st : Drawdowns.state) :
  (0 <= row < len Equity)%Z -> before_row row st ->
  exists v st', Drawdowns.calculation Equity 0 row st = Ok (v, st')
                /\ before_row (row + 1) st' /\ written row v.
Proof.
  intros Hrow Hst.
  destruct (@index_in_range _ Equity row Hrow) as (e & He & _).
  pose proof (equity_at _ He) as He0.
  unfold Drawdowns.calculation. rewrite He. cbv beta iota delta [bind].
  set (p := if Qltb (Drawdowns.peak st) e then e else Drawdowns.peak st).
  assert (Hp : 0 < p /\ e <= p /\ Drawdowns.peak st <= p).
  { unfold p. destruct (Qltb (Drawdowns.peak st) e) eqn:E.
    - apply Qltb_lt in E. destruct Hst as [[-> ->] | (_ & Hpk & _)].
      + rewrite first_equity in He. inversion He; subst. repeat split; lra.
      + repeat split; lra.
    - apply Qltb_ge in E. destruct Hst as [[-> ->] | (_ & Hpk & _)].
      + rewrite first_equity in He. inversion He; subst.
        simpl in E. lra.
      + repeat split; lra. }
  destruct Hp as (Hp0 & Hep & Hpp).
  rewrite div_nonzero by lra. cbv beta iota delta [bind].
  assert (Hall : forall k e', (0 <= k <= row)%Z -> index Equity k = Ok e' -> e' <= p).
  { intros k e' Hk Hk'. destruct (Z.eq_dec k row) as [-> | Hne].
    - rewrite He in Hk'. inversion Hk'; subst. exact Hep.
    - destruct Hst as [[-> _] | (_ & _ & Hbound)]; [lia|].
      apply Qle_trans with (Drawdowns.peak st); [|exact Hpp].
      apply (Hbound k); [lia | exact Hk']. }
  eexists. eexists. split; [reflexivity|]. split.
  - right. cbn [Drawdowns.peak]. split; [lia|]. split; [exact Hp0|].
    intros k e' Hk Hk'. apply (Hall k); [lia | exact Hk'].
  - exists e, p, ((p - e) / p). split; [reflexivity|]. split; [exact He|].
    split; [exact Hall|]. split; [split|].
    + apply Qle_shift_div_l; lra.
    + apply Qle_shift_div_r; lra.
    + intros Heq. rewrite Heq. field. lra.
Qed.

(** X10.  On an equity column that starts positive and never goes negative, the
    run of [Drawdowns] returns; on every row the peak is at least every
    equity up to that row, the drawdown lies between 0 and 1, and it is 0
    when the equity is at the peak. *)
Theorem drawdown_bounds :
  exists outs st',
    calc_rows (Drawdowns.calculation Equity) 0 (xrange 0 (len Equity))
              Drawdowns.init_state = Ok (outs, st')
    /\ forall row, (0 <= row < len Equity)%Z ->
                   exists e p d,
                     nth_error outs (Z.to_nat row)
                     = Some (PyList [PyFloat e; PyFloat p; PyFloat d])
                     /\ index Equity row = Ok e
                     /\ (forall k e', (0 <= k <= row)%Z -> index Equity k = Ok e' ->
                                      e' <= p)
                     /\ 0 <= d <= 1
                     /\ (e == p -> d == 0).
Proof.
  destruct (@calc_rows_xrange _ (Drawdowns.calculation Equity)
              (fun row s => (0 <= row)%Z /\ before_row row s) written 0 (len Equity))
    with (n := Z.to_nat (len Equity - 0)) (a := 0%Z) (st := Drawdowns.init_state)
    as (outs & st' & Hrun & Hout).
  - intros row s Hrow [H0 Hs].
    destruct (@drawdown_row row s) as (v & s' & Hc & Hb & Hw); [lia | exact Hs |].
    exists v, s'. split; [exact Hc|]. split; [split; [lia | exact Hb] | exact Hw].
  - reflexivity.
  - split; [lia | left; split; reflexivity].
  - exists outs, st'. split; [exact Hrun|].
    intros row Hrow. destruct (Hout row Hrow) as (v & Hv & e & p & d & -> & Hrest).
    replace (row - 0)%Z with row in Hv by lia.
    exists e, p, d. split; [exact Hv | exact Hrest].
Qed.

End DrawdownSeries.

Lemma drawdown_bounds_witness :
  exists outs st',
    calc_rows (ReturnsAnalysis.Drawdowns.calculation [100; 120; 90; 0]) 0
              (xrange 0 (len [100; 120; 90; 0]))
              ReturnsAnalysis.Drawdowns.init_state = Ok (outs, st')
    /\ forall row, (0 <= row < len [100; 120; 90; 0])%Z ->
                   exists e p d,
                     nth_error outs (Z.to_nat row)
                     = Some (PyList [PyFloat e; PyFloat p; PyFloat d])
                     /\ index [100; 120; 90; 0] row = Ok e
                     /\ (forall k e', (0 <= k <= row)%Z ->
                                      index [100; 120; 90; 0] k = Ok e' -> e' <= p)
                     /\ 0 <= d <= 1
                     /\ (e == p -> d == 0).
Proof.
  apply (@drawdown_bounds [100; 120; 90; 0] 100).
  - reflexivity.
  - reflexivity.
  - intros e He. simpl in He.
    repeat (destruct He as [<- | He]; [discriminate|]). contradiction.
Defined.

Section ReturnSeries.

Import ReturnsAnalysis.

Variable fl : Q -> Q.
Variable Equity Debt : list Q.

(** X12.  [Returns] over a stretch of rows, the float operations rounded by
    any rounding under which no net equity (equity less debt) of the
    stretch, nor the one the object starts with, becomes 0: every row
    returns its equity, its debt and a return, and the object keeps the
    equity and the debt of the last row.  In exact arithmetic (the
    rounding being the identity) the returns compound to the ratio of the
    net equity after the stretch to the one before it. *)
Theorem returns_over_a_stretch (n : nat) : forall (a b : Z) (st : Returns.state),
  Z.to_nat (b - a) = n ->
  (0 <= a)%Z -> (b <= len Equity)%Z -> (b <= len Debt)%Z ->
  ~ fl (Returns.equity st - Returns.debt st) == 0 ->
  (forall row e d, (a <= row < b)%Z -> index Equity row = Ok e ->
                   index Debt row = Ok d -> ~ fl (e - d) == 0) ->
  exists outs st',
    calc_rows (Returns.calculation fl Equity Debt) 0 (xrange a b) st = Ok (outs, st')
    /\ length outs = n
    /\ (forall k, (k < n)%nat ->
          exists e d r,
            nth_error outs k = Some (PyList [PyFloat e; PyFloat d; PyFloat r])
            /\ index Equity (a + Z.of_nat k) = Ok e
            /\ index Debt (a + Z.of_nat k) = Ok d)
    /\ ((0 < n)%nat ->
        index Equity (b - 1) = Ok (Returns.equity st')
        /\ index Debt (b - 1) = Ok (Returns.debt st'))
    /\ ((forall x, fl x == x) ->
        Returns.compounded outs * (Returns.equity st - Returns.debt st)
        == Returns.equity st' - Returns.debt st').
Proof.
  induction n as [|n IH]; intros a b st Hn Ha Hb Hb' Hnet Hnets.
  - rewrite xrange_nil by lia. exists [], st. split; [reflexivity|].
    split; [reflexivity|]. split; [intros k Hk; lia|]. split; [intros Hk; lia|].
    intros _. simpl. ring.
  - rewrite xrange_cons by lia. cbn [calc_rows].
    destruct (@index_in_range _ Equity a) as (e & He & _); [lia|].
    destruct (@index_in_range _ Debt a) as (d & Hd & _); [lia|].
    assert (Hed : ~ fl (e - d) == 0) by (apply (Hnets a); auto; lia).
    unfold Returns.calculation at 1. rewrite He, Hd. cbv beta iota delta [bind].
    unfold Returns.thisReturn. rewrite div_nonzero by exact Hnet.
    cbv beta iota delta [bind].
    destruct (IH (a + 1)%Z b {| Returns.equity := e; Returns.debt := d |})
      as (outs & st' & Hrun & Hlen & Hrows & Hlast & Hprod); try lia.
    + exact Hed.
    + intros row e' d' Hrow. apply Hnets. lia.
    + rewrite Hrun. cbv beta iota delta [bind]. eexists. eexists.
      split; [reflexivity|]. split; [simpl; lia|].
      split; [|split].
      * intros [|k] Hk.
        -- eexists. eexists. eexists. split; [reflexivity|].
           replace (a + Z.of_nat 0)%Z with a by lia. split; assumption.
        -- destruct (Hrows k) as (e' & d' & r' & Hk' & He' & Hd'); [lia|].
           exists e', d', r'. split; [exact Hk'|].
           replace (a + Z.of_nat (S k))%Z with (a + 1 + Z.of_nat k)%Z by lia.
           split; assumption.
      * intros _. destruct n as [|n'].
        -- rewrite xrange_nil in Hrun by lia. cbn [calc_rows] in Hrun.
           inversion Hrun; subst. cbn [Returns.equity Returns.debt].
           replace (b - 1)%Z with a by lia. split; assumption.
        -- apply Hlast. lia.
      * intros Hfl. cbn [Returns.compounded Returns.return_of].
        specialize (Hprod Hfl).
        cbn [Returns.equity Returns.debt] in Hprod. rewrite <- Hprod.
        rewrite Hfl in Hnet.
        rewrite (Hfl (fl (fl (e - d) / fl (Returns.equity st - Returns.debt st)) - 1)),
          (Hfl (fl (e - d) / fl (Returns.equity st - Returns.debt st))),
          (Hfl (e - d)), (Hfl (Returns.equity st - Returns.debt st)).
        field. exact Hnet.
Qed.

End ReturnSeries.

Lemma returns_over_a_stretch_witness :
  exists outs st',
    calc_rows (ReturnsAnalysis.Returns.calculation (fun x => x)
                 [100; 110; 121] [0; 0; 11]) 0
              (xrange 0 3) (ReturnsAnalysis.Returns.init_state 100) = Ok (outs, st')
    /\ length outs = 3%nat
    /\ (forall k, (k < 3)%nat ->
          exists e d r,
            nth_error outs k = Some (PyList [PyFloat e; PyFloat d; PyFloat r])
            /\ index [100; 110; 121] (0 + Z.of_nat k) = Ok e
            /\ index [0; 0; 11] (0 + Z.of_nat k) = Ok d)
    /\ ((0 < 3)%nat ->
        index [100; 110; 121] (3 - 1) = Ok (ReturnsAnalysis.Returns.equity st')
        /\ index [0; 0; 11] (3 - 1) = Ok (ReturnsAnalysis.Returns.debt st'))
    /\ ((forall x : Q, x == x) ->
        ReturnsAnalysis.Returns.compounded outs
        * (ReturnsAnalysis.Returns.equity (ReturnsAnalysis.Returns.init_state 100)
           - ReturnsAnalysis.Returns.debt (ReturnsAnalysis.Returns.init_state 100))
        == ReturnsAnalysis.Returns.equity st' - ReturnsAnalysis.Returns.debt st').
Proof.
  apply (@returns_over_a_stretch (fun x => x) [100; 110; 121] [0; 0; 11] 3 0 3
           (ReturnsAnalysis.Returns.init_state 100)).
  - reflexivity.
  - lia.
  - unfold len. simpl. lia.
  - unfold len. simpl. lia.
  - discriminate.
  - intros row e d Hrow He Hd.
    assert (Hcase : row = 0%Z \/ row = 1%Z \/ row = 2%Z) by lia.
    destruct Hcase as [-> | [-> | ->]]; vm_compute in He, Hd;
      inversion He; inversion Hd; subst; discriminate.
Defined.

(* ################################################################# *)
(** * [__listTrades__] and [__countTrades__] *)

Section FoldLoop.

Variable B : Type.
Variable body : B -> Z -> result B.

(** A loop over a row range whose every step returns and keeps an
    invariant indexed by the row returns, with the invariant at the end. *)
Lemma foldM_xrange (Inv : Z -> B -> Prop) (b : Z) :
  (forall row acc, (row < b)%Z -> Inv row acc ->
                   exists acc', body acc row = Ok acc' /\ Inv (row + 1)%Z acc') ->
  forall (n : nat) (a : Z) (acc : B),
    Z.to_nat (b - a) = n -> Inv a acc ->
    exists acc', foldM body (xrange a b) acc = Ok acc' /\ Inv (Z.max a b) acc'.
Proof.
  intros Hstep n. induction n as [|n IH]; intros a acc Hn Ha.
  - rewrite xrange_nil by lia. exists acc. split; [reflexivity|].
    replace (Z.max a b) with a by lia. exact Ha.
  - rewrite xrange_cons by lia. cbn [foldM].
    destruct (Hstep a acc) as (acc1 & Hb & Hinv); [lia | exact Ha |].
    rewrite Hb. cbv beta iota delta [bind].
    destruct (IH (a + 1)%Z acc1) as (acc' & Hrun & Hend); [lia | exact Hinv |].
    exists acc'. split; [exact Hrun|].
    replace (Z.max a b) with (Z.max (a + 1) b) by lia. exact Hend.
Qed.

End FoldLoop.

Section TradeLists.

Import Trades.

Variable Date : list Z.
Variable Position Equity : list Q.
Hypothesis positions_aligned : len Position = len Date.
Hypothesis equities_aligned : len Equity = len Date.

Let closed {A : Type} (l : list (option A)) : Prop := Forall (fun x => x <> None) l.

(** Before [row]: the lists are pairwise aligned, every exit noted so far
    is a real one, and one more entry than exits is noted exactly when a
    trade is noted at all and the position of the row before is not 0. *)
Let listed (row : Z) (t : trade_list) : Prop :=
  (1 <= row)%Z
  /\ length (entry_equity t) = length (entry_date t)
  /\ length (exit_equity t) = length (exit_date t)
  /\ closed (exit_date t) /\ closed (exit_equity t)
  /\ ((entry_date t = [] /\ exit_date t = [])
      \/ (entry_date t <> []
          /\ exists p, index Position (row - 1) = Ok p
                       /\ length (entry_date t)
                          = (length (exit_date t)
                             + (if Qeq_bool p 0 then 0 else 1))%nat)).

Lemma closed_app {A : Type} (l : list (option A)) (x : A) :
  closed l -> closed (l ++ [Some x]).
Proof.
  intros H. apply Forall_app. split; [exact H|].
  constructor; [discriminate | constructor].
Qed.

Lemma len_zero {A : Type} (l : list A) : (len l =? 0)%Z = true <-> l = [].
Proof.
  unfold len. rewrite Z.eqb_eq. destruct l; simpl; split; intros H;
    try reflexivity; try discriminate; lia.
Qed.

Lemma Qeq_bool_zero (p q : Q) :
  Qeq_bool p q = true -> Qeq_bool p 0 = Qeq_bool q 0.
Proof.
  intros H. apply Qeq_bool_iff in H.
  destruct (Qeq_bool q 0) eqn:E.
  - apply Qeq_bool_iff in E. apply Qeq_bool_iff. rewrite H. exact E.
  - destruct (Qeq_bool p 0) eqn:E'; [|reflexivity].
    apply Qeq_bool_iff in E'. rewrite H in E'.
    apply Qeq_bool_iff in E'. congruence.
Qed.

Lemma listTrades_step (row : Z) (t : trade_list) :
  (row < len Date)%Z -> listed row t ->
  exists t', listTrades_row Date Position Equity t row = Ok t'
             /\ listed (row + 1) t'.
Proof.
  intros Hrow (H1 & Hee & Hxe & Hcd & Hce & Hopen).
  destruct (@index_in_range _ Position row) as (this & Hthis & _); [lia|].
  destruct (@index_in_range _ Position (row - 1)) as (before & Hbefore & _); [lia|].
  destruct (@index_in_range _ Date row) as (d & Hd & _); [lia|].
  destruct (@index_in_range _ Equity row) as (e & He & _); [lia|].
  unfold listed, listTrades_row. rewrite Hthis, Hbefore, ?Hd, ?He. cbv beta iota delta [bind].
  replace (row + 1 - 1)%Z with row by lia.
  destruct (Qeq_bool this before) eqn:Hsame; cbn [negb].
  - (* no change of position *)
    exists t. split; [reflexivity|].
    split; [lia|]. split; [exact Hee|]. split; [exact Hxe|].
    split; [exact Hcd|]. split; [exact Hce|].
    destruct Hopen as [Hempty | (Hne & p & Hp & Hlen)]; [left; exact Hempty|].
    right. split; [exact Hne|]. exists this. split; [first [exact Hthis | reflexivity]|].
    rewrite Hbefore in Hp. inversion Hp; subst p.
    rewrite (@Qeq_bool_zero _ _ Hsame). exact Hlen.
  - destruct (len (entry_date t) =? 0)%Z eqn:Hnone; cbn [negb].
    + (* nothing noted yet *)
      apply len_zero in Hnone.
      destruct Hopen as [[_ Hx] | (Hne & _)]; [|contradiction].
      cbv beta iota delta [bind]. rewrite ?Hthis. cbv beta iota delta [bind].
      destruct (Qeq_bool this 0) eqn:Hflat; cbn [negb].
      * exists t. split; [reflexivity|].
        split; [lia|]. split; [exact Hee|]. split; [exact Hxe|].
        split; [exact Hcd|]. split; [exact Hce|]. left. auto.
      * rewrite ?Hd, ?He. cbv beta iota delta [bind].
        eexists. split; [reflexivity|].
        cbn [entry_date entry_equity exit_date exit_equity].
        split; [lia|]. split; [rewrite !length_app, Hee; reflexivity|].
        split; [exact Hxe|]. split; [exact Hcd|]. split; [exact Hce|].
        right. split; [destruct (entry_date t); discriminate|].
        exists this. split; [first [exact Hthis | reflexivity]|]. rewrite Hflat.
        rewrite Hnone, Hx. reflexivity.
    + (* a trade is noted *)
      destruct Hopen as [[Hempty _] | (Hne & p & Hp & Hlen)].
      { apply len_zero in Hempty. congruence. }
      rewrite Hbefore in Hp. inversion Hp; subst p.
      rewrite ?Hbefore. cbv beta iota delta [bind].
      destruct (Qeq_bool before 0) eqn:Hwas; cbn [negb].
      * cbv beta iota delta [bind]. rewrite ?Hthis. cbv beta iota delta [bind].
        destruct (Qeq_bool this 0) eqn:Hflat; cbn [negb].
        -- exists t. split; [reflexivity|].
           split; [lia|]. split; [exact Hee|]. split; [exact Hxe|].
           split; [exact Hcd|]. split; [exact Hce|].
           right. split; [exact Hne|]. exists this. split; [first [exact Hthis | reflexivity]|].
           rewrite Hflat. exact Hlen.
        -- rewrite ?Hd, ?He. cbv beta iota delta [bind].
           eexists. split; [reflexivity|].
           cbn [entry_date entry_equity exit_date exit_equity].
           split; [lia|]. split; [rewrite !length_app, Hee; reflexivity|].
           split; [exact Hxe|]. split; [exact Hcd|]. split; [exact Hce|].
           right. split; [destruct (entry_date t); discriminate|].
           exists this. split; [first [exact Hthis | reflexivity]|]. rewrite Hflat.
           rewrite length_app, Hlen. simpl. lia.
      * rewrite ?Hd, ?He. cbv beta iota delta [bind].
        cbn [entry_date entry_equity exit_date exit_equity].
        rewrite ?Hthis. cbv beta iota delta [bind].
        destruct (Qeq_bool this 0) eqn:Hflat; cbn [negb].
        -- eexists. split; [reflexivity|].
           cbn [entry_date entry_equity exit_date exit_equity].
           split; [lia|]. split; [exact Hee|].
           split; [rewrite !length_app, Hxe; reflexivity|].
           split; [apply closed_app; exact Hcd|].
           split; [apply closed_app; exact Hce|].
           right. split; [exact Hne|]. exists this. split; [first [exact Hthis | reflexivity]|].
           rewrite Hflat. rewrite length_app, Hlen. simpl. lia.
        -- rewrite ?Hd, ?He. cbv beta iota delta [bind].
           eexists. split; [reflexivity|].
           cbn [entry_date entry_equity exit_date exit_equity].
           split; [lia|]. split; [rewrite !length_app, Hee; reflexivity|].
           split; [rewrite !length_app, Hxe; reflexivity|].
           split; [apply closed_app; exact Hcd|].
           split; [apply closed_app; exact Hce|].
           right. split; [destruct (entry_date t); discriminate|].
           exists this. split; [first [exact Hthis | reflexivity]|]. rewrite Hflat.
           rewrite !length_app, Hlen. simpl. lia.
Qed.

Lemma closed_nth {A : Type} (l extra : list (option A)) (k : nat) :
  closed l -> (k < length l)%nat -> nth_error (l ++ extra) k <> Some None.
Proof.
  intros Hl Hk. rewrite nth_error_app1 by exact Hk.
  destruct (nth_error l k) as [x|] eqn:E; [|discriminate].
  intros Hx. inversion Hx; subst x.
  unfold closed in Hl. rewrite Forall_forall in Hl.
  apply (Hl None); [eapply nth_error_In; eauto | reflexivity].
Qed.

Lemma last_position (initial_period : Z) (q : Q) :
  (0 <= initial_period)%Z ->
  (initial_period + 1 < len Date)%Z ->
  index Position (-1) = Ok q ->
  index Position (Z.max (initial_period + 1) (len Date) - 1) = Ok q.
Proof.
  intros Hp Hrows Hq.
  replace (Z.max (initial_period + 1) (len Date)) with (len Date) by lia.
  rewrite <- positions_aligned. unfold index in *.
  replace (-1 <? 0)%Z with true in Hq by reflexivity.
  fold (len Position) in *.
  replace (len Position - 1 <? 0)%Z with false by (symmetry; apply Z.ltb_ge; lia).
  replace (-1 + len Position)%Z with (len Position - 1)%Z in Hq by lia.
  exact Hq.
Qed.

(** X13.  On aligned columns [__listTrades__] returns four lists of one length:
    every entry has its exit.  Only the last exit can be the ["TBC"]
    marker, and it is exactly when the position on the last row is not 0. *)
Theorem listTrades_pairs_entries_and_exits (initial_period : Z) :
  (0 <= initial_period)%Z ->
  exists t,
    listTrades Date Position Equity initial_period = Ok t
    /\ length (entry_equity t) = length (entry_date t)
    /\ length (exit_date t) = length (entry_date t)
    /\ length (exit_equity t) = length (entry_date t)
    /\ (forall k, (S k < length (exit_date t))%nat ->
                  nth_error (exit_date t) k <> Some None
                  /\ nth_error (exit_equity t) k <> Some None)
    /\ (forall p, entry_date t <> [] -> (initial_period + 1 < len Date)%Z ->
                  index Position (-1) = Ok p ->
                  (last (exit_date t) None = None <-> ~ p == 0)).
Proof.
  intros Hp.
  destruct (@foldM_xrange _ (listTrades_row Date Position Equity) listed (len Date))
    with (n := Z.to_nat (len Date - (initial_period + 1)))
         (a := (initial_period + 1)%Z) (acc := no_trades)
    as (t & Hrun & Hend).
  - intros row acc Hrow Hacc. apply listTrades_step; assumption.
  - reflexivity.
  - unfold listed, no_trades, closed. cbn.
    split; [lia|]. repeat (split; [first [reflexivity | constructor]|]).
    left. auto.
  - destruct Hend as (_ & Hee & Hxe & Hcd & Hce & Hopen).
    unfold listTrades. rewrite Hrun. cbv beta iota delta [bind].
    destruct (len (entry_date t) >? len (exit_date t))%Z eqn:Hmore.
    + (* an ongoing trade *)
      apply Z.gtb_lt in Hmore. unfold len in Hmore.
      destruct Hopen as [[He Hx] | (Hne & p & Hpos & Hlen)].
      { rewrite He, Hx in Hmore. simpl in Hmore. lia. }
      destruct (Qeq_bool p 0) eqn:Hflat; [lia|].
      eexists. split; [reflexivity|].
      cbn [entry_date entry_equity exit_date exit_equity].
      rewrite !length_app, Hxe, Hlen. simpl.
      split; [rewrite Hee, Hlen; reflexivity|]. split; [reflexivity|].
      split; [reflexivity|]. split.
      * intros k Hk. split; apply closed_nth; auto; lia.
      * intros q _ Hrows Hq. rewrite last_last.
        split; [intros _ | reflexivity].
        rewrite (@last_position _ _ Hp Hrows Hq) in Hpos. inversion Hpos; subst q.
        intros Hzero. apply Qeq_bool_iff in Hzero. congruence.
    + (* every trade is over *)
      assert (Hle : (length (entry_date t) <= length (exit_date t))%nat).
      { unfold len in Hmore. rewrite Z.gtb_ltb in Hmore.
        apply Z.ltb_ge in Hmore. lia. }
      exists t. split; [reflexivity|].
      assert (Hsame : length (exit_date t) = length (entry_date t)).
      { destruct Hopen as [[He Hx] | (Hne & p & Hpos & Hlen)].
        - rewrite He, Hx. reflexivity.
        - destruct (Qeq_bool p 0); lia. }
      split; [exact Hee|]. split; [exact Hsame|].
      split; [rewrite Hxe; exact Hsame|]. split.
      * intros k Hk.
        rewrite <- (app_nil_r (exit_date t)), <- (app_nil_r (exit_equity t)).
        split; apply closed_nth; auto; lia.
      * intros q Hne Hrows Hq.
        destruct Hopen as [[He _] | (_ & p & Hpos & Hlen)]; [contradiction|].
        rewrite (@last_position _ _ Hp Hrows Hq) in Hpos. inversion Hpos; subst q.
        destruct (Qeq_bool p 0) eqn:Hflat; [|lia].
        apply Qeq_bool_iff in Hflat.
        split; [|intros Hn; contradiction].
        intros Hlast. exfalso.
        destruct (exit_date t) as [|x xs] eqn:Ex.
        -- destruct (entry_date t); [contradiction | simpl in Hsame; discriminate].
        -- assert (Hin : In (last (x :: xs) None) (x :: xs)).
           { destruct (@exists_last _ (x :: xs)) as (l' & y & Hl'); [discriminate|].
             rewrite Hl', last_last. apply in_or_app. right. left. reflexivity. }
           rewrite Hlast in Hin.
           unfold closed in Hcd. rewrite Forall_forall in Hcd.
           apply (Hcd None Hin). reflexivity.
Qed.

End TradeLists.

Lemma listTrades_pairs_entries_and_exits_witness :
  exists t,
    Trades.listTrades [1; 2; 3; 4; 5; 6]%Z [0; 1; 1; 0; -1; -1]
                      [100; 100; 104; 103; 103; 101] 0 = Ok t
    /\ length (Trades.entry_equity t) = length (Trades.entry_date t)
    /\ length (Trades.exit_date t) = length (Trades.entry_date t)
    /\ length (Trades.exit_equity t) = length (Trades.entry_date t)
    /\ (forall k, (S k < length (Trades.exit_date t))%nat ->
                  nth_error (Trades.exit_date t) k <> Some None
                  /\ nth_error (Trades.exit_equity t) k <> Some None)
    /\ (forall p, Trades.entry_date t <> [] -> (0 + 1 < len [1; 2; 3; 4; 5; 6]%Z)%Z ->
                  index [0; 1; 1; 0; -1; -1] (-1) = Ok p ->
                  (last (Trades.exit_date t) None = None <-> ~ p == 0)).
Proof.
  apply (@listTrades_pairs_entries_and_exits [1; 2; 3; 4; 5; 6]%Z
           [0; 1; 1; 0; -1; -1] [100; 100; 104; 103; 103; 101]).
  - reflexivity.
  - reflexivity.
  - lia.
Defined.

Section TradeCounts.

Import Trades.

Variable t : trade_list.
Variable bin_limits : Z * Z.
Hypothesis entries_aligned : length (entry_equity t) = length (entry_date t).
Hypothesis exits_aligned : length (exit_equity t) = length (entry_date t).

Let inside (d : Z) : bool := (d >=? fst bin_limits)%Z && (d <? snd bin_limits)%Z.

(** Before trade [i]: the trades counted are the entries seen so far that
    fall in the bin, and the wins are some of them. *)
Let counted (i : Z) (acc : Z * Z) : Prop :=
  (0 <= i)%Z
  /\ (0 <= snd acc <= fst acc)%Z
  /\ fst acc = Z.of_nat (length (filter inside (firstn (Z.to_nat i) (entry_date t)))).

Lemma countTrades_step (i : Z) (acc : Z * Z) :
  (i < len (entry_date t))%Z -> counted i acc ->
  exists acc', countTrades_row t bin_limits acc i = Ok acc' /\ counted (i + 1) acc'.
Proof.
  intros Hi (H0 & Hw & Hcount). destruct acc as [trades wins]. cbn [fst snd] in *.
  destruct (@index_in_range _ (entry_date t) i) as (d & Hd & _); [lia|].
  destruct (@index_in_range _ (entry_equity t) i) as (e & He & _);
    [unfold len in *; lia|].
  destruct (@index_in_range _ (exit_equity t) i) as (x & Hx & _);
    [unfold len in *; lia|].
  pose proof (index_nth _ H0 Hd) as Hnth.
  assert (Hnext : firstn (Z.to_nat (i + 1)) (entry_date t)
                  = firstn (Z.to_nat i) (entry_date t) ++ [d]).
  { replace (Z.to_nat (i + 1)) with (S (Z.to_nat i)) by lia.
    apply firstn_succ_nth. exact Hnth. }
  unfold counted, countTrades_row. rewrite Hd, Hx, He, Hnext, filter_app, length_app.
  cbv beta iota delta [bind]. cbn [filter]. fold (inside d).
  assert (Hin : ((if (d >=? fst bin_limits)%Z
                  then Ok (d <? snd bin_limits)%Z else Ok false) : result bool)
                = Ok (inside d)).
  { unfold inside. destruct (d >=? fst bin_limits)%Z; reflexivity. }
  rewrite Hin. destruct (inside d); cbn [fst snd length].
  - destruct x as [x|].
    + destruct (Qltb e x); eexists; (split; [reflexivity|]); cbn [fst snd]; lia.
    + eexists; (split; [reflexivity|]); cbn [fst snd]; lia.
  - eexists; (split; [reflexivity|]); cbn [fst snd]; lia.
Qed.

(** X14.  On a trade list with aligned columns [__countTrades__] returns: the
    trades are the entries dated in the bin (low edge included, high edge
    excluded), the wins are at most the trades, and the win ratio, between
    0 and 1, is 0 when the bin holds no trade and the quotient
    [1.0*wins/(1.0*trades)] otherwise. *)
Theorem countTrades_counts_bin :
  exists trades wins ratio,
    countTrades t bin_limits = Ok (trades, wins, ratio)
    /\ trades = Z.of_nat (length (filter inside (entry_date t)))
    /\ (0 <= wins <= trades)%Z
    /\ 0 <= ratio <= 1
    /\ ((trades = 0%Z /\ ratio = 0)
        \/ (trades <> 0%Z /\ ratio = 1 * inject_Z wins / (1 * inject_Z trades))).
Proof.
  destruct (@foldM_xrange _ (countTrades_row t bin_limits) counted (len (entry_date t)))
    with (n := Z.to_nat (len (entry_date t) - 0)) (a := 0%Z) (acc := (0%Z, 0%Z))
    as ([trades wins] & Hrun & Hend).
  - intros i acc Hi Hacc. apply countTrades_step; assumption.
  - reflexivity.
  - unfold counted. cbn. lia.
  - destruct Hend as (_ & Hw & Hcount). cbn [fst snd] in *.
    replace (Z.to_nat (Z.max 0 (len (entry_date t)))) with (length (entry_date t))
      in Hcount by (unfold len; lia).
    rewrite firstn_all in Hcount.
    unfold countTrades. rewrite Hrun. cbv beta iota delta [bind].
    destruct (trades =? 0)%Z eqn:Hnone.
    + apply Z.eqb_eq in Hnone.
      exists trades, wins, 0. split; [reflexivity|]. split; [exact Hcount|].
      split; [exact Hw|]. split; [split; lra|].
      left. split; [exact Hnone | reflexivity].
    + apply Z.eqb_neq in Hnone.
      assert (Hpos : 0 < inject_Z trades).
      { change 0 with (inject_Z 0). rewrite <- Zlt_Qlt. lia. }
      assert (Hwq : 0 <= inject_Z wins <= inject_Z trades).
      { change 0 with (inject_Z 0). rewrite <- !Zle_Qle. lia. }
      rewrite div_nonzero by lra.
      exists trades, wins, (1 * inject_Z wins / (1 * inject_Z trades)).
      split; [reflexivity|]. split; [exact Hcount|]. split; [exact Hw|].
      split; [split|].
      * apply Qle_shift_div_l; lra.
      * apply Qle_shift_div_r; lra.
      * right. split; [exact Hnone | reflexivity].
Qed.

End TradeCounts.

Lemma countTrades_counts_bin_witness :
  exists trades wins ratio,
    Trades.countTrades
      {| Trades.entry_date := [2; 5; 9]%Z;
         Trades.entry_equity := [100; 104; 103];
         Trades.exit_date := [Some 4; Some 7; None]%Z;
         Trades.exit_equity := [Some 104; Some 101; None] |} (2, 9)%Z
    = Ok (trades, wins, ratio)
    /\ trades = Z.of_nat (length (filter (fun d => (d >=? 2)%Z && (d <? 9)%Z)
                                         [2; 5; 9]%Z))
    /\ (0 <= wins <= trades)%Z
    /\ 0 <= ratio <= 1
    /\ ((trades = 0%Z /\ ratio = 0)
        \/ (trades <> 0%Z /\ ratio = 1 * inject_Z wins / (1 * inject_Z trades))).
Proof.
  apply (@countTrades_counts_bin
           {| Trades.entry_date := [2; 5; 9]%Z;
              Trades.entry_equity := [100; 104; 103];
              Trades.exit_date := [Some 4; Some 7; None]%Z;
              Trades.exit_equity := [Some 104; Some 101; None] |} (2, 9)%Z).
  - reflexivity.
  - reflexivity.
Defined.

(* ################################################################# *)
(** * [__positiveMonths__] and [__maxDrawdown__] *)

Section RangeFacts.

Lemma xrange_snoc (a b : Z) : (a <= b)%Z -> xrange a (b + 1) = xrange a b ++ [b].
Proof.
  intros H. unfold xrange.
  replace (Z.to_nat (b + 1 - a)) with (S (Z.to_nat (b - a))) by lia.
  rewrite seq_S, map_app. simpl. do 3 f_equal. lia.
Qed.

Lemma nth_error_combine {A B : Type} (l : list A) (l' : list B) (k : nat) (x : A) (y : B) :
  nth_error l k = Some x -> nth_error l' k = Some y ->
  nth_error (combine l l') k = Some (x, y).
Proof.
  revert l l'. induction k as [|k IH]; intros [|a l] [|b l'] Hx Hy;
    simpl in *; try discriminate.
  - inversion Hx; inversion Hy. reflexivity.
  - apply IH; assumption.
Qed.

End RangeFacts.

Section PositiveMonths.

Import Statistics.

Variable Return : list Q.
Variable first last : Z.
Hypothesis first_in_range : (0 <= first)%Z.
Hypothesis last_in_range : (last <= len Return)%Z.

(** The returns of the rows [first .. row-1]. *)
Let bin (row : Z) : list Q :=
  firstn (Z.to_nat (row - first)) (skipn (Z.to_nat first) Return).

Let tallied (row : Z) (acc : Z * Z) : Prop :=
  (first <= row)%Z
  /\ snd acc = (row - first)%Z
  /\ fst acc = Z.of_nat (length (filter (Qltb 0) (bin row)))
  /\ (0 <= fst acc <= snd acc)%Z.

(** X15.  [__positiveMonths__] on a bin within the returns column: the rows
    of the bin return; the fraction, between 0 and 1, is 0 on an empty bin
    and otherwise the quotient of the number of strictly positive returns
    of the bin by its number of rows. *)
Theorem positiveMonths_fraction :
  exists q,
    positiveMonths Return (first, last) = Ok q
    /\ 0 <= q <= 1
    /\ (((last <= first)%Z /\ q = 0)
        \/ ((first < last)%Z
            /\ q = 1 * inject_Z (Z.of_nat (length (filter (Qltb 0) (bin last))))
                   / (1 * inject_Z (last - first)))).
Proof.
  unfold positiveMonths. cbn [fst snd].
  match goal with
  | |- context [foldM ?body _ _] =>
      destruct (@foldM_xrange _ body tallied last)
        with (n := Z.to_nat (last - first)) (a := first) (acc := (0%Z, 0%Z))
        as ([positive months] & Hrun & Hend)
  end.
  - intros row [positive months] Hrow (Hlo & Hm & Hp & Hb). cbn [fst snd] in *.
    destruct (@index_in_range _ Return row) as (r & Hr & _); [lia|].
    rewrite Hr. cbv beta iota delta [bind].
    assert (Hnext : bin (row + 1) = bin row ++ [r]).
    { unfold bin. replace (Z.to_nat (row + 1 - first))
        with (S (Z.to_nat (row - first))) by lia.
      apply firstn_succ_nth. rewrite nth_error_skipn.
      replace (Z.to_nat first + Z.to_nat (row - first))%nat with (Z.to_nat row) by lia.
      apply index_nth; [lia | exact Hr]. }
    unfold tallied. rewrite Hnext, filter_app, length_app. cbn [filter].
    destruct (Qltb 0 r); eexists; (split; [reflexivity|]);
      cbn [fst snd length]; lia.
  - reflexivity.
  - unfold tallied, bin. cbn [fst snd].
    replace (first - first)%Z with 0%Z by lia. cbn. lia.
  - rewrite Hrun. cbv beta iota delta [bind].
    destruct Hend as (_ & Hm & Hp & Hb). cbn [fst snd] in *.
    destruct (months =? 0)%Z eqn:Hnone.
    + apply Z.eqb_eq in Hnone. exists 0. split; [reflexivity|].
      split; [split; lra|].
      left. split; [lia | reflexivity].
    + apply Z.eqb_neq in Hnone.
      assert (Hpos : 0 < inject_Z months).
      { change 0 with (inject_Z 0). rewrite <- Zlt_Qlt. lia. }
      assert (Hwq : 0 <= inject_Z positive <= inject_Z months).
      { change 0 with (inject_Z 0). rewrite <- !Zle_Qle. lia. }
      rewrite div_nonzero by lra.
      eexists. split; [reflexivity|]. split; [split|].
      * apply Qle_shift_div_l; lra.
      * apply Qle_shift_div_r; lra.
      * right. split; [lia|].
        replace (Z.max first last) with last in Hp by lia.
        rewrite <- Hp.
        replace (last - first)%Z with months by lia.
        reflexivity.
Qed.

End PositiveMonths.

Lemma positiveMonths_fraction_witness :
  exists q,
    Statistics.positiveMonths [1 # 100; - (2 # 100); 0; 3 # 100; 1 # 100] (1, 5)%Z = Ok q
    /\ 0 <= q <= 1
    /\ (((5 <= 1)%Z /\ q = 0)
        \/ ((1 < 5)%Z
            /\ q = 1 * inject_Z (Z.of_nat (length (filter (Qltb 0)
                      (firstn (Z.to_nat (5 - 1))
                              (skipn (Z.to_nat 1)
                                     [1 # 100; - (2 # 100); 0; 3 # 100; 1 # 100])))))
                   / (1 * inject_Z (5 - 1)))).
Proof.
  apply (@positiveMonths_fraction [1 # 100; - (2 # 100); 0; 3 # 100; 1 # 100] 1 5).
  - lia.
  - unfold len. simpl. lia.
Defined.

Section MaxDrawdown.

Import Statistics.

Variable Date : list Z.
Variable Drawdown Peak Equity : list Q.
Variable first last : Z.
Hypothesis some_row : (0 < len Date)%Z.
Hypothesis drawdowns_aligned : len Drawdown = len Date.
Hypothesis peaks_aligned : len Peak = len Date.
Hypothesis equities_aligned : len Equity = len Date.
Hypothesis first_in_range : (0 <= first)%Z.
Hypothesis last_in_range : (last <= len Date)%Z.

Let scanned (row : Z) (s : scan) : Prop :=
  (first <= row)%Z
  /\ 0 <= max_drawdown s
  /\ (forall k d, (first <= k < row)%Z -> index Drawdown k = Ok d ->
                  d <= max_drawdown s)
  /\ (max_drawdown s = 0
      \/ exists k, (first <= k < row)%Z /\ index Drawdown k = Ok (max_drawdown s))
  /\ period s = max_period s
  /\ max_period s
     = Z.of_nat (length (filter (under_water Peak Equity) (xrange first row))).

Lemma maxDrawdown_step (row : Z) (s : scan) :
  (row < last)%Z -> scanned row s ->
  exists s', maxDrawdown_row Date Drawdown Peak Equity s row = Ok s'
             /\ scanned (row + 1) s'.
Proof.
  intros Hrow (Hlo & H0 & Hmax & Hhit & Hper & Hcount).
  destruct (@index_in_range _ Drawdown row) as (d & Hd & _); [lia|].
  destruct (@index_in_range _ Peak row) as (p & Hp & _); [lia|].
  destruct (@index_in_range _ Equity row) as (e & He & _); [lia|].
  destruct (@index_in_range _ Date row) as (day & Hday & _); [lia|].
  destruct (@index_wraps _ Peak (row - 1)) as (pb & Hpb); [lia|].
  assert (Huw : under_water Peak Equity row = Qeq_bool p pb && negb (Qeq_bool p e)).
  { unfold under_water. rewrite Hp, Hpb, He. reflexivity. }
  unfold scanned. rewrite xrange_snoc, filter_app, length_app by lia.
  cbn [filter]. rewrite Huw.
  unfold maxDrawdown_row. rewrite Hd, Hp, Hpb, He, Hday. cbv beta iota delta [bind].
  set (s1 := if Qltb (max_drawdown s) d
             then {| max_drawdown := d; peak_date := peak_date s;
                     period := period s; max_period := max_period s |}
             else s).
  assert (Hs1 : (if Qltb (max_drawdown s) d
                 then Ok {| max_drawdown := d; peak_date := peak_date s;
                            period := period s; max_period := max_period s |}
                 else Ok s) = Ok s1).
  { unfold s1. destruct (Qltb (max_drawdown s) d); reflexivity. }
  rewrite Hs1. cbv beta iota delta [bind].
  assert (Hkeep : period s1 = period s /\ max_period s1 = max_period s).
  { unfold s1. destruct (Qltb (max_drawdown s) d); split; reflexivity. }
  destruct Hkeep as [Hk1 Hk2].
  assert (Hm1 : 0 <= max_drawdown s1
                /\ (forall k d', (first <= k < row + 1)%Z -> index Drawdown k = Ok d' ->
                                 d' <= max_drawdown s1)
                /\ (max_drawdown s1 = 0
                    \/ exists k, (first <= k < row + 1)%Z
                                 /\ index Drawdown k = Ok (max_drawdown s1))).
  { unfold s1. destruct (Qltb (max_drawdown s) d) eqn:E; cbn [max_drawdown].
    - apply Qltb_lt in E. split; [lra|]. split.
      + intros k d' Hk Hd'. destruct (Z.eq_dec k row) as [-> | Hne].
        * rewrite Hd in Hd'. inversion Hd'; subst. lra.
        * apply Qle_trans with (max_drawdown s); [|lra].
          apply (Hmax k); [lia | exact Hd'].
      + right. exists row. split; [lia | exact Hd].
    - apply Qltb_ge in E. split; [exact H0|]. split.
      + intros k d' Hk Hd'. destruct (Z.eq_dec k row) as [-> | Hne].
        * rewrite Hd in Hd'. inversion Hd'; subst. exact E.
        * apply (Hmax k); [lia | exact Hd'].
      + destruct Hhit as [Hz | (k & Hk & Hkd)]; [left; exact Hz|].
        right. exists k. split; [lia | exact Hkd]. }
  destruct Hm1 as (Ha & Hb & Hc).
  destruct (Qeq_bool p pb); cbn [andb].
  - destruct (Qeq_bool p e); cbn [negb].
    + exists s1. split; [reflexivity|].
      split; [lia|]. split; [exact Ha|]. split; [exact Hb|]. split; [exact Hc|].
      rewrite Hk1, Hk2. split; [exact Hper|]. cbn [length]. lia.
    + eexists. split; [reflexivity|].
      cbn [max_drawdown period max_period].
      split; [lia|]. split; [exact Ha|]. split; [exact Hb|]. split; [exact Hc|].
      rewrite Hk1, Hk2, Hper.
      replace (max_period s + 1 >? max_period s)%Z with true
        by (symmetry; apply Z.gtb_lt; lia).
      split; [reflexivity|]. cbn [length]. lia.
  - eexists. split; [reflexivity|].
    cbn [max_drawdown period max_period].
    split; [lia|]. split; [exact Ha|]. split; [exact Hb|]. split; [exact Hc|].
    rewrite Hk1, Hk2. split; [exact Hper|]. cbn [length]. lia.
Qed.

(** X16.  On aligned columns [__maxDrawdown__] returns.  The maximum is 0 or a
    drawdown of the range, and no drawdown of the range exceeds it.  The
    period counter is never set back: the reported period is the number of
    all under-water rows of the range, not the longest stretch of them. *)
Theorem maxDrawdown_counts_all_under_water_rows :
  exists m p,
    maxDrawdown Date Drawdown Peak Equity (first, last) = Ok (m, p)
    /\ 0 <= m
    /\ (forall row d, (first <= row < last)%Z -> index Drawdown row = Ok d -> d <= m)
    /\ (m = 0 \/ exists row, (first <= row < last)%Z /\ index Drawdown row = Ok m)
    /\ p = Z.of_nat (length (filter (under_water Peak Equity) (xrange first last))).
Proof.
  destruct (@index_in_range _ Date 0) as (d0 & Hd0 & _); [lia|].
  destruct (@foldM_xrange _ (maxDrawdown_row Date Drawdown Peak Equity) scanned last)
    with (n := Z.to_nat (last - first)) (a := first)
         (acc := {| max_drawdown := 0; peak_date := d0; period := 0; max_period := 0 |})
    as (s & Hrun & Hend).
  - intros row acc Hrow Hacc. apply maxDrawdown_step; assumption.
  - reflexivity.
  - unfold scanned. cbn [max_drawdown period max_period].
    split; [lia|]. split; [lra|]. split; [intros; lia|]. split; [left; reflexivity|].
    split; [reflexivity|]. rewrite xrange_nil by lia. reflexivity.
  - unfold maxDrawdown. rewrite Hd0. cbv beta iota delta [bind]. cbn [fst snd].
    rewrite Hrun. cbv beta iota delta [bind].
    destruct Hend as (_ & H0 & Hmax & Hhit & _ & Hcount).
    exists (max_drawdown s), (max_period s). split; [reflexivity|].
    split; [exact H0|].
    destruct (Z_lt_le_dec first last) as [Hlt | Hge].
    + replace (Z.max first last) with last in * by lia.
      split; [exact Hmax|]. split; [exact Hhit|]. exact Hcount.
    + replace (Z.max first last) with first in * by lia.
      split; [intros; lia|]. split.
      * destruct Hhit as [Hz | (k & Hk & _)]; [left; exact Hz | lia].
      * rewrite Hcount. rewrite !xrange_nil by lia. reflexivity.
Qed.

End MaxDrawdown.

Lemma maxDrawdown_counts_all_under_water_rows_witness :
  exists m p,
    Statistics.maxDrawdown [1; 2; 3; 4; 5; 6]%Z
      [0; 1 # 10; 0; 1 # 20; 0; 1 # 20] [100; 100; 120; 120; 130; 130]
      [100; 90; 120; 114; 130; 247 # 2] (1, 6)%Z = Ok (m, p)
    /\ 0 <= m
    /\ (forall row d, (1 <= row < 6)%Z ->
                      index [0; 1 # 10; 0; 1 # 20; 0; 1 # 20] row = Ok d -> d <= m)
    /\ (m = 0 \/ exists row, (1 <= row < 6)%Z
                             /\ index [0; 1 # 10; 0; 1 # 20; 0; 1 # 20] row = Ok m)
    /\ p = Z.of_nat (length (filter
             (Statistics.under_water [100; 100; 120; 120; 130; 130]
                                     [100; 90; 120; 114; 130; 247 # 2])
             (xrange 1 6))).
Proof.
  apply (@maxDrawdown_counts_all_under_water_rows [1; 2; 3; 4; 5; 6]%Z
           [0; 1 # 10; 0; 1 # 20; 0; 1 # 20] [100; 100; 120; 120; 130; 130]
           [100; 90; 120; 114; 130; 247 # 2] 1 6).
  - reflexivity.
  - reflexivity.
  - reflexivity.
  - reflexivity.
  - lia.
  - unfold len. simpl. lia.
Defined.

(* ################################################################# *)
(** * [GRADERR.__dayVar__] *)

Section DayVariances.

Import DayVariance.

(** The sum of the squared residuals of the day numbers [0 .. n-1] about a
    mean of 0. *)
Lemma squares_sum (m : Q) (n : nat) :
  m == 0 ->
  fold_left (fun s d => s + (inject_Z d - m) * (inject_Z d - m))
            (xrange 0 (Z.of_nat n)) 0
  * 6
  == (inject_Z (Z.of_nat n) - 1) * inject_Z (Z.of_nat n)
     * (2 * inject_Z (Z.of_nat n) - 1).
Proof.
  intros Hm. induction n as [|n IH].
  - rewrite xrange_nil by lia. simpl. ring.
  - replace (Z.of_nat (S n)) with (Z.of_nat n + 1)%Z by lia.
    rewrite xrange_snoc by lia. rewrite fold_left_app. cbn [fold_left].
    rewrite inject_Z_plus. change (inject_Z 1) with 1.
    set (total := fold_left _ _ _) in *.
    set (x := inject_Z (Z.of_nat n)) in *.
    nra.
Qed.

(** X19.  With one lookback window [N >= 2] the mean is taken over no day at all
    (the inner loop runs to the slot index, 0): the value returned is the
    mean square N(2N-1)/6 of the day numbers, above their sample variance
    N(N+1)/12. *)
Theorem dayVar_single_window (N : Z) :
  (2 <= N)%Z ->
  exists v,
    dayVar [N] = Ok [v]
    /\ v == inject_Z N * (2 * inject_Z N - 1) / 6
    /\ day_number_variance N < v.
Proof.
  intros HN.
  assert (Hq : 2 <= inject_Z N).
  { change 2 with (inject_Z 2). rewrite <- Zle_Qle. exact HN. }
  unfold dayVar. change (xrange 0 (len [N])) with [0%Z]. cbn [mapM].
  change (index [N] 0) with (Ok N). cbv beta iota delta [bind].
  change (xrange 0 0) with (@nil Z). cbn [fold_left].
  rewrite div_nonzero by lra. cbv beta iota delta [bind].
  rewrite div_nonzero by lra. cbv beta iota delta [bind].
  eexists. split; [reflexivity|].
  pose proof (@squares_sum (0 / (1 * inject_Z N)) (Z.to_nat N)) as Hsum.
  rewrite Z2Nat.id in Hsum by lia.
  set (total := fold_left _ _ _) in *.
  assert (Ht : total * 6 == (inject_Z N - 1) * inject_Z N * (2 * inject_Z N - 1)).
  { apply Hsum. field. lra. }
  assert (Hv : total / (inject_Z N - 1) == inject_Z N * (2 * inject_Z N - 1) / 6).
  { setoid_replace total with (total * 6 / 6) by (field).
    rewrite Ht. field. lra. }
  split; [exact Hv|].
  rewrite Hv. unfold day_number_variance.
  apply Qlt_shift_div_l; [lra|].
  setoid_replace (inject_Z N * (inject_Z N + 1) / 12 * 6)
    with (inject_Z N * (inject_Z N + 1) * (1 # 2)) by field.
  nra.
Qed.

(** The two divisions of a slot of [__dayVar__], by the window and by the
    window less one, are the only steps that can raise. *)
Lemma dayVar_outcome (lookback_days : list Z) :
  (dayVar lookback_days = Raise ZeroDivisionError
   <-> exists N, In N lookback_days /\ (N = 0 \/ N = 1)%Z)
  /\ (dayVar lookback_days = Raise ZeroDivisionError
      \/ exists vs, dayVar lookback_days = Ok vs
                    /\ length vs = length lookback_days).
Proof.
  unfold dayVar.
  set (slot := fun i : Z => _).
  assert (Hslot : forall i N, index lookback_days i = Ok N ->
                    ((N = 0 \/ N = 1)%Z /\ slot i = Raise ZeroDivisionError)
                    \/ ((N <> 0 /\ N <> 1)%Z /\ exists v, slot i = Ok v)).
  { intros i N Hi. unfold slot. rewrite Hi. cbv beta iota delta [bind].
    destruct (Z.eq_dec N 0) as [-> | H0].
    - left. split; [left; reflexivity|]. reflexivity.
    - assert (Hn : ~ 1 * inject_Z N == 0).
      { intros H. apply H0. apply (proj1 (inject_Z_injective N 0)).
        change (inject_Z 0) with 0. lra. }
      rewrite div_nonzero by exact Hn. cbv beta iota delta [bind].
      destruct (Z.eq_dec N 1) as [-> | H1].
      + left. split; [right; reflexivity|]. reflexivity.
      + right. split; [split; assumption|].
        rewrite div_nonzero; [eexists; reflexivity|].
        intros H. apply H1. apply (proj1 (inject_Z_injective N 1)).
        change (inject_Z 1) with 1. lra. }
  assert (Hrows : forall n a,
             Z.to_nat (len lookback_days - a) = n -> (0 <= a)%Z ->
             (mapM slot (xrange a (len lookback_days)) = Raise ZeroDivisionError
              /\ exists i N, (a <= i < len lookback_days)%Z
                             /\ index lookback_days i = Ok N /\ (N = 0 \/ N = 1)%Z)
             \/ ((exists vs, mapM slot (xrange a (len lookback_days)) = Ok vs
                             /\ length vs = n)
                 /\ forall i N, (a <= i < len lookback_days)%Z ->
                                index lookback_days i = Ok N -> (N <> 0 /\ N <> 1)%Z)).
  { induction n as [|n IH]; intros a Hn Ha.
    - right. rewrite xrange_nil by lia. split; [exists []; split; reflexivity|].
      intros i N Hi. lia.
    - rewrite xrange_cons by lia. cbn [mapM].
      destruct (@index_in_range _ lookback_days a) as (N & HN & _); [lia|].
      destruct (Hslot a N HN) as [[Hbad Hraise] | [Hgood (v & Hv)]].
      + left. rewrite Hraise. split; [reflexivity|].
        exists a, N. split; [lia|]. split; assumption.
      + rewrite Hv. cbv beta iota delta [bind].
        destruct (IH (a + 1)%Z) as [[Hraise (i & M & Hi & HM & Hbad)]
                                   | [(vs & Hvs & Hlen) Hall]]; try lia.
        * left. rewrite Hraise. split; [reflexivity|].
          exists i, M. split; [lia|]. split; assumption.
        * right. rewrite Hvs. split; [exists (v :: vs); split; simpl; congruence|].
          intros i M Hi HM. destruct (Z.eq_dec i a) as [-> | Hne].
          -- rewrite HN in HM. inversion HM; subst. exact Hgood.
          -- apply (Hall i); [lia | exact HM]. }
  assert (Hin : forall N, In N lookback_days ->
                  exists i, (0 <= i < len lookback_days)%Z
                            /\ index lookback_days i = Ok N).
  { intros N HN. apply In_nth_error in HN. destruct HN as (k & Hk).
    exists (Z.of_nat k). assert (k < length lookback_days)%nat.
    { apply nth_error_Some. congruence. }
    split; [unfold len; lia|].
    apply index_nonneg; [lia|]. rewrite Nat2Z.id. exact Hk. }
  destruct (Hrows (Z.to_nat (len lookback_days - 0)) 0%Z eq_refl)
    as [[Hraise (i & N & Hi & HN & Hbad)] | [(vs & Hvs & Hlen) Hall]]; [lia| |].
  - split.
    + split; [intros _ | intros _; exact Hraise].
      exists N. split; [|exact Hbad].
      destruct (@index_in_range _ lookback_days i Hi) as (M & HM & HMin).
      rewrite HN in HM. inversion HM; subst. exact HMin.
    + left. exact Hraise.
  - split.
    + split.
      * rewrite Hvs. discriminate.
      * intros (N & HN & Hbad). exfalso.
        destruct (Hin N HN) as (i & Hi & HiN).
        destruct (Hall i N Hi HiN). lia.
    + right. exists vs. split; [exact Hvs|].
      rewrite Hlen. unfold len. lia.
Qed.

(** X20.  Every slot of [__dayVar__] divides by its window and by the window
    less one: the method raises [ZeroDivisionError] exactly when some
    lookback window is 0 or 1, and returns one value per window otherwise. *)
Theorem dayVar_raises_on_short_window (lookback_days : list Z) :
  (dayVar lookback_days = Raise ZeroDivisionError
   <-> exists N, In N lookback_days /\ (N = 0 \/ N = 1)%Z)
  /\ (dayVar lookback_days = Raise ZeroDivisionError
      \/ exists vs, dayVar lookback_days = Ok vs
                    /\ length vs = length lookback_days).
Proof.
  exact (dayVar_outcome lookback_days).
Qed.

End DayVariances.

Lemma dayVar_single_window_witness :
  exists v,
    DayVariance.dayVar [20%Z] = Ok [v]
    /\ v == inject_Z 20 * (2 * inject_Z 20 - 1) / 6
    /\ DayVariance.day_number_variance 20 < v.
Proof.
  apply (@dayVar_single_window 20). lia.
Defined.

(* ################################################################# *)
(** * The constructors with a lookback window below 1 *)

Section Constructors.

Import Price Instances Construction.

(** [__calcAlpha__] divides by each window plus one. *)
Lemma calcAlpha_outcome (lookback : list Z) :
  (Exponential.calcAlpha lookback = Raise ZeroDivisionError /\ In (-1)%Z lookback)
  \/ ((exists alpha, Exponential.calcAlpha lookback = Ok alpha)
      /\ ~ In (-1)%Z lookback).
Proof.
  unfold Exponential.calcAlpha.
  induction lookback as [|i rest IH]; cbn [mapM].
  - right. split; [eexists; reflexivity | intros []].
  - destruct (Z.eq_dec i (-1)) as [-> | Hi].
    + left. split; [reflexivity | left; reflexivity].
    + rewrite div_nonzero.
      2:{ intros H. apply Hi.
          assert (E : inject_Z i == inject_Z (-1)) by (change (inject_Z (-1)) with (-1 # 1); lra).
          exact (proj1 (inject_Z_injective i (-1)) E). }
      cbv beta iota delta [bind].
      destruct IH as [[-> Hin] | [(alpha & ->) Hin]].
      * left. split; [reflexivity | right; exact Hin].
      * right. split; [eexists; reflexivity|].
        intros [E | H]; [congruence | contradiction].
Qed.

Lemma dayVar_cases (lookback : list Z) :
  (DayVariance.dayVar lookback = Raise ZeroDivisionError
   /\ (In 0%Z lookback \/ In 1%Z lookback))
  \/ ((exists vs, DayVariance.dayVar lookback = Ok vs)
      /\ ~ (In 0%Z lookback \/ In 1%Z lookback)).
Proof.
  destruct (dayVar_outcome lookback) as [Hiff [H | (vs & H & _)]].
  - left. split; [exact H|].
    apply Hiff in H. destruct H as (n & Hn & [-> | ->]); auto.
  - right. split; [eexists; exact H|].
    intros Hin.
    assert (E : DayVariance.dayVar lookback = Raise ZeroDivisionError).
    { apply Hiff. destruct Hin as [Hin | Hin]; eauto. }
    congruence.
Qed.

Ltac settle_outcome :=
  eexists; eexists; split; [reflexivity|];
  split; [first [left; reflexivity | right; reflexivity]|];
  split;
  [ intros E; first [discriminate E | tauto | (left; split; [reflexivity | assumption]) | (right; split; [reflexivity | assumption])]
  | intros [[Hc Hin] | [Hc Hin]];
    first [reflexivity | discriminate Hc | contradiction | tauto] ].




End Constructors.

(* ################################################################# *)
(** * [__pruneData__] *)

Section Pruning.

Import Period.

Variable analysis_period : Z * Z.
Variable Date : list Z.

(** The rows [__pruneData__] keeps of a column aligned with [Date]. *)
Let kept {A : Type} (column : list A) : list A :=
  map snd (filter (fun dc => in_period analysis_period (fst dc)) (combine Date column)).

Lemma prune_column_keeps {A : Type} (column : list A) :
  len column = len Date ->
  prune_column analysis_period Date column = Ok (kept column).
Proof.
  intros Hlen. unfold prune_column.
  match goal with
  | |- foldM ?body _ _ = _ =>
      destruct (@foldM_xrange _ body
                  (fun row values =>
                     (0 <= row)%Z
                     /\ values = map snd (filter (fun dc => in_period analysis_period (fst dc))
                                                 (firstn (Z.to_nat row) (combine Date column))))
                  (len Date))
        with (n := Z.to_nat (len Date - 0)) (a := 0%Z) (acc := @nil A)
        as (values & Hrun & _ & Hvalues)
  end.
  - intros row values Hrow [H0 Hv].
    destruct (@index_in_range _ Date row) as (d & Hd & _); [lia|].
    destruct (@index_in_range _ column row) as (x & Hx & _); [lia|].
    rewrite Hd, Hx. cbv beta iota delta [bind].
    replace (Z.to_nat (row + 1)) with (S (Z.to_nat row)) by lia.
    rewrite (@firstn_succ_nth _ (combine Date column) (Z.to_nat row) (d, x))
      by (apply nth_error_combine; apply index_nth; assumption).
    rewrite filter_app, map_app. cbn [filter fst].
    destruct (in_period analysis_period d); eexists;
      (split; [reflexivity|]); (split; [lia|]); rewrite Hv; cbn [map snd];
      rewrite ?app_nil_r; reflexivity.
  - reflexivity.
  - split; [lia | reflexivity].
  - rewrite Hrun. f_equal. rewrite Hvalues. unfold kept.
    rewrite firstn_all2; [reflexivity|].
    rewrite length_combine. unfold len in *. lia.
Qed.

Lemma kept_dates : kept Date = filter (in_period analysis_period) Date.
Proof.
  unfold kept. induction Date as [|d ds IH]; [reflexivity|].
  cbn [combine filter fst]. destruct (in_period analysis_period d); cbn [map snd];
    rewrite IH; reflexivity.
Qed.

Lemma kept_length {A : Type} (column : list A) :
  len column = len Date ->
  length (kept column) = length (filter (in_period analysis_period) Date).
Proof.
  unfold kept, len. rewrite length_map. revert column.
  induction Date as [|d ds IH]; intros [|x column] H; simpl in H; try lia.
  - reflexivity.
  - cbn [combine filter fst]. destruct (in_period analysis_period d); cbn [length];
      rewrite IH by lia; reflexivity.
Qed.

Lemma prune_columns_keep (columns : list (string * list pyval)) :
  (forall key column, In (key, column) columns -> len column = len Date) ->
  mapM (fun kc : string * list pyval =>
          values <- prune_column analysis_period Date (snd kc) ;;
          Ok (fst kc, values)) columns
  = Ok (map (fun kc => (fst kc, kept (snd kc))) columns).
Proof.
  induction columns as [|[key column] rest IH]; intros Haligned; [reflexivity|].
  cbn [mapM map fst snd].
  rewrite prune_column_keeps by (apply (Haligned key); left; reflexivity).
  cbv beta iota delta [bind] in IH |- *. rewrite IH; [reflexivity|].
  intros k c Hin. apply (Haligned k). right. exact Hin.
Qed.

(** X21.  On columns aligned with [Date], [__pruneData__] returns: it keeps, in
    order, the dates from the first to the last day of the period, both
    included, and of every column the values of exactly those rows, so that
    the pruned columns are aligned again. *)
Theorem pruneData_keeps_period_rows (columns : list (string * list pyval)) :
  (forall key column, In (key, column) columns -> len column = len Date) ->
  exists others,
    pruneData analysis_period Date columns
    = Ok (filter (fun d => (fst analysis_period <=? d)%Z
                           && (d <=? snd analysis_period)%Z) Date,
          others)
    /\ others = map (fun kc => (fst kc, kept (snd kc))) columns
    /\ forall key column, In (key, column) others ->
         length column
         = length (filter (fun d => (fst analysis_period <=? d)%Z
                                    && (d <=? snd analysis_period)%Z) Date).
Proof.
  intros Haligned.
  assert (Htest : forall l : list Z,
             filter (fun d => (fst analysis_period <=? d)%Z
                              && (d <=? snd analysis_period)%Z) l
             = filter (in_period analysis_period) l).
  { intros l. apply filter_ext. intros d. unfold in_period.
    rewrite Z.gtb_ltb, <- !Z.leb_antisym. reflexivity. }
  rewrite !Htest.
  unfold pruneData. rewrite prune_column_keeps by reflexivity.
  cbv beta iota delta [bind]. rewrite kept_dates.
  match goal with
  | |- context [mapM ?f columns] =>
      replace (mapM f columns)
        with (Ok (map (fun kc : string * list pyval => (fst kc, kept (snd kc))) columns)
              : result (list (string * list pyval)))
        by (symmetry; apply prune_columns_keep; exact Haligned)
  end.
  eexists. split; [reflexivity|]. split; [reflexivity|].
  intros key column Hin. apply in_map_iff in Hin.
  destruct Hin as ([k c] & Hkc & Hin). inversion Hkc; subst.
  cbn [snd]. apply kept_length. eapply Haligned. exact Hin.
Qed.

End Pruning.

Lemma pruneData_keeps_period_rows_witness :
  exists others,
    Period.pruneData (3, 5)%Z [1; 3; 4; 5; 8]%Z
      [("Close"%string, [PyFloat 10; PyFloat 11; PyFloat 12; PyFloat 13; PyFloat 14])]
    = Ok (filter (fun d => (fst (3, 5) <=? d)%Z && (d <=? snd (3, 5))%Z)%Z
                 [1; 3; 4; 5; 8]%Z,
          others)
    /\ others
       = map (fun kc : string * list pyval =>
                (fst kc,
                 map snd (filter (fun dc => Period.in_period (3, 5)%Z (fst dc))
                                 (combine [1; 3; 4; 5; 8]%Z (snd kc)))))
             [("Close"%string,
               [PyFloat 10; PyFloat 11; PyFloat 12; PyFloat 13; PyFloat 14])]
    /\ forall key column, In (key, column) others ->
         length column
         = length (filter (fun d => (fst (3, 5) <=? d)%Z && (d <=? snd (3, 5))%Z)%Z
                          [1; 3; 4; 5; 8]%Z).
Proof.
  apply (@pruneData_keeps_period_rows (3, 5)%Z [1; 3; 4; 5; 8]%Z
           [("Close"%string,
             [PyFloat 10; PyFloat 11; PyFloat 12; PyFloat 13; PyFloat 14])]).
  intros key column [H | []]. inversion H; subst. reflexivity.
Defined.

(* ################################################################# *)
(** * [ATR.__variable__] and [N.__calculation__] *)

Section TrueRanges.

Import TrueRange.

Variable High Low Close : list Q.
Hypothesis lows_aligned : len Low = len High.
Hypothesis closes_aligned : len Close = len High.

Lemma variable_returns (row i : Z) :
  (0 <= row < len High)%Z -> exists tr, variable High Low Close row i = Ok tr.
Proof.
  intros Hrow.
  destruct (@index_in_range _ High row) as (h & Hh & _); [lia|].
  destruct (@index_in_range _ Low row) as (l & Hl & _); [lia|].
  unfold variable. rewrite Hh, Hl. cbv beta iota delta [bind].
  destruct (row =? 0)%Z eqn:E; [eauto|].
  apply Z.eqb_neq in E.
  destruct (@index_in_range _ Close (row - 1)) as (c & Hc & _); [lia|].
  rewrite Hc. cbv beta iota delta [bind]. eauto.
Qed.

(** X22.  After the first row the True Range is the greatest of the day's range
    and the two gaps to the close of the day before, and it is not
    negative; on the first row it is the day's range alone. *)
Theorem true_range_is_greatest (row i : Z) :
  (0 <= row < len High)%Z ->
  exists h l tr,
    index High row = Ok h /\ index Low row = Ok l
    /\ variable High Low Close row i = Ok tr
    /\ (row = 0%Z -> tr = h - l)
    /\ forall c, (0 < row)%Z -> index Close (row - 1) = Ok c ->
         h - l <= tr /\ Qabs (c - h) <= tr /\ Qabs (c - l) <= tr /\ 0 <= tr
         /\ (tr = h - l \/ tr = Qabs (c - h) \/ tr = Qabs (c - l)).
Proof.
  intros Hrow.
  destruct (@index_in_range _ High row) as (h & Hh & _); [lia|].
  destruct (@index_in_range _ Low row) as (l & Hl & _); [lia|].
  exists h, l. unfold variable. rewrite Hh, Hl. cbv beta iota delta [bind].
  destruct (row =? 0)%Z eqn:E.
  - apply Z.eqb_eq in E. exists (h - l).
    split; [reflexivity|]. split; [reflexivity|]. split; [reflexivity|].
    split; [reflexivity|]. intros c Hpos. lia.
  - apply Z.eqb_neq in E.
    destruct (@index_in_range _ Close (row - 1)) as (c & Hc & _); [lia|].
    rewrite Hc. cbv beta iota delta [bind].
    eexists. split; [reflexivity|]. split; [reflexivity|]. split; [reflexivity|].
    split; [intros; lia|].
    intros c' _ Hc'. inversion Hc'; subst c'.
    pose proof (Qabs_nonneg (c - h)) as Hb.
    pose proof (Qabs_nonneg (c - l)) as Hcl.
    destruct (Qltb (h - l) (Qabs (c - h))) eqn:E1.
    + apply Qltb_lt in E1.
      destruct (Qltb (Qabs (c - h)) (Qabs (c - l))) eqn:E2.
      * apply Qltb_lt in E2. repeat split; try lra. right. right. reflexivity.
      * apply Qltb_ge in E2. repeat split; try lra. right. left. reflexivity.
    + apply Qltb_ge in E1.
      destruct (Qltb (h - l) (Qabs (c - l))) eqn:E2.
      * apply Qltb_lt in E2. repeat split; try lra. right. right. reflexivity.
      * apply Qltb_ge in E2. repeat split; try lra. left. reflexivity.
Qed.

End TrueRanges.

Section NPair.

Import TrueRange.

Variable fl : Q -> Q.
Variable true_range : Z -> Z -> result Q.
Variable lookback_days : list Z.
Variable i w last : Z.
Hypothesis true_range_returns :
  forall row, (0 <= row < last)%Z -> exists tr, true_range row i = Ok tr.
Hypothesis window_i : index lookback_days i = Ok w.
Hypothesis window_positive : (1 <= w)%Z.

(** The factor of the iteration: (window - 1) / window. *)
Let factor : Q := (inject_Z w - 1) / inject_Z w.

Lemma window_nonzero : ~ inject_Z w == 0.
Proof.
  assert (1 <= inject_Z w).
  { change 1 with (inject_Z 1). rewrite <- Zle_Qle. exact window_positive. }
  lra.
Qed.

(** A relation between the values of two objects, kept by every step. *)
Variable related_sums : Q -> Q -> Prop.
Variable related : nat -> Q -> Q -> Prop.
Hypothesis sums_step :
  forall acc acc0 x, related_sums acc acc0 ->
                     related_sums (fl (acc + x)) (fl (acc0 + x)).
Hypothesis first_step :
  forall t t0, related_sums t t0 ->
               related 0 (fl (t / inject_Z w)) (fl (t0 / inject_Z w)).
Hypothesis later_step :
  forall k v v0 x,
    related k v v0 ->
    related (S k)
            (fl (fl (fl (v * (inject_Z w - 1)) + x) / inject_Z w))
            (fl (fl (fl (v0 * (inject_Z w - 1)) + x) / inject_Z w)).

(** The first step adds the true ranges to whatever the sum holds. *)
Lemma seed_sum_pair (rows : list Z) :
  (forall r, In r rows -> (0 <= r < last)%Z) ->
  forall acc acc0,
    related_sums acc acc0 ->
    exists t t0,
      foldM (fun sum r => x <- true_range r i ;; Ok (fl (sum + x))) rows acc = Ok t
      /\ foldM (fun sum r => x <- true_range r i ;; Ok (fl (sum + x))) rows acc0 = Ok t0
      /\ related_sums t t0.
Proof.
  induction rows as [|r rows IH]; intros Hrows acc acc0 Hrel.
  - exists acc, acc0. split; [reflexivity|]. split; [reflexivity | exact Hrel].
  - destruct (@true_range_returns r) as (x & Hx); [apply Hrows; left; reflexivity|].
    cbn [foldM]. rewrite Hx. cbv beta iota delta [bind].
    apply (IH (fun r' H => Hrows r' (or_intror H))).
    apply sums_step. exact Hrel.
Qed.

(** Two objects iterated over the same rows. *)
Lemma iterate_pair (n : nat) : forall (a : Z) (st st0 : N_state) (k0 : nat),
  Z.to_nat (last - a) = n -> (w < a)%Z ->
  related k0 (N_value st) (N_value st0) ->
  exists outs outs0 st' st0',
    calc_rows (N_calculation fl true_range lookback_days) i (xrange a last) st
    = Ok (outs, st')
    /\ calc_rows (N_calculation fl true_range lookback_days) i (xrange a last) st0
       = Ok (outs0, st0')
    /\ forall k, (k < n)%nat ->
         exists q q0,
           nth_error outs k = Some (PyFloat q)
           /\ nth_error outs0 k = Some (PyFloat q0)
           /\ related (k0 + k + 1) q q0.
Proof.
  pose proof window_nonzero as Hw.
  induction n as [|n IH]; intros a st st0 k0 Hn Ha Hrel.
  - rewrite xrange_nil by lia. exists [], [], st, st0.
    split; [reflexivity|]. split; [reflexivity|]. intros k Hk. lia.
  - rewrite xrange_cons by lia. cbn [calc_rows].
    destruct (@true_range_returns (a - 1)) as (x & Hx); [lia|].
    unfold N_calculation at 1 3.
    change (Price.MA.initial_period lookback_days i) with (index lookback_days i).
    rewrite window_i. cbv beta iota delta [bind].
    replace (a =? w)%Z with false by (symmetry; apply Z.eqb_neq; lia).
    rewrite Hx. cbv beta iota delta [bind].
    rewrite !div_nonzero by exact Hw. cbv beta iota delta [bind].
    pose proof (later_step x Hrel) as Hnext.
    destruct (IH (a + 1)%Z
                {| N_sum := N_sum st;
                   N_value := fl (fl (fl (N_value st * (inject_Z w - 1)) + x)
                                  / inject_Z w) |}
                {| N_sum := N_sum st0;
                   N_value := fl (fl (fl (N_value st0 * (inject_Z w - 1)) + x)
                                  / inject_Z w) |}
                (S k0))
      as (outs & outs0 & st' & st0' & Hrun & Hrun0 & Houts).
    + lia.
    + lia.
    + exact Hnext.
    + rewrite Hrun, Hrun0. cbv beta iota delta [bind].
      eexists. eexists. eexists. eexists.
      split; [reflexivity|]. split; [reflexivity|].
      intros [|k] Hk.
      * eexists. eexists. split; [reflexivity|]. split; [reflexivity|].
        replace (k0 + 0 + 1)%nat with (S k0) by lia. exact Hnext.
      * destruct (Houts k) as (q & q0 & Hq & Hq0 & Hd); [lia|].
        exists q, q0. split; [exact Hq|]. split; [exact Hq0|].
        replace (k0 + S k + 1)%nat with (S k0 + k + 1)%nat by lia. exact Hd.
Qed.

Lemma rows_pair (seed seed0 v v0 : Q) :
  related_sums seed seed0 ->
  exists outs outs0 st' st0',
    calc_rows (N_calculation fl true_range lookback_days) i (xrange w last)
              {| N_sum := seed; N_value := v |} = Ok (outs, st')
    /\ calc_rows (N_calculation fl true_range lookback_days) i (xrange w last)
                 {| N_sum := seed0; N_value := v0 |} = Ok (outs0, st0')
    /\ forall k, (w + Z.of_nat k < last)%Z ->
         exists q q0,
           nth_error outs k = Some (PyFloat q)
           /\ nth_error outs0 k = Some (PyFloat q0)
           /\ related k q q0.
Proof.
  intros Hrel.
  pose proof window_nonzero as Hw.
  destruct (Z_lt_le_dec w last) as [Hrows | Hnone].
  - rewrite xrange_cons by lia. cbn [calc_rows].
    unfold N_calculation at 1 3.
    change (Price.MA.initial_period lookback_days i) with (index lookback_days i).
    rewrite window_i. cbv beta iota delta [bind]. rewrite Z.eqb_refl.
    destruct (@seed_sum_pair (xrange 0 w)) with (acc := seed) (acc0 := seed0)
      as (t & t0 & Ht & Ht0 & Hd).
    { intros r Hr. apply xrange_In in Hr. lia. }
    { exact Hrel. }
    cbv beta iota delta [bind] in Ht, Ht0.
    cbn [N_sum]. rewrite Ht, Ht0. cbv beta iota delta [bind].
    rewrite !div_nonzero by exact Hw. cbv beta iota delta [bind].
    pose proof (first_step Hd) as Hfirst.
    destruct (@iterate_pair (Z.to_nat (last - (w + 1))) (w + 1)%Z
                {| N_sum := t; N_value := fl (t / inject_Z w) |}
                {| N_sum := t0; N_value := fl (t0 / inject_Z w) |} 0%nat)
      as (outs & outs0 & st' & st0' & Hrun & Hrun0 & Houts).
    + reflexivity.
    + lia.
    + exact Hfirst.
    + rewrite Hrun, Hrun0. cbv beta iota delta [bind].
      eexists. eexists. eexists. eexists.
      split; [reflexivity|]. split; [reflexivity|].
      intros [|k] Hk.
      * eexists. eexists. split; [reflexivity|]. split; [reflexivity|]. exact Hfirst.
      * destruct (Houts k) as (q & q0 & Hq & Hq0 & Hq'); [lia|].
        exists q, q0. split; [exact Hq|]. split; [exact Hq0|].
        replace (S k) with (0 + k + 1)%nat by lia. exact Hq'.
  - rewrite xrange_nil by lia. eexists. eexists. eexists. eexists.
    split; [reflexivity|]. split; [reflexivity|]. intros k Hk. lia.
Qed.

End NPair.

Section NSeries.

Import TrueRange.

Variable fl : Q -> Q.
Variable true_range : Z -> Z -> result Q.
Variable lookback_days : list Z.
Variable i w last : Z.
Hypothesis true_range_returns :
  forall row, (0 <= row < last)%Z -> exists tr, true_range row i = Ok tr.
Hypothesis window_i : index lookback_days i = Ok w.
Hypothesis window_positive : (1 <= w)%Z.

(** The factor of the iteration: (window - 1) / window. *)
Let factor : Q := (inject_Z w - 1) / inject_Z w.

(** X23.  The sum an object starts with enters its [N] series (a fresh object
    starts with -999).  Two objects over the same true ranges, one
    started with the sum [seed] and one with 0, both return on every row
    from the window on.  Under a monotone rounding of the float
    operations, a [seed] that is not positive leaves no value above the
    one the zero start gives.  In exact arithmetic (the rounding being the
    identity) the two values of row [window + k] differ by
    [seed / window * ((window-1)/window)^k]. *)
Theorem N_keeps_the_starting_sum (seed v v0 : Q) :
  exists outs outs0 st' st0',
    calc_rows (N_calculation fl true_range lookback_days) i (xrange w last)
              {| N_sum := seed; N_value := v |} = Ok (outs, st')
    /\ calc_rows (N_calculation fl true_range lookback_days) i (xrange w last)
                 {| N_sum := 0; N_value := v0 |} = Ok (outs0, st0')
    /\ forall k, (w + Z.of_nat k < last)%Z ->
         exists q q0,
           nth_error outs k = Some (PyFloat q)
           /\ nth_error outs0 k = Some (PyFloat q0)
           /\ ((forall x y, x <= y -> fl x <= fl y) -> seed <= 0 -> q <= q0)
           /\ ((forall x, fl x == x) ->
               q - q0 == seed / inject_Z w * factor ^ (Z.of_nat k)).
Proof.
  pose proof (@window_nonzero w window_positive) as Hw.
  assert (Hwq : 1 <= inject_Z w).
  { change 1 with (inject_Z 1). rewrite <- Zle_Qle. exact window_positive. }
  destruct (@rows_pair fl true_range lookback_days i w last true_range_returns
              window_i window_positive (fun _ _ => True) (fun _ _ _ => True))
    with (seed := seed) (seed0 := 0) (v := v) (v0 := v0)
    as (outs & outs0 & st' & st0' & Hrun & Hrun0 & Houts); auto.
  exists outs, outs0, st', st0'. split; [exact Hrun|]. split; [exact Hrun0|].
  intros k Hk. destruct (Houts k Hk) as (q & q0 & Hq & Hq0 & _).
  exists q, q0. split; [exact Hq|]. split; [exact Hq0|]. split.
  - intros Hmono Hseed.
    destruct (@rows_pair fl true_range lookback_days i w last true_range_returns
                window_i window_positive Qle (fun _ => Qle))
      with (seed := seed) (seed0 := 0) (v := v) (v0 := v0)
      as (outs1 & outs2 & st1 & st2 & Hrun1 & Hrun2 & Houts1).
    + intros acc acc0 x H. apply Hmono. lra.
    + intros t t0 H. apply Hmono.
      apply Qmult_le_compat_r; [exact H|]. apply Qinv_le_0_compat. lra.
    + intros _ u u0 x H. apply Hmono.
      apply Qmult_le_compat_r; [|apply Qinv_le_0_compat; lra].
      apply Hmono.
      apply Qplus_le_compat; [|apply Qle_refl]. apply Hmono.
      apply Qmult_le_compat_r; [exact H | lra].
    + exact Hseed.
    + rewrite Hrun in Hrun1. rewrite Hrun0 in Hrun2.
      inversion Hrun1; inversion Hrun2; subst.
      destruct (Houts1 k Hk) as (q1 & q2 & Hq1 & Hq2 & Hle).
      rewrite Hq in Hq1. rewrite Hq0 in Hq2.
      inversion Hq1; inversion Hq2; subst. exact Hle.
  - intros Hfl.
    destruct (@rows_pair fl true_range lookback_days i w last true_range_returns
                window_i window_positive
                (fun t t0 => t - t0 == seed)
                (fun k q q0 => q - q0 == seed / inject_Z w * factor ^ (Z.of_nat k)))
      with (seed := seed) (seed0 := 0) (v := v) (v0 := v0)
      as (outs1 & outs2 & st1 & st2 & Hrun1 & Hrun2 & Houts1).
    + intros acc acc0 x H. rewrite !Hfl. rewrite <- H. ring.
    + intros t t0 H. rewrite !Hfl. change (Z.of_nat 0) with 0%Z.
      rewrite Qpower_0_r. rewrite <- H. field. exact Hw.
    + intros n u u0 x H.
      rewrite (Hfl (fl (fl (u * (inject_Z w - 1)) + x) / inject_Z w)),
        (Hfl (fl (fl (u0 * (inject_Z w - 1)) + x) / inject_Z w)),
        (Hfl (fl (u * (inject_Z w - 1)) + x)),
        (Hfl (fl (u0 * (inject_Z w - 1)) + x)),
        (Hfl (u * (inject_Z w - 1))), (Hfl (u0 * (inject_Z w - 1))).
      replace (Z.of_nat (S n)) with (1 + Z.of_nat n)%Z by lia.
      destruct n as [|n'].
      * change (Z.of_nat 0) with 0%Z in H |- *. rewrite Qpower_0_r in H.
        change (1 + 0)%Z with 1%Z. rewrite Qpower_1_r.
        setoid_replace ((u * (inject_Z w - 1) + x) / inject_Z w
                        - (u0 * (inject_Z w - 1) + x) / inject_Z w)
          with ((u - u0) * factor) by (unfold factor; field; exact Hw).
        rewrite H. ring.
      * rewrite (@Qpower_plus' factor 1 (Z.of_nat (S n'))) by lia.
        rewrite Qpower_1_r.
        setoid_replace ((u * (inject_Z w - 1) + x) / inject_Z w
                        - (u0 * (inject_Z w - 1) + x) / inject_Z w)
          with ((u - u0) * factor) by (unfold factor; field; exact Hw).
        rewrite H. set (pw := factor ^ Z.of_nat (S n')). ring.
    + ring.
    + rewrite Hrun in Hrun1. rewrite Hrun0 in Hrun2.
      inversion Hrun1; inversion Hrun2; subst.
      destruct (Houts1 k Hk) as (q1 & q2 & Hq1 & Hq2 & Hd).
      rewrite Hq in Hq1. rewrite Hq0 in Hq2.
      inversion Hq1; inversion Hq2; subst. exact Hd.
Qed.

End NSeries.

Lemma true_range_is_greatest_witness :
  exists h l tr,
    index [10; 12; 11] 1 = Ok h /\ index [8; 9; 10] 1 = Ok l
    /\ TrueRange.variable [10; 12; 11] [8; 9; 10] [9; 13; 10] 1 0 = Ok tr
    /\ (1%Z = 0%Z -> tr = h - l)
    /\ forall c, (0 < 1)%Z -> index [9; 13; 10] (1 - 1) = Ok c ->
         h - l <= tr /\ Qabs (c - h) <= tr /\ Qabs (c - l) <= tr /\ 0 <= tr
         /\ (tr = h - l \/ tr = Qabs (c - h) \/ tr = Qabs (c - l)).
Proof.
  apply (@true_range_is_greatest [10; 12; 11] [8; 9; 10] [9; 13; 10]).
  - reflexivity.
  - reflexivity.
  - unfold len. simpl. lia.
Defined.

Lemma N_keeps_the_starting_sum_witness :
  exists outs outs0 st' st0',
    calc_rows (TrueRange.N_calculation
                 (fun x => x)
                 (TrueRange.variable [10; 12; 11; 13] [8; 9; 10; 11] [9; 11; 10; 12])
                 [2%Z]) 0 (xrange 2 4)
              {| TrueRange.N_sum := -999; TrueRange.N_value := 0 |} = Ok (outs, st')
    /\ calc_rows (TrueRange.N_calculation
                    (fun x => x)
                    (TrueRange.variable [10; 12; 11; 13] [8; 9; 10; 11] [9; 11; 10; 12])
                    [2%Z]) 0 (xrange 2 4)
                 {| TrueRange.N_sum := 0; TrueRange.N_value := 0 |} = Ok (outs0, st0')
    /\ forall k, (2 + Z.of_nat k < 4)%Z ->
         exists q q0,
           nth_error outs k = Some (PyFloat q)
           /\ nth_error outs0 k = Some (PyFloat q0)
           /\ ((forall x y : Q, x <= y -> x <= y) -> -999 <= 0 -> q <= q0)
           /\ ((forall x : Q, x == x) ->
               q - q0 == -999 / inject_Z 2
                         * ((inject_Z 2 - 1) / inject_Z 2) ^ (Z.of_nat k)).
Proof.
  apply (@N_keeps_the_starting_sum (fun x => x)
           (TrueRange.variable [10; 12; 11; 13] [8; 9; 10; 11] [9; 11; 10; 12])
           [2%Z] 0 2 4).
  - intros row Hrow.
    apply (@variable_returns [10; 12; 11; 13] [8; 9; 10; 11] [9; 11; 10; 12]);
      [reflexivity | reflexivity | unfold len; simpl; lia].
  - reflexivity.
  - lia.
Defined.

(* ################################################################# *)
(** * [__meanSdevReturns__] *)

Section RowsAsList.

Variable A B : Type.
Variable column : list A.
Variable body : B -> Z -> result B.
Variable g : B -> A -> B.
Hypothesis body_reads : forall acc row x, index column row = Ok x ->
                                          body acc row = Ok (g acc x).

Lemma skipn_nth (l : list A) (k : nat) (x : A) :
  nth_error l k = Some x -> skipn k l = x :: skipn (S k) l.
Proof.
  revert l. induction k as [|k IH]; intros [|a l] H; simpl in H; try discriminate.
  - inversion H. reflexivity.
  - change (skipn (S k) (a :: l)) with (skipn k l).
    change (skipn (S (S k)) (a :: l)) with (skipn (S k) l). apply IH. exact H.
Qed.

(** A loop over a row range that reads one column is a fold over the
    rows of the range. *)
Lemma foldM_rows_as_list (n : nat) : forall (first last : Z) (acc : B),
  Z.to_nat (last - first) = n -> (0 <= first)%Z -> (last <= len column)%Z ->
  foldM body (xrange first last) acc
  = Ok (fold_left g (firstn n (skipn (Z.to_nat first) column)) acc).
Proof.
  induction n as [|n IH]; intros first last acc Hn H0 Hlast.
  - rewrite xrange_nil by lia. reflexivity.
  - rewrite xrange_cons by lia. cbn [foldM].
    destruct (@index_in_range _ column first) as (x & Hx & _); [lia|].
    rewrite (body_reads acc _ Hx). cbv beta iota delta [bind].
    rewrite (IH (first + 1)%Z last) by lia.
    rewrite (@skipn_nth column (Z.to_nat first) x) by (apply index_nth; [lia | exact Hx]).
    replace (Z.to_nat (first + 1)) with (S (Z.to_nat first)) by lia.
    reflexivity.
Qed.

End RowsAsList.

Section MeanAndDeviation.

Import Analysis.

Variable monthly_risk_free_rate : Q.
Variable input : string -> list Q.
Variable log : bool.
Variable first last : Z.
Hypothesis first_in_range : (0 <= first)%Z.
Hypothesis last_in_range : (last <= len (input (returns_key log)))%Z.

(** The value of a row for the plain and the risk-free flavour. *)
Let adjusted (fl : flavour) (x : Q) : Q :=
  match fl with RFR => x - monthly_risk_free_rate | _ => x end.

(** The adjusted returns of the rows of the bin. *)
Let bin (fl : flavour) : list Q :=
  map (adjusted fl)
      (firstn (Z.to_nat (last - first))
              (skipn (Z.to_nat first) (input (returns_key log)))).

Lemma flavoured_reads (fl : flavour) (row : Z) (x : Q) :
  fl <> Benchmark ->
  index (input (returns_key log)) row = Ok x ->
  flavoured monthly_risk_free_rate input (returns_key log) fl row
  = Ok (adjusted fl x).
Proof.
  intros Hfl Hx. unfold flavoured. rewrite Hx. cbv beta iota delta [bind].
  destruct fl; [reflexivity | reflexivity | congruence].
Qed.

Lemma sum_and_count (fl : flavour) (xs : list Q) : forall (s : Q) (n : Z),
  fold_left (fun (acc : Q * Z) x => (fst acc + adjusted fl x, (snd acc + 1)%Z)) xs (s, n)
  = (fold_left Qplus (map (adjusted fl) xs) s, (n + len xs)%Z).
Proof.
  induction xs as [|x xs IH]; intros s n.
  - cbn. f_equal. unfold len. simpl. lia.
  - cbn [fold_left map fst snd]. rewrite IH. f_equal. unfold len. simpl length. lia.
Qed.

Lemma squares_fold (fl : flavour) (m m' : Q) (xs : list Q) : forall acc acc',
  m == m' -> acc == acc' ->
  fold_left (fun a x => a + (adjusted fl x - m) * (adjusted fl x - m)) xs acc
  == fold_left (fun a x => a + (x - m') * (x - m')) (map (adjusted fl) xs) acc'.
Proof.
  induction xs as [|x xs IH]; intros acc acc' Hm Hacc.
  - exact Hacc.
  - cbn [fold_left map]. apply IH; [exact Hm|]. rewrite Hm, Hacc. reflexivity.
Qed.

Lemma squares_nonneg (m : Q) (xs : list Q) : forall acc,
  0 <= acc -> 0 <= fold_left (fun a x => a + (x - m) * (x - m)) xs acc.
Proof.
  induction xs as [|x xs IH]; intros acc Hacc; [exact Hacc|].
  cbn [fold_left]. apply IH.
  assert (Hsq : 0 <= (x - m) * (x - m)).
  { destruct (Qlt_le_dec (x - m) 0) as [Hneg | Hpos].
    - setoid_replace ((x - m) * (x - m)) with ((- (x - m)) * (- (x - m))) by ring.
      apply Qmult_le_0_compat; lra.
    - apply Qmult_le_0_compat; exact Hpos. }
  lra.
Qed.


(** X18.  A bin of fewer than two rows raises [ZeroDivisionError]: the mean
    divides by the number of rows and the variance by that number less
    one. *)
Theorem meanSdevReturns_needs_two_rows (fl : flavour) :
  fl <> Benchmark ->
  (last - first < 2)%Z ->
  meanSdevReturns monthly_risk_free_rate input (first, last) log fl
  = Raise ZeroDivisionError.
Proof.
  intros Hfl Hrows.
  unfold meanSdevReturns. cbn [fst snd]. cbv zeta.
  destruct (Z_le_gt_dec last first) as [Hnone | Hone].
  - rewrite xrange_nil by lia. cbn [foldM]. cbv beta iota delta [bind]. reflexivity.
  - rewrite xrange_cons, xrange_nil by lia. cbn [foldM].
    destruct (@index_in_range _ (input (returns_key log)) first) as (x & Hx & _); [lia|].
    rewrite !(@flavoured_reads _ _ _ Hfl Hx). cbv beta iota delta [bind].
    rewrite div_nonzero by (change (inject_Z (0 + 1)) with 1; lra).
    cbv beta iota delta [bind]. reflexivity.
Qed.

End MeanAndDeviation.


Lemma meanSdevReturns_needs_two_rows_witness :
  Analysis.meanSdevReturns (1 # 1000)
    (Analysis.monthly [2 # 100; - (1 # 100); 4 # 100]) (1, 2)%Z false Analysis.Plain
  = Raise ZeroDivisionError.
Proof.
  apply (@meanSdevReturns_needs_two_rows (1 # 1000)
           (Analysis.monthly [2 # 100; - (1 # 100); 4 # 100]) false 1 2).
  - lia.
  - unfold len. simpl. lia.
  - discriminate.
  - lia.
Defined.

(* ################################################################# *)
(** * [returnsAnalysis.__pruneData__] *)

Section GranularityPruning.

Import Granularity.

Variable D : Type.
Variable month : D -> Z.
Variable Date : list D.
Variable columns : list (string * list pyval).
Variable initial_period : Z.
Hypothesis columns_aligned :
  forall key column, In (key, column) columns -> len column = len Date.
Hypothesis period_in_range : (0 <= initial_period)%Z.

(** The output that holds the given rows of every column. *)
Let image (rows : list Z) : pruned D :=
  {| dates := select Date rows;
     others := map (fun kc => (fst kc, select (snd kc) rows)) columns |}.

Lemma index_out_of_range {A : Type} (l : list A) (j : Z) :
  (len l <= j)%Z -> index l j = Raise IndexError.
Proof.
  intros Hj. unfold index, len in *.
  replace (j <? 0)%Z with false by (symmetry; apply Z.ltb_ge; lia).
  replace (j <? Z.of_nat (length l))%Z with false by (symmetry; apply Z.ltb_ge; lia).
  rewrite andb_false_r. reflexivity.
Qed.

Lemma select_snoc {A : Type} (column : list A) (rows : list Z) (row : Z) (v : A) :
  index column row = Ok v -> select column (rows ++ [row]) = select column rows ++ [v].
Proof.
  intros Hv. unfold select. rewrite flat_map_app. cbn [flat_map].
  rewrite Hv, app_nil_r. reflexivity.
Qed.

Lemma start_columns (row : Z) (cs : list (string * list pyval)) :
  (0 <= row < len Date)%Z ->
  (forall key column, In (key, column) cs -> len column = len Date) ->
  mapM (fun kc : string * list pyval => v <- index (snd kc) row ;; Ok (fst kc, [v])) cs
  = Ok (map (fun kc => (fst kc, select (snd kc) [row])) cs).
Proof.
  intros Hrow. induction cs as [|[key column] cs IH]; intros Hcs; [reflexivity|].
  cbn [mapM map fst snd].
  destruct (@index_in_range _ column row) as (v & Hv & _).
  { rewrite (Hcs key column) by (left; reflexivity). exact Hrow. }
  rewrite Hv. cbv beta iota delta [bind] in IH |- *.
  rewrite IH by (intros k c Hin; apply (Hcs k c); right; exact Hin).
  unfold select. cbn [flat_map]. rewrite Hv. reflexivity.
Qed.

Lemma append_columns (rows : list Z) (row : Z) (cs : list (string * list pyval)) :
  (0 <= row < len Date)%Z ->
  (forall key column, In (key, column) cs -> len column = len Date) ->
  mapM (fun io : (string * list pyval) * (string * list pyval) =>
          v <- index (snd (fst io)) row ;;
          Ok (fst (snd io), snd (snd io) ++ [v]))
       (combine cs (map (fun kc => (fst kc, select (snd kc) rows)) cs))
  = Ok (map (fun kc => (fst kc, select (snd kc) (rows ++ [row]))) cs).
Proof.
  intros Hrow. induction cs as [|[key column] cs IH]; intros Hcs; [reflexivity|].
  cbn [mapM map combine fst snd].
  destruct (@index_in_range _ column row) as (v & Hv & _).
  { rewrite (Hcs key column) by (left; reflexivity). exact Hrow. }
  rewrite Hv. cbv beta iota delta [bind] in IH |- *.
  rewrite IH by (intros k c Hin; apply (Hcs k c); right; exact Hin).
  rewrite (@select_snoc _ _ rows _ _ Hv). reflexivity.
Qed.

Lemma start_image (row : Z) :
  (0 <= row < len Date)%Z -> start Date columns row = Ok (image [row]).
Proof.
  intros Hrow. unfold start.
  destruct (@index_in_range _ Date row Hrow) as (d & Hd & _).
  rewrite Hd. cbv beta iota delta [bind].
  pose proof (@start_columns row columns Hrow columns_aligned) as Hcols.
  cbv beta iota delta [bind] in Hcols. rewrite Hcols.
  unfold image, select. cbn [flat_map]. rewrite Hd. reflexivity.
Qed.

Lemma append_image (rows : list Z) (row : Z) :
  (0 <= row < len Date)%Z ->
  append Date columns (image rows) row = Ok (image (rows ++ [row])).
Proof.
  intros Hrow. unfold append.
  destruct (@index_in_range _ Date row Hrow) as (d & Hd & _).
  rewrite Hd. cbv beta iota delta [bind]. cbn [others dates image].
  pose proof (@append_columns rows row columns Hrow columns_aligned) as Hcols.
  cbv beta iota delta [bind] in Hcols. rewrite Hcols.
  unfold image. rewrite (@select_snoc _ _ rows _ _ Hd). reflexivity.
Qed.

(** The monthly loop from row [a] on, once [the_month_tomorrow] is bound
    to the month of row [a] or will be bound on this row. *)
Lemma monthly_from (n : nat) : forall (a : Z) (rows : list Z) (tomorrow : option Z),
  Z.to_nat (len Date - a) = n -> (0 <= a)%Z ->
  ((a < len Date)%Z ->
   (a + 1 < len Date)%Z
   \/ exists d, index Date a = Ok d /\ tomorrow = Some (month d)) ->
  monthly_loop month Date columns (xrange a (len Date)) (image rows) tomorrow
  = inl (image (rows ++ filter (month_end month Date) (xrange a (len Date)))).
Proof.
  induction n as [|n IH]; intros a rows tomorrow Hn Ha Hbound.
  - rewrite xrange_nil by lia. cbn [monthly_loop filter]. rewrite app_nil_r. reflexivity.
  - rewrite xrange_cons by lia. cbn [monthly_loop filter].
    destruct (@index_in_range _ Date a) as (d & Hd & _); [lia|].
    destruct (Z_lt_le_dec (a + 1) (len Date)) as [Hnext | Hlast].
    + destruct (@index_in_range _ Date (a + 1)) as (d' & Hd' & _); [lia|].
      assert (Hend : month_end month Date a = negb (month d' =? month d)%Z).
      { unfold month_end. rewrite Hd', Hd. reflexivity. }
      rewrite Hd', Hd, Hend.
      destruct (negb (month d' =? month d)%Z).
      * rewrite append_image by lia.
        rewrite (IH (a + 1)%Z (rows ++ [a]) (Some (month d'))); try lia.
        -- rewrite <- app_assoc. reflexivity.
        -- intros _. right. exists d'. split; [exact Hd' | reflexivity].
      * rewrite (IH (a + 1)%Z rows (Some (month d'))); try lia.
        -- reflexivity.
        -- intros _. right. exists d'. split; [exact Hd' | reflexivity].
    + destruct Hbound as [Hlt | (d0 & Hd0 & ->)]; [lia | lia |].
      rewrite Hd in Hd0. inversion Hd0; subst d0.
      assert (Hend : month_end month Date a = true).
      { unfold month_end. rewrite index_out_of_range by lia. reflexivity. }
      rewrite index_out_of_range by lia.
      rewrite append_image by lia. cbv beta iota delta [bind].
      rewrite Hd, Hend, Z.eqb_refl. cbn [negb].
      rewrite xrange_nil by lia. cbn [monthly_loop filter]. reflexivity.
Qed.

(** X24.  With monthly granularity and aligned columns the method keeps the
    starting row and, of the rows after it, those followed by a row of
    another month and the last row (once), unless exactly one row follows
    the starting row. *)
Theorem monthly_prune_keeps_month_ends :
  (initial_period < len Date)%Z ->
  len Date <> (initial_period + 2)%Z ->
  pruneData month Date columns initial_period Monthly
  = inl (image (initial_period
                :: filter (month_end month Date)
                          (xrange (initial_period + 1) (len Date)))).
Proof.
  intros Hstart Hrows. unfold pruneData.
  rewrite start_image by lia.
  apply (@monthly_from (Z.to_nat (len Date - (initial_period + 1)))
           (initial_period + 1)%Z [initial_period] None); [reflexivity | lia |].
  intros Hfollows. left. lia.
Qed.

(** X25.  With monthly granularity, when exactly one row follows the starting
    row, the method reads [the_month_tomorrow] before any assignment to it
    and raises [UnboundLocalError]. *)
Theorem monthly_prune_two_rows_unbound :
  len Date = (initial_period + 2)%Z ->
  pruneData month Date columns initial_period Monthly = inr UnboundLocalError.
Proof.
  intros Hrows. unfold pruneData.
  rewrite start_image by lia.
  rewrite xrange_cons, xrange_nil by lia. cbn [monthly_loop].
  rewrite index_out_of_range by lia.
  rewrite append_image by lia. cbv beta iota delta [bind]. reflexivity.
Qed.

(** X26.  With daily granularity and aligned columns the method keeps every row
    from the starting row on. *)
Theorem daily_prune_keeps_rows_from_start :
  (initial_period < len Date)%Z ->
  pruneData month Date columns initial_period Daily
  = inl (image (xrange initial_period (len Date))).
Proof.
  intros Hstart. unfold pruneData.
  rewrite start_image by lia.
  destruct (@foldM_xrange _ (append Date columns)
              (fun row out => (initial_period < row)%Z
                              /\ out = image (xrange initial_period row))
              (len Date))
    with (n := Z.to_nat (len Date - (initial_period + 1)))
         (a := (initial_period + 1)%Z) (acc := image [initial_period])
    as (out & Hrun & _ & Hout).
  - intros row acc Hrow [Hlo ->].
    rewrite append_image by lia. eexists. split; [reflexivity|].
    split; [lia|]. rewrite xrange_snoc by lia. reflexivity.
  - reflexivity.
  - split; [lia|]. rewrite xrange_cons, xrange_nil by lia. reflexivity.
  - rewrite Hrun, Hout.
    replace (Z.max (initial_period + 1) (len Date)) with (len Date) by lia.
    reflexivity.
Qed.

End GranularityPruning.

Lemma monthly_prune_keeps_month_ends_witness :
  Granularity.pruneData fst [(1, 30); (1, 31); (2, 1); (2, 28); (3, 1)]%Z
    [("Equity"%string, [PyFloat 100; PyFloat 101; PyFloat 102; PyFloat 103; PyFloat 104])]
    0 Granularity.Monthly
  = inl {| Granularity.dates :=
             Granularity.select [(1, 30); (1, 31); (2, 1); (2, 28); (3, 1)]%Z
               (0%Z :: filter (Granularity.month_end fst
                                 [(1, 30); (1, 31); (2, 1); (2, 28); (3, 1)]%Z)
                              (xrange (0 + 1)
                                 (len [(1, 30); (1, 31); (2, 1); (2, 28); (3, 1)]%Z)));
           Granularity.others :=
             map (fun kc : string * list pyval =>
                    (fst kc,
                     Granularity.select (snd kc)
                       (0%Z :: filter (Granularity.month_end fst
                                         [(1, 30); (1, 31); (2, 1); (2, 28); (3, 1)]%Z)
                                      (xrange (0 + 1)
                                         (len [(1, 30); (1, 31); (2, 1); (2, 28);
                                               (3, 1)]%Z)))))
                 [("Equity"%string,
                   [PyFloat 100; PyFloat 101; PyFloat 102; PyFloat 103; PyFloat 104])] |}.
Proof.
  apply (@monthly_prune_keeps_month_ends (Z * Z) fst
           [(1, 30); (1, 31); (2, 1); (2, 28); (3, 1)]%Z
           [("Equity"%string,
             [PyFloat 100; PyFloat 101; PyFloat 102; PyFloat 103; PyFloat 104])] 0).
  - intros key column [H | []]. inversion H; subst. reflexivity.
  - lia.
  - unfold len. simpl. lia.
  - unfold len. simpl. lia.
Defined.

Lemma monthly_prune_two_rows_unbound_witness :
  Granularity.pruneData fst [(1, 30); (1, 31); (2, 1)]%Z
    [("Equity"%string, [PyFloat 100; PyFloat 101; PyFloat 102])]
    1 Granularity.Monthly
  = inr Granularity.UnboundLocalError.
Proof.
  apply (@monthly_prune_two_rows_unbound (Z * Z) fst [(1, 30); (1, 31); (2, 1)]%Z
           [("Equity"%string, [PyFloat 100; PyFloat 101; PyFloat 102])] 1).
  - intros key column [H | []]. inversion H; subst. reflexivity.
  - lia.
  - reflexivity.
Defined.

Lemma daily_prune_keeps_rows_from_start_witness :
  Granularity.pruneData fst [(1, 30); (1, 31); (2, 1)]%Z
    [("Equity"%string, [PyFloat 100; PyFloat 101; PyFloat 102])]
    1 Granularity.Daily
  = inl {| Granularity.dates :=
             Granularity.select [(1, 30); (1, 31); (2, 1)]%Z
               (xrange 1 (len [(1, 30); (1, 31); (2, 1)]%Z));
           Granularity.others :=
             map (fun kc : string * list pyval =>
                    (fst kc,
                     Granularity.select (snd kc)
                       (xrange 1 (len [(1, 30); (1, 31); (2, 1)]%Z))))
                 [("Equity"%string, [PyFloat 100; PyFloat 101; PyFloat 102])] |}.
Proof.
  apply (@daily_prune_keeps_rows_from_start (Z * Z) fst [(1, 30); (1, 31); (2, 1)]%Z
           [("Equity"%string, [PyFloat 100; PyFloat 101; PyFloat 102])] 1).
  - intros key column [H | []]. inversion H; subst. reflexivity.
  - lia.
  - unfold len. simpl. lia.
Defined.

Section DrawdownFromNothing.

Import ReturnsAnalysis.

(** X11.  [Drawdowns] starts with a peak of 0 and divides by the peak: on an
    equity column whose first value is not positive the first row raises
    [ZeroDivisionError], and so does the loop over the rows. *)
Theorem drawdown_raises_without_equity (Equity : list Q) (first : Q) :
  index Equity 0 = Ok first ->
  first <= 0 ->
  calc_rows (Drawdowns.calculation Equity) 0 (xrange 0 (len Equity))
            Drawdowns.init_state
  = Raise ZeroDivisionError.
Proof.
  intros Hfirst Hle.
  assert (Hrows : (0 < len Equity)%Z).
  { unfold index, len in *. cbn [Z.ltb] in Hfirst.
    destruct (Z.of_nat (length Equity)) eqn:E; try lia.
    cbn in Hfirst. discriminate. }
  rewrite xrange_cons by lia. cbn [calc_rows].
  unfold Drawdowns.calculation at 1. rewrite Hfirst.
  cbv beta iota delta [bind]. cbn [Drawdowns.peak Drawdowns.init_state].
  replace (Qltb 0 first) with false by (symmetry; apply Qltb_ge; exact Hle).
  reflexivity.
Qed.

End DrawdownFromNothing.

Lemma drawdown_raises_without_equity_witness :
  calc_rows (ReturnsAnalysis.Drawdowns.calculation [0; 10; 12]) 0
            (xrange 0 (len [0; 10; 12])) ReturnsAnalysis.Drawdowns.init_state
  = Raise ZeroDivisionError.
Proof.
  apply (@drawdown_raises_without_equity [0; 10; 12] 0).
  - reflexivity.
  - discriminate.
Defined.
